(** * Batching queue consumer of [app/queue_handler.py]

    A shallow embedding of the two listeners of the queue handler, the
    RabbitMQ one (push: the broker calls [on_message]) and the SQS one
    (pull: the listener polls), together with the properties of their
    batching and settlement logic.

    What is modelled, and how:
    - the calls a listener makes on its collaborators (the dispatch
      [callback], the channel, the SQS client, the logger, [time.sleep])
      are recorded in order in a trace of [event]s, the way a test with
      mocks would read [mock_calls];
    - Python exceptions are an [outcome]: a call either returns or raises,
      and [try]/[except]/[finally] are combinators on computations;
    - the closures' mutable variables ([message_batch], [receipt_handles],
      [last_flush_time]) are the state threaded through a computation; a
      mutation survives an exception, as it does in Python;
    - everything the environment decides is an input: the clock readings of
      [time.time()], whether [callback] or a transport call raises, what a
      poll returns, when a termination signal arrives;
    - [json.loads] is a parameter: a body decodes to a message or raises;
    - clock readings and timeouts are integers (a fixed unit of time); the
      comparison [now - last_flush_time >= flush_timeout] is the source's.

    The listeners are modelled one incarnation at a time, from line 60 and
    from line 113 on; the [@retry] decorator that restarts a listener after
    an exception comes with [consume_messages] further down, where the
    connection set-up that precedes line 60 is one input of an
    incarnation. *)

From Stdlib Require Import String List ZArith Lia Bool.
Import ListNotations.
Local Open Scope Z_scope.

(** ** Observable calls *)

(** The distinct records the two listeners write to the logger, named after
    the place that writes them. *)
Inductive log_record : Type :=
| RabbitParseFailed            (* line 72, logger.exception *)
| RabbitAcked (n : nat)        (* line 83, logger.info, n = len(message_batch) *)
| RabbitBatchFailed            (* line 85, logger.exception *)
| RabbitListening              (* line 94, logger.info *)
| SqsClientFailed              (* line 116, logger.error *)
| SqsPolling                   (* line 123, logger.info *)
| SqsParseFailed               (* line 141, logger.exception *)
| SqsDeleted (n : nat)         (* line 150, logger.info, n = len(message_batch) *)
| SqsBatchFailed               (* line 152, logger.exception *)
| SqsPollingError.             (* line 159, logger.error *)

(** A call made by a listener. An event records that the call was made; if
    the call raised, the event is the last one of its block. *)
Inductive event (Message : Type) : Type :=
| Callback (payload : list Message)
| BasicAck (delivery_tag : Z)
| BasicNack (delivery_tag : Z) (requeue : bool)
| QueueDeclare (durable : bool)
| BasicQos (prefetch_count : Z)
| BasicConsume
| StopConsuming
| ConnectionClose
| ReceiveMessage (max_number_of_messages wait_time_seconds : Z)
| DeleteMessage (receipt_handle : string)
| Sleep (seconds : Z)
| Log (r : log_record).

Arguments Callback {Message} payload.
Arguments BasicAck {Message} delivery_tag.
Arguments BasicNack {Message} delivery_tag requeue.
Arguments QueueDeclare {Message} durable.
Arguments BasicQos {Message} prefetch_count.
Arguments BasicConsume {Message}.
Arguments StopConsuming {Message}.
Arguments ConnectionClose {Message}.
Arguments ReceiveMessage {Message} max_number_of_messages wait_time_seconds.
Arguments DeleteMessage {Message} receipt_handle.
Arguments Sleep {Message} seconds.
Arguments Log {Message} r.

(** How a computation ends: it returns, it raises an [Exception], or it is
    still waiting for input that the finite script does not hold. *)
Inductive outcome (A : Type) : Type :=
| Returned (a : A)
| Raised
| Blocked.

Arguments Returned {A} a.
Arguments Raised {A}.
Arguments Blocked {A}.

(** ** Computations with state, a trace and exceptions *)

Section Effects.
Context {Message S : Type}.

Definition M (A : Type) : Type := S -> S * list (event Message) * outcome A.

Definition ret {A} (a : A) : M A := fun s => (s, [], Returned a).

Definition bind {A B} (m : M A) (k : A -> M B) : M B :=
  fun s =>
    match m s with
    | (s1, t1, Returned a) => let '(s2, t2, o) := k a s1 in (s2, t1 ++ t2, o)
    | (s1, t1, Raised) => (s1, t1, Raised)
    | (s1, t1, Blocked) => (s1, t1, Blocked)
    end.

Definition get : M S := fun s => (s, [], Returned s).
Definition put (s : S) : M unit := fun _ => (s, [], Returned tt).
Definition raise {A} : M A := fun s => (s, [], Raised).
Definition blocked {A} : M A := fun s => (s, [], Blocked).

(** A call on a collaborator: recorded, then it returns or raises. *)
Definition call (e : event Message) (returns : bool) : M unit :=
  fun s => (s, [e], if returns then Returned tt else Raised).

(** [try: m except Exception: h] *)
Definition try_except {A} (m h : M A) : M A :=
  fun s =>
    match m s with
    | (s1, t1, Raised) => let '(s2, t2, o) := h s1 in (s2, t1 ++ t2, o)
    | r => r
    end.

(** [try: m finally: f]; the finaliser runs whether [m] returned or
    raised, and an exception of [m] goes on after it. *)
Definition try_finally {A} (m : M A) (f : M unit) : M A :=
  fun s =>
    match m s with
    | (s1, t1, Blocked) => (s1, t1, Blocked)
    | (s1, t1, o) =>
        match f s1 with
        | (s2, t2, Returned _) => (s2, t1 ++ t2, o)
        | (s2, t2, Raised) => (s2, t1 ++ t2, Raised)
        | (s2, t2, Blocked) => (s2, t1 ++ t2, Blocked)
        end
    end.

(** [for x in xs: body(x)] *)
Fixpoint for_each {T} (xs : list T) (body : T -> M unit) : M unit :=
  match xs with
  | [] => ret tt
  | x :: xs' => bind (body x) (fun _ => for_each xs' body)
  end.

(** [while not shutdown_event.is_set(): body], over a finite script of what
    each iteration meets. [is_set] is the flag at the test of the loop; a
    termination signal that arrives during an iteration ([signal x]) sets
    the flag, which is never cleared. When the script is used up and the
    flag is not set, the loop is still running. *)
Fixpoint while_not_set {T} (signal : T -> bool) (body : T -> M unit)
    (is_set : bool) (script : list T) : M unit :=
  if is_set then ret tt
  else
    match script with
    | [] => blocked
    | x :: script' =>
        bind (body x)
             (fun _ => while_not_set signal body (is_set || signal x) script')
    end.

Definition state_after {A} (r : S * list (event Message) * outcome A) : S :=
  fst (fst r).
Definition trace_of {A} (r : S * list (event Message) * outcome A)
  : list (event Message) := snd (fst r).
Definition outcome_of {A} (r : S * list (event Message) * outcome A)
  : outcome A := snd r.
End Effects.

Arguments M Message S A : clear implicits.

Declare Scope eff_scope.
Delimit Scope eff_scope with eff.
Notation "x <- m ;; k" := (bind m (fun x => k))
  (at level 61, m at next level, right associativity) : eff_scope.
Notation "m ;; k" := (bind m (fun _ => k))
  (at level 61, right associativity) : eff_scope.

(** Python's truth value of a list: it is not empty. *)
Definition truthy {T} (l : list T) : bool :=
  match l with
  | [] => false
  | _ :: _ => true
  end.

(** ** Reading a trace *)

Section Traces.
Context {Message : Type}.

(** The payloads handed to the dispatch callback, in call order. *)
Fixpoint dispatched (t : list (event Message)) : list (list Message) :=
  match t with
  | [] => []
  | Callback payload :: t' => payload :: dispatched t'
  | _ :: t' => dispatched t'
  end.

(** Settlement calls: ack, nack and delete. *)
Definition is_settlement (e : event Message) : bool :=
  match e with
  | BasicAck _ | BasicNack _ _ | DeleteMessage _ => true
  | _ => false
  end.

Definition settlements (t : list (event Message)) : list (event Message) :=
  filter is_settlement t.

Definition is_sleep (e : event Message) : bool :=
  match e with Sleep _ => true | _ => false end.

Definition is_receive (e : event Message) : bool :=
  match e with ReceiveMessage _ _ => true | _ => false end.
End Traces.

(** ** The RabbitMQ listener (push), lines 41-101 *)

Module Rabbit.

(** What the environment decides while one delivery is handled. *)
Record environment (Message : Type) : Type := {
  callback_returns : list Message -> bool;
  basic_ack_returns : Z -> bool;
  basic_nack_returns : Z -> bool
}.
Arguments callback_returns {Message} _ _.
Arguments basic_ack_returns {Message} _ _.
Arguments basic_nack_returns {Message} _ _.

(** One invocation of [on_message]: the body and the delivery tag of
    [method], the reading of [time.time()] at line 76, and the
    environment. *)
Record delivery (Message : Type) : Type := {
  body : string;
  delivery_tag : Z;
  now : Z;
  env : environment Message
}.
Arguments body {Message} _.
Arguments delivery_tag {Message} _.
Arguments now {Message} _.
Arguments env {Message} _.

(** The variables captured by the closure. *)
Record state (Message : Type) : Type := {
  message_batch : list (Message * Z);
  last_flush_time : Z
}.
Arguments message_batch {Message} _.
Arguments last_flush_time {Message} _.

(** One call of [connection.process_data_events(time_limit=1)]: the
    deliveries it hands to [on_message], whether it then returns, and
    whether a termination signal set [shutdown_event] meanwhile. *)
Record cycle (Message : Type) : Type := {
  deliveries : list (delivery Message);
  connection_ok : bool;
  signal : bool
}.
Arguments deliveries {Message} _.
Arguments connection_ok {Message} _.
Arguments signal {Message} _.

(** What the broker decides about the calls that set the channel up, lines
    60, 61 and 92, and about the two calls made when the listener leaves
    its loop, lines 100-101: whether each returns. *)
Record broker : Type := {
  queue_declare_returns : bool;
  basic_qos_returns : bool;
  basic_consume_returns : bool;
  stop_consuming_returns : bool;
  close_returns : bool
}.

(** The channel can be set up. *)
Definition set_up (br : broker) : bool :=
  queue_declare_returns br && basic_qos_returns br && basic_consume_returns br.

(** The channel can be set up and closed. *)
Definition cooperative (br : broker) : bool :=
  set_up br && stop_consuming_returns br && close_returns br.

Section Listener.
Context {Message : Type}.
Variable json_loads : string -> option Message.
Variables batch_size flush_timeout : Z.

Local Open Scope eff_scope.
Definition action (A : Type) : Type := M Message (state Message) A.

Definition logger (r : log_record) : action unit := call (Log r) true.

Definition callback (d : delivery Message) (payload : list Message) : action unit :=
  call (Callback payload) (callback_returns (env d) payload).

Definition basic_ack (d : delivery Message) (tag : Z) : action unit :=
  call (BasicAck tag) (basic_ack_returns (env d) tag).

Definition basic_nack (d : delivery Message) (tag : Z) (requeue : bool) : action unit :=
  call (BasicNack tag requeue) (basic_nack_returns (env d) tag).

(** Lines 78-90: the [try]/[except]/[finally] block of [on_message]. *)
Definition flush (d : delivery Message) (now : Z) : action unit :=
  try_finally
    (try_except
       (st <- get ;;
        let payload := map fst (message_batch st) in
        callback d payload ;;
        for_each (message_batch st) (fun m => basic_ack d (snd m)) ;;
        logger (RabbitAcked (List.length (message_batch st))))
       (logger RabbitBatchFailed ;;
        st <- get ;;
        for_each (message_batch st) (fun m => basic_nack d (snd m) false)))
    (put {| message_batch := []; last_flush_time := now |}).

(** Lines 66-90. *)
Definition on_message (d : delivery Message) : action unit :=
  match json_loads (body d) with
  | None =>
      logger RabbitParseFailed ;;
      basic_nack d (delivery_tag d) false
  | Some message =>
      (st <- get ;;
       put {| message_batch := message_batch st ++ [(message, delivery_tag d)];
              last_flush_time := last_flush_time st |}) ;;
      let now := now d in
      st <- get ;;
      if (Z.of_nat (List.length (message_batch st)) >=? batch_size)
         || (now - last_flush_time st >=? flush_timeout)
      then flush d now
      else ret tt
  end.

(** Line 98: the deliveries of one call are handled one after the
    other; an exception of [on_message] leaves the call. *)
Definition process_data_events (c : cycle Message) : action unit :=
  for_each (deliveries c) on_message ;;
  if connection_ok c then ret tt else raise.

(** Lines 96-98. *)
Definition consume (is_set : bool) (script : list (cycle Message)) : action unit :=
  while_not_set signal process_data_events is_set script.

(** Lines 95-101: the loop and its [finally]. The two calls of the
    [finally] block are in sequence: when [stop_consuming] raises, [close]
    is not called, and the exception of the block is the one that leaves
    the listener. *)
Definition serve (br : broker) (is_set : bool) (script : list (cycle Message))
  : action unit :=
  try_finally
    (consume is_set script)
    (call StopConsuming (stop_consuming_returns br) ;;
     call ConnectionClose (close_returns br)).

(** Lines 60-101. The calls that set the channel up are outside the [try]
    of line 95: when one of them raises, the listener raises at once. *)
Definition listener (br : broker) (is_set : bool)
    (script : list (cycle Message)) : action unit :=
  call (QueueDeclare true) (queue_declare_returns br) ;;
  call (BasicQos batch_size) (basic_qos_returns br) ;;
  call BasicConsume (basic_consume_returns br) ;;
  logger RabbitListening ;;
  serve br is_set script.

Definition initial (t0 : Z) : state Message :=
  {| message_batch := []; last_flush_time := t0 |}.

(** The listener from its first state, [t0] being the reading of
    [time.time()] at line 64. *)
Definition start_rabbitmq_listener (br : broker) (t0 : Z) (is_set : bool)
    (script : list (cycle Message)) :=
  listener br is_set script (initial t0).
End Listener.
End Rabbit.


(** ** The SQS listener (pull), lines 105-160 *)

Module Sqs.

(** What the environment decides during one iteration of the loop. *)
Record environment (Message : Type) : Type := {
  callback_returns : list Message -> bool;
  delete_message_returns : string -> bool
}.
Arguments callback_returns {Message} _ _.
Arguments delete_message_returns {Message} _ _.

(** An entry of [response["Messages"]]; SQS gives each one both keys. *)
Record sqs_message : Type := {
  Body : string;
  ReceiptHandle : string
}.

(** One iteration of the loop: what [receive_message] gives ([None] when it
    raises, otherwise [response.get("Messages", [])]), the reading of
    [time.time()] at line 133, the environment, and whether a termination
    signal set [shutdown_event] during the iteration. *)
Record poll (Message : Type) : Type := {
  response : option (list sqs_message);
  now : Z;
  env : environment Message;
  signal : bool
}.
Arguments response {Message} _.
Arguments now {Message} _.
Arguments env {Message} _.
Arguments signal {Message} _.

(** The local variables of the listener. *)
Record state (Message : Type) : Type := {
  message_batch : list Message;
  receipt_handles : list string;
  last_flush_time : Z
}.
Arguments message_batch {Message} _.
Arguments receipt_handles {Message} _.
Arguments last_flush_time {Message} _.

Section Listener.
Context {Message : Type}.
Variable json_loads : string -> option Message.
Variables batch_size flush_timeout polling_interval : Z.

Local Open Scope eff_scope.
Definition action (A : Type) : Type := M Message (state Message) A.

Definition logger (r : log_record) : action unit := call (Log r) true.

(** [time.sleep] of the configured polling interval, a number of seconds
    that is not negative: the call returns. *)
Definition sleep (seconds : Z) : action unit := call (Sleep seconds) true.

(** Lines 127-132. *)
Definition receive_message (p : poll Message) : action (list sqs_message) :=
  call (ReceiveMessage batch_size 10) true ;;
  match response p with
  | Some messages => ret messages
  | None => raise
  end.

(** The list object [message_batch] itself is the argument of the call: at
    the call it holds the pending messages. The callback of this repository
    ([process_batch]) only reads it. *)
Definition callback (p : poll Message) (payload : list Message) : action unit :=
  call (Callback payload) (callback_returns (env p) payload).

Definition delete_message (p : poll Message) (handle : string) : action unit :=
  call (DeleteMessage handle) (delete_message_returns (env p) handle).

(** Lines 136-141: the body of the loop over the polled messages. *)
Definition decode (msg : sqs_message) : action unit :=
  match json_loads (Body msg) with
  | Some message =>
      st <- get ;;
      put {| message_batch := message_batch st ++ [message];
             receipt_handles := receipt_handles st ++ [ReceiptHandle msg];
             last_flush_time := last_flush_time st |}
  | None => logger SqsParseFailed
  end.

(** Lines 146-156: the inner [try]/[except]/[finally] block. *)
Definition flush (p : poll Message) (now : Z) : action unit :=
  try_finally
    (try_except
       (st <- get ;;
        callback p (message_batch st) ;;
        for_each (receipt_handles st) (fun handle => delete_message p handle) ;;
        logger (SqsDeleted (List.length (message_batch st))))
       (logger SqsBatchFailed))
    (put {| message_batch := []; receipt_handles := []; last_flush_time := now |}).

(** Lines 126-160: one iteration of the [while] loop. *)
Definition iteration (p : poll Message) : action unit :=
  try_except
    (messages <- receive_message p ;;
     let now := now p in
     for_each messages decode ;;
     st <- get ;;
     if truthy (message_batch st)
        && ((Z.of_nat (List.length (message_batch st)) >=? batch_size)
            || (now - last_flush_time st >=? flush_timeout))
     then flush p now
     else ret tt)
    (logger SqsPollingError ;;
     sleep polling_interval).

(** Lines 125-160. *)
Definition polling (is_set : bool) (script : list (poll Message)) : action unit :=
  while_not_set signal iteration is_set script.

Definition initial (t0 : Z) : state Message :=
  {| message_batch := []; receipt_handles := []; last_flush_time := t0 |}.

(** Lines 113-160; [client_ok] tells whether [boto3.client] returned, [t0]
    is the reading of [time.time()] at line 121. *)
Definition start_sqs_listener (client_ok : bool) (t0 : Z) (is_set : bool)
    (script : list (poll Message)) :=
  (if client_ok
   then logger SqsPolling ;; polling is_set script
   else logger SqsClientFailed) (initial t0).

End Listener.
End Sqs.


(** ** Vocabulary of the statements *)

(** The elements on which a loop of calls makes its call: all of them up to
    and including the first one whose call raises. *)
Fixpoint attempted {T} (returns : T -> bool) (xs : list T) : list T :=
  match xs with
  | [] => []
  | x :: xs' => x :: (if returns x then attempted returns xs' else [])
  end.

(** The steps of a script that the loop enters: none when the flag is set at
    the first test, otherwise all of them up to and including the one during
    which a termination signal arrives. *)
Fixpoint entered {T} (signal : T -> bool) (is_set : bool) (script : list T)
  : list T :=
  if is_set then []
  else
    match script with
    | [] => []
    | x :: script' => x :: entered signal (is_set || signal x) script'
    end.

Section Decoding.
Context {Message : Type}.
Variable json_loads : string -> option Message.

(** The messages of those bodies that decode, in the order of the bodies. *)
Fixpoint decoded (bodies : list string) : list Message :=
  match bodies with
  | [] => []
  | b :: bodies' =>
      match json_loads b with
      | Some message => message :: decoded bodies'
      | None => decoded bodies'
      end
  end.

(** The bodies handed to [on_message] by a script, in delivery order. *)
Definition delivered (script : list (Rabbit.cycle Message)) : list string :=
  flat_map (fun c => map Rabbit.body (Rabbit.deliveries c)) script.

(** The bodies returned by the polls of a script, in order. *)
Definition polled (script : list (Sqs.poll Message)) : list string :=
  flat_map (fun p => match Sqs.response p with
                     | Some messages => map Sqs.Body messages
                     | None => []
                     end) script.
End Decoding.

(** The messages of the pending batch of a listener, without their
    delivery tokens. *)
Definition rabbit_pending {Message} (st : Rabbit.state Message) : list Message :=
  map fst (Rabbit.message_batch st).

(** What [on_message] appends for a delivery: the decoded message with its
    delivery tag, or nothing. *)
Definition rabbit_entry {Message} (json_loads : string -> option Message)
    (d : Rabbit.delivery Message) : list (Message * Z) :=
  match json_loads (Rabbit.body d) with
  | Some message => [(message, Rabbit.delivery_tag d)]
  | None => []
  end.

(** The receipt handles recorded for polled messages: those of the messages
    whose body decodes, in order. *)
Fixpoint recorded_handles {Message} (json_loads : string -> option Message)
    (messages : list Sqs.sqs_message) : list string :=
  match messages with
  | [] => []
  | msg :: messages' =>
      match json_loads (Sqs.Body msg) with
      | Some _ => Sqs.ReceiptHandle msg :: recorded_handles json_loads messages'
      | None => recorded_handles json_loads messages'
      end
  end.

(** The log records of the decoding loop: one per body that does not
    decode. *)
Fixpoint parse_failures {Message} (json_loads : string -> option Message)
    (messages : list Sqs.sqs_message) : list (event Message) :=
  match messages with
  | [] => []
  | msg :: messages' =>
      match json_loads (Sqs.Body msg) with
      | Some _ => parse_failures json_loads messages'
      | None => Log SqsParseFailed :: parse_failures json_loads messages'
      end
  end.

(** The state of the SQS listener once the polled messages are decoded. *)
Definition sqs_appended {Message} (json_loads : string -> option Message)
    (messages : list Sqs.sqs_message) (st : Sqs.state Message)
  : Sqs.state Message :=
  {| Sqs.message_batch :=
       Sqs.message_batch st ++ decoded json_loads (map Sqs.Body messages);
     Sqs.receipt_handles :=
       Sqs.receipt_handles st ++ recorded_handles json_loads messages;
     Sqs.last_flush_time := Sqs.last_flush_time st |}.

Section Summaries.
Context {Message S : Type}.
Variable json_loads : string -> option Message.

(** [m] keeps the invariant [I] of the state and hands to the dispatch
    callback only payloads that satisfy [Q]. *)
Definition respects {A} (I : S -> Prop) (Q : list Message -> Prop)
    (m : M Message S A) : Prop :=
  forall s, I s ->
    I (state_after (m s)) /\ Forall Q (dispatched (trace_of (m s))).

(** Run from [s], [m] has taken a prefix [done] of [bodies], and the
    messages it has dispatched, followed by those still [pending], are the
    messages pending before followed by the decodable ones of [done], in
    order. *)
Definition accounts {A} (pending : S -> list Message) (bodies : list string)
    (m : M Message S A) (s : S) (done : list string) : Prop :=
  (exists rest, bodies = done ++ rest)
  /\ concat (dispatched (trace_of (m s))) ++ pending (state_after (m s))
     = pending s ++ decoded json_loads done.
End Summaries.

(** ** Concrete runs

    A decoder, environments and scripts on which the statements below are
    evaluated. Messages are strings; every body decodes to itself except
    the one body that is not JSON. *)

Module Scenario.
Local Open Scope string_scope.

Definition loads (b : string) : option string :=
  if String.eqb b "not json" then None else Some b.

(** Every call returns. *)
Definition obliging : Rabbit.environment string :=
  {| Rabbit.callback_returns := fun _ => true;
     Rabbit.basic_ack_returns := fun _ => true;
     Rabbit.basic_nack_returns := fun _ => true |}.

(** The dispatch callback raises; the channel works. *)
Definition failing_callback : Rabbit.environment string :=
  {| Rabbit.callback_returns := fun _ => false;
     Rabbit.basic_ack_returns := fun _ => true;
     Rabbit.basic_nack_returns := fun _ => true |}.

Definition delivery (env : Rabbit.environment string) (b : string)
    (tag now : Z) : Rabbit.delivery string :=
  {| Rabbit.body := b; Rabbit.delivery_tag := tag; Rabbit.now := now;
     Rabbit.env := env |}.

Definition cycle (ds : list (Rabbit.delivery string)) : Rabbit.cycle string :=
  {| Rabbit.deliveries := ds; Rabbit.connection_ok := true;
     Rabbit.signal := false |}.

(** A call of [process_data_events] during which nothing is delivered. *)
Definition idle : Rabbit.cycle string := cycle [].

(** Every call that sets the channel up or closes it returns. *)
Definition broker_ok : Rabbit.broker :=
  {| Rabbit.queue_declare_returns := true;
     Rabbit.basic_qos_returns := true;
     Rabbit.basic_consume_returns := true;
     Rabbit.stop_consuming_returns := true;
     Rabbit.close_returns := true |}.

Definition sqs_obliging : Sqs.environment string :=
  {| Sqs.callback_returns := fun _ => true;
     Sqs.delete_message_returns := fun _ => true |}.

Definition sqs_failing_callback : Sqs.environment string :=
  {| Sqs.callback_returns := fun _ => false;
     Sqs.delete_message_returns := fun _ => true |}.

(** The callback returns and [delete_message] raises. *)
Definition sqs_failing_delete : Sqs.environment string :=
  {| Sqs.callback_returns := fun _ => true;
     Sqs.delete_message_returns := fun _ => false |}.

Definition msg (b h : string) : Sqs.sqs_message :=
  {| Sqs.Body := b; Sqs.ReceiptHandle := h |}.

Definition poll (env : Sqs.environment string)
    (response : option (list Sqs.sqs_message)) (now : Z) : Sqs.poll string :=
  {| Sqs.response := response; Sqs.now := now; Sqs.env := env;
     Sqs.signal := false |}.

(** A pending batch of two messages, last flushed at time 0. *)
Definition two_pending : Rabbit.state string :=
  {| Rabbit.message_batch := [("a", 1); ("b", 2)];
     Rabbit.last_flush_time := 0 |}.

Definition sqs_two_pending : Sqs.state string :=
  {| Sqs.message_batch := ["a"; "b"];
     Sqs.receipt_handles := ["h1"; "h2"];
     Sqs.last_flush_time := 0 |}.

(** A third message, at time 10, handled while the callback raises. *)
Definition third_raising : Rabbit.delivery string :=
  delivery failing_callback "c" 3 10.

(** The same delivery when every call returns. *)
Definition third : Rabbit.delivery string := delivery obliging "c" 3 10.

(** A poll that returns no message, at time 70. *)
Definition late_empty_poll : Sqs.poll string := poll sqs_obliging (Some []) 70.

Definition late_empty_poll_raising : Sqs.poll string :=
  poll sqs_failing_callback (Some []) 70.

(** Three valid messages in quick succession, in one call of
    [process_data_events] and in one poll. *)
Definition three_deliveries : list (Rabbit.cycle string) :=
  [cycle [delivery obliging "a" 1 1; delivery obliging "b" 2 1;
          delivery obliging "c" 3 2]].

Definition three_polled : list (Sqs.poll string) :=
  [poll sqs_obliging (Some [msg "a" "h1"; msg "b" "h2"; msg "c" "h3"]) 2].

(** One message polled at time 1, then two at time 2: with a cap of 2 no
    poll returns more than the cap. *)
Definition one_then_two : list (Sqs.poll string) :=
  [poll sqs_obliging (Some [msg "a" "h1"]) 1;
   poll sqs_obliging (Some [msg "b" "h2"; msg "c" "h3"]) 2].

(** The timeout scenario, with [batch_size = 5] and a timeout of 60: two
    valid messages at times 1 and 2, then 61 calls of
    [process_data_events(time_limit=1)] that deliver nothing. *)
Definition two_then_idle : list (Rabbit.cycle string) :=
  cycle [delivery obliging "a" 1 1; delivery obliging "b" 2 2]
    :: repeat idle 61.

(** A third message, delivered at time 63. *)
Definition late_third : Rabbit.delivery string := delivery obliging "c" 3 63.

(** The same for SQS: two messages polled at time 2, then a poll that
    returns nothing at time 63. *)
Definition two_polled : list (Sqs.poll string) :=
  [poll sqs_obliging (Some [msg "a" "h1"; msg "b" "h2"]) 2].

Definition idle_poll : Sqs.poll string := poll sqs_obliging (Some []) 63.

(** A poll that returns one message while [delete_message] raises, and a
    poll that raises. *)
Definition poll_delete_raises : Sqs.poll string :=
  poll sqs_failing_delete (Some [msg "a" "h1"]) 1.

Definition poll_raises : Sqs.poll string := poll sqs_obliging None 1.

(** A poll that raises, a poll whose deletion raises, then a poll that
    returns nothing: no termination signal. *)
Definition troubled : list (Sqs.poll string) :=
  [poll_raises; poll_delete_raises; poll sqs_obliging (Some []) 2].

(** One message pending with its receipt handle. *)
Definition sqs_one_pending : Sqs.state string :=
  {| Sqs.message_batch := ["a"];
     Sqs.receipt_handles := ["h1"];
     Sqs.last_flush_time := 0 |}.

(** A call of [process_data_events] that delivers one message, during
    which a termination signal arrives. *)
Definition signalled : Rabbit.cycle string :=
  {| Rabbit.deliveries := [delivery obliging "a" 1 1];
     Rabbit.connection_ok := true;
     Rabbit.signal := true |}.

(** A poll that returns one message, during which a termination signal
    arrives. *)
Definition sqs_signalled : Sqs.poll string :=
  {| Sqs.response := Some [msg "a" "h1"]; Sqs.now := 1;
     Sqs.env := sqs_obliging; Sqs.signal := true |}.

(** The same steps when nothing is delivered, or polled, while the signal
    arrives. *)
Definition idle_signalled : Rabbit.cycle string :=
  {| Rabbit.deliveries := [];
     Rabbit.connection_ok := true;
     Rabbit.signal := true |}.

Definition sqs_idle_signalled : Sqs.poll string :=
  {| Sqs.response := Some []; Sqs.now := 100;
     Sqs.env := sqs_obliging; Sqs.signal := true |}.

(** A delivery and a polled message whose body is not JSON. *)
Definition garbled : Rabbit.delivery string :=
  delivery obliging "not json" 7 5.

Definition sqs_garbled : Sqs.sqs_message := msg "not json" "h7".

(** The callback returns and the acknowledgement of tag 2 raises. *)
Definition failing_ack : Rabbit.environment string :=
  {| Rabbit.callback_returns := fun _ => true;
     Rabbit.basic_ack_returns := fun tag => negb (Z.eqb tag 2);
     Rabbit.basic_nack_returns := fun _ => true |}.

(** The negative acknowledgements raise. *)
Definition failing_nack : Rabbit.environment string :=
  {| Rabbit.callback_returns := fun _ => true;
     Rabbit.basic_ack_returns := fun _ => true;
     Rabbit.basic_nack_returns := fun _ => false |}.

(** Three messages pending, last flushed at time 0. *)
Definition three_pending : Rabbit.state string :=
  {| Rabbit.message_batch := [("a", 1); ("b", 2); ("c", 3)];
     Rabbit.last_flush_time := 0 |}.

(** The delivery that completes that batch while the acknowledgement of
    tag 2 raises. *)
Definition third_ack_raises : Rabbit.delivery string :=
  delivery failing_ack "c" 3 10.

(** A poll at time 70 while every deletion raises. *)
Definition late_poll_delete_raises : Sqs.poll string :=
  poll sqs_failing_delete (Some []) 70.

(** The garbled delivery when its negative acknowledgement raises, and a
    call of [process_data_events] that hands it over before three valid
    messages. *)
Definition garbled_unsettled : Rabbit.delivery string :=
  delivery failing_nack "not json" 7 5.

Definition garbled_then_three : list (Rabbit.cycle string) :=
  [cycle [garbled_unsettled; delivery obliging "a" 1 6;
          delivery obliging "b" 2 6; delivery obliging "c" 3 6]].

(** Polls that return nothing, at times 12, 22, 32, 42 and 52, and the
    next one at time 62. *)
Definition idle_polls : list (Sqs.poll string) :=
  map (fun t => poll sqs_obliging (Some []) t) [12; 22; 32; 42; 52].

Definition poll_at_62 : Sqs.poll string := poll sqs_obliging (Some []) 62.



End Scenario.

(** ** Vocabulary of the further properties *)

Section Emission.
Context {Message S : Type}.

(** Every call [m] makes satisfies [P], whatever the state it starts in. *)
Definition emits {A} (P : event Message -> Prop) (m : M Message S A) : Prop :=
  forall s, Forall P (trace_of (m s)).
End Emission.

(** The calls made while the RabbitMQ loop runs: the callback, the
    settlements and the logger. *)
Definition in_consuming {Message} (e : event Message) : Prop :=
  match e with
  | Callback _ | BasicAck _ | BasicNack _ _ | Log _ => True
  | _ => False
  end.

Definition is_stop_consuming {Message} (e : event Message) : bool :=
  match e with StopConsuming => true | _ => false end.

Definition is_connection_close {Message} (e : event Message) : bool :=
  match e with ConnectionClose => true | _ => false end.

(** The two lists of the SQS listener describe the same polled messages:
    the batch holds their decoded bodies and the handles are theirs, in the
    same order. *)
Definition sqs_paired {Message} (json_loads : string -> option Message)
    (st : Sqs.state Message) : Prop :=
  exists messages : list Sqs.sqs_message,
    Sqs.message_batch st = decoded json_loads (map Sqs.Body messages)
    /\ Sqs.receipt_handles st = recorded_handles json_loads messages.

(** Consecutive deliveries are at least [gap] apart on the clock, the
    first one at least [gap] after [last]. *)
Fixpoint spaced {Message} (gap last : Z) (ds : list (Rabbit.delivery Message))
  : Prop :=
  match ds with
  | [] => True
  | d :: ds' => gap <= Rabbit.now d - last /\ spaced gap (Rabbit.now d) ds'
  end.

(** Inputs on which the further properties are evaluated. *)
Module Cases.
Local Open Scope string_scope.

(** The callback returns and the acknowledgement of tag 2 raises. *)
Definition ack_2_raises : Rabbit.environment string :=
  {| Rabbit.callback_returns := fun _ => true;
     Rabbit.basic_ack_returns := fun tag => negb (Z.eqb tag 2);
     Rabbit.basic_nack_returns := fun _ => true |}.

(** The callback raises, the acknowledgements raise, the negative
    acknowledgements return. *)
Definition only_nack_returns : Rabbit.environment string :=
  {| Rabbit.callback_returns := fun _ => false;
     Rabbit.basic_ack_returns := fun _ => false;
     Rabbit.basic_nack_returns := fun _ => true |}.

(** Three messages, 60 apart, the first 60 after the start at 0; the
    second body is not JSON. *)
Definition slow_traffic : list (Rabbit.delivery string) :=
  [Scenario.delivery only_nack_returns "a" 1 60;
   Scenario.delivery only_nack_returns "not json" 2 120;
   Scenario.delivery only_nack_returns "c" 3 180].

Definition troubled_cycles : list (Rabbit.cycle string) :=
  [Scenario.cycle slow_traffic].

End Cases.

(** ** Python values

    What [json.loads] can return: the messages the dispatch callback
    receives. A dict is given by its items, each key once; a float is kept
    as its literal. *)
#[local] Unset Elimination Schemes.
Inductive value : Type :=
| VNone
| VBool (b : bool)
| VInt (n : Z)
| VFloat (literal : string)
| VStr (s : string)
| VList (elements : list value)
| VDict (items : list (string * value)).
#[local] Set Elimination Schemes.

Fixpoint lookup (key : string) (items : list (string * value)) : option value :=
  match items with
  | [] => None
  | (k, v) :: items' => if String.eqb k key then Some v else lookup key items'
  end.

(** [record.get(key, default)]. Only a dict has the method: on any other
    value the call raises [AttributeError], here [None]. *)
Definition dict_get (record : value) (key : string) (default : value)
  : option value :=
  match record with
  | VDict items =>
      Some (match lookup key items with Some v => v | None => default end)
  | _ => None
  end.

Definition is_dict (record : value) : bool :=
  match record with VDict _ => true | _ => false end.

(** ** Computations whose exceptions have a class

    The database writer and its callers decide on the class of an
    exception ([retry_if_exception_type]), so here a computation that
    raises tells what it raises. *)
Module Task.

Inductive result (X A : Type) : Type :=
| Done (a : A)
| Failed (e : X).
Arguments Done {X A} a.
Arguments Failed {X A} e.

Section Tasks.
Context {Ev S X : Type}.

Definition task (A : Type) : Type := S -> S * list Ev * result X A.

Definition ret {A} (a : A) : task A := fun s => (s, [], Done a).

Definition bind {A B} (m : task A) (k : A -> task B) : task B :=
  fun s =>
    match m s with
    | (s1, t1, Done a) => let '(s2, t2, r) := k a s1 in (s2, t1 ++ t2, r)
    | (s1, t1, Failed e) => (s1, t1, Failed e)
    end.

Definition get : task S := fun s => (s, [], Done s).
Definition put (s : S) : task unit := fun _ => (s, [], Done tt).
Definition fail {A} (e : X) : task A := fun s => (s, [], Failed e).

(** A call on a collaborator: recorded; it returns, or raises [e] when the
    environment says [Some e]. *)
Definition call (ev : Ev) (raises : option X) : task unit :=
  fun s => (s, [ev], match raises with None => Done tt | Some e => Failed e end).

(** [try: m except Exception as e: h(e); raise] *)
Definition on_error {A} (m : task A) (h : X -> task unit) : task A :=
  fun s =>
    match m s with
    | (s1, t1, Failed e) =>
        match h e s1 with
        | (s2, t2, Done _) => (s2, t1 ++ t2, Failed e)
        | (s2, t2, Failed e') => (s2, t1 ++ t2, Failed e')
        end
    | r => r
    end.

(** [try: m except Exception: h] *)
Definition swallow (m h : task unit) : task unit :=
  fun s =>
    match m s with
    | (s1, t1, Failed _) => let '(s2, t2, r) := h s1 in (s2, t1 ++ t2, r)
    | r => r
    end.

(** [try: m finally: f] *)
Definition finally {A} (m : task A) (f : task unit) : task A :=
  fun s =>
    match m s with
    | (s1, t1, r) =>
        match f s1 with
        | (s2, t2, Done _) => (s2, t1 ++ t2, r)
        | (s2, t2, Failed e) => (s2, t1 ++ t2, Failed e)
        end
    end.

(** The result of [m] as a value: what a decorator sees of the function it
    wraps. *)
Definition attempt {A} (m : task A) : task (result X A) :=
  fun s => let '(s1, t1, r) := m s in (s1, t1, Done r).

Definition state_after {A} (r : S * list Ev * result X A) : S := fst (fst r).
Definition trace_of {A} (r : S * list Ev * result X A) : list Ev :=
  snd (fst r).
Definition result_of {A} (r : S * list Ev * result X A) : result X A := snd r.
End Tasks.

Arguments task Ev S X A : clear implicits.

Definition returns {X A} (r : result X A) : bool :=
  match r with Done _ => true | Failed _ => false end.

End Task.

Declare Scope task_scope.
Delimit Scope task_scope with task.
Notation "x <- m ;; k" := (Task.bind m (fun x => k))
  (at level 61, m at next level, right associativity) : task_scope.
Notation "m ;; k" := (Task.bind m (fun _ => k))
  (at level 61, right associativity) : task_scope.

(** ** The PostgreSQL writer, [app/db_writer.py] *)

Module Postgres.

(** The classes of exception the code tells apart: the two that
    [write_batch_to_postgres] is retried on, the error of [.get] on a value
    that is not a dict, any other [Exception], and the [RetryError] that
    [tenacity] raises when it gives up. *)
Inductive exn : Type :=
| OperationalError
| InterfaceError
| AttributeError
| OtherError
| RetryError.

(** [retry_if_exception_type((OperationalError, InterfaceError))], line 33. *)
Definition retryable (e : exn) : bool :=
  match e with
  | OperationalError | InterfaceError => true
  | _ => false
  end.

(** Lines 55-60: what is inserted for one record; the last component is
    wrapped in [Json]. *)
Record row : Type := {
  symbol : value;
  source : value;
  timestamp : value;
  data : value
}.

Inductive log : Type :=
| InitializingPool             (* line 22, logger.info *)
| NoData                       (* line 40, logger.warning *)
| Wrote (n : nat)              (* line 66, logger.info, n = len(records) *)
| WriteFailed (e : exn)        (* line 69, logger.exception *)
| CursorCloseFailed            (* line 77, logger.warning *)
| ReleaseFailed                (* line 82, logger.warning *)
| EmptyBatch                   (* main.py line 22, logger.warning *)
| ReceivedBatch (n : nat)      (* main.py line 25, logger.info *)
| BatchWritten                 (* main.py line 29, logger.info *)
| BatchFailed (e : exn).       (* main.py line 31, logger.exception *)

Inductive event : Type :=
| ThreadedConnectionPool (minconn maxconn : Z)
| GetConn
| Cursor
| ExecuteBatch (table : string) (records : list row)
| Commit
| CursorClose
| PutConn
| Log (r : log)
| Sleep (seconds : Z).

(** What the environment decides during one attempt: for each call, whether
    it returns ([None]) or what it raises. *)
Record world : Type := {
  new_pool : option exn;
  getconn : option exn;
  cursor : option exn;
  execute_batch : option exn;
  commit : option exn;
  close : option exn;
  putconn : option exn
}.

(** The module variable [_pool] (is it set?) and the local variables [conn]
    and [cur] of [write_batch_to_postgres] (are they set?). *)
Record state : Type := {
  pool : bool;
  conn : bool;
  cur : bool
}.

Local Open Scope task_scope.
Definition action (A : Type) : Type := Task.task event state exn A.

Definition logger (r : log) : action unit := Task.call (Log r) None.

(** Lines 54-62, for one record. *)
Definition to_row (record : value) : option row :=
  match dict_get record "symbol" VNone,
        dict_get record "source" (VStr "unknown"),
        dict_get record "timestamp" VNone,
        dict_get record "analysis" VNone with
  | Some symbol, Some source, Some timestamp, Some analysis =>
      Some {| symbol := symbol; source := source; timestamp := timestamp;
              data := analysis |}
  | _, _, _, _ => None
  end.

(** Lines 54-62: the list comprehension; it raises at the first record
    that is not a dict. *)
Fixpoint build_records (data_batch : list value) : option (list row) :=
  match data_batch with
  | [] => Some []
  | record :: data_batch' =>
      match to_row record with
      | Some r =>
          match build_records data_batch' with
          | Some rows => Some (r :: rows)
          | None => None
          end
      | None => None
      end
  end.

(** Lines 19-24. *)
Definition get_connection (w : world) : action unit :=
  st <- Task.get ;;
  (if pool st then Task.ret tt
   else
     logger InitializingPool ;;
     Task.call (ThreadedConnectionPool 1 5) (new_pool w) ;;
     Task.put {| pool := true; conn := conn st; cur := cur st |}) ;;
  Task.call GetConn (getconn w).

(** Lines 27-29. *)
Definition release_connection (w : world) : action unit :=
  st <- Task.get ;;
  if pool st then Task.call PutConn (putconn w) else Task.ret tt.

(** Lines 37-82: the body of [write_batch_to_postgres], one attempt of the
    decorated function. [table] is what [get_postgres_table()] returns. *)
Definition write_attempt (table : string) (w : world)
    (data_batch : list value) : action unit :=
  match data_batch with
  | [] => logger NoData
  | _ :: _ =>
      (st <- Task.get ;;
       Task.put {| pool := pool st; conn := false; cur := false |}) ;;
      Task.finally
        (Task.on_error
           (get_connection w ;;
            (st <- Task.get ;;
             Task.put {| pool := pool st; conn := true; cur := cur st |}) ;;
            Task.call Cursor (cursor w) ;;
            (st <- Task.get ;;
             Task.put {| pool := pool st; conn := conn st; cur := true |}) ;;
            records <- match build_records data_batch with
                       | Some records => Task.ret records
                       | None => Task.fail AttributeError
                       end ;;
            Task.call (ExecuteBatch table records) (execute_batch w) ;;
            Task.call Commit (commit w) ;;
            logger (Wrote (List.length records)))
           (fun e => logger (WriteFailed e)))
        ((st <- Task.get ;;
          if cur st
          then Task.swallow (Task.call CursorClose (close w))
                 (logger CursorCloseFailed)
          else Task.ret tt) ;;
         (st <- Task.get ;;
          if conn st
          then Task.swallow (release_connection w) (logger ReleaseFailed)
          else Task.ret tt))
  end.

(** Lines 32-36: the [@retry] decorator. An attempt that raises one of the
    two retryable classes is followed, while fewer than five attempts have
    been made, by a sleep of 5 seconds ([wait_fixed(5)]) and another
    attempt; after the fifth, [RetryError] is raised. Any other exception
    goes through at once. [worlds n] is the environment of attempt [n];
    [remaining] counts the attempts left. *)
Fixpoint retrying (remaining : nat) (n : nat) (worlds : nat -> world)
    (table : string) (data_batch : list value) : action unit :=
  match remaining with
  | O => Task.fail RetryError
  | S remaining' =>
      r <- Task.attempt (write_attempt table (worlds n) data_batch) ;;
      match r with
      | Task.Done _ => Task.ret tt
      | Task.Failed e =>
          if retryable e
          then match remaining' with
               | O => Task.fail RetryError
               | S _ =>
                   Task.call (Sleep 5) None ;;
                   retrying remaining' (S n) worlds table data_batch
               end
          else Task.fail e
      end
  end.

(** The first [count] attempts of a retried call, from attempt [n] on: each
    runs in the state the one before left, in its own environment. *)
Fixpoint attempts (count n : nat) (worlds : nat -> world) (table : string)
    (data_batch : list value) (st : state)
  : list (state * list event * Task.result exn unit) :=
  match count with
  | O => []
  | S count' =>
      let r := write_attempt table (worlds n) data_batch st in
      r :: attempts count' (S n) worlds table data_batch (Task.state_after r)
  end.

(** The calls of successive attempts, with a sleep of 5 seconds between
    two. *)
Fixpoint spliced (traces : list (list event)) : list event :=
  match traces with
  | [] => []
  | t :: traces' =>
      t ++ match traces' with
           | [] => []
           | _ :: _ => Sleep 5 :: spliced traces'
           end
  end.

(** Does the decorator retry after this result? *)
Definition is_retried (r : Task.result exn unit) : bool :=
  match r with
  | Task.Done _ => false
  | Task.Failed e => retryable e
  end.

(** Lines 32-82: the decorated function. *)
Definition write_batch_to_postgres (worlds : nat -> world) (table : string)
    (data_batch : list value) : action unit :=
  retrying 5 0 worlds table data_batch.

(** [main.py], lines 19-32. *)
Definition process_batch (worlds : nat -> world) (table : string)
    (batch : list value) : action unit :=
  match batch with
  | [] => logger EmptyBatch
  | _ :: _ =>
      logger (ReceivedBatch (List.length batch)) ;;
      Task.on_error
        (write_batch_to_postgres worlds table batch ;;
         logger BatchWritten)
        (fun e => logger (BatchFailed e))
  end.

(** Reading a trace. *)
Definition is_putconn (e : event) : bool :=
  match e with PutConn => true | _ => false end.
Definition is_cursor_close (e : event) : bool :=
  match e with CursorClose => true | _ => false end.
Definition is_new_pool (e : event) : bool :=
  match e with ThreadedConnectionPool _ _ => true | _ => false end.
Definition is_sleep (e : event) : bool :=
  match e with Sleep _ => true | _ => false end.
Definition is_write_failed (e : event) : bool :=
  match e with Log (WriteFailed _) => true | _ => false end.
Definition is_statement (e : event) : bool :=
  match e with ExecuteBatch _ _ | Commit => true | _ => false end.
Definition is_no_data (e : event) : bool :=
  match e with Log NoData => true | _ => false end.

(** A statement sent for a batch whose rows are [rows]: the insertion of
    these rows, or a commit. *)
Definition of_batch (table : string) (rows : list row) (e : event) : Prop :=
  e = ExecuteBatch table rows \/ e = Commit.

(** Whether [process_batch], the dispatch callback that [main] hands to
    [consume_messages], returns on a payload: what a listener sees of it.
    [st] is the state of the writer at the call. *)
Definition dispatch_returns (worlds : nat -> world) (table : string)
    (st : state) (payload : list value) : bool :=
  Task.returns (Task.result_of (process_batch worlds table payload st)).

(** Did the attempt get a connection, and a cursor? *)
Definition obtains_connection (w : world) (st : state) : bool :=
  match (if pool st then None else new_pool w), getconn w with
  | None, None => true
  | _, _ => false
  end.

Definition obtains_cursor (w : world) (st : state) : bool :=
  obtains_connection w st
  && match cursor w with None => true | Some _ => false end.

End Postgres.

(** Inputs on which the properties of the writer are evaluated. *)
Module Samples.
Local Open Scope string_scope.

(** Every call returns. *)
Definition fine : Postgres.world :=
  {| Postgres.new_pool := None; Postgres.getconn := None;
     Postgres.cursor := None; Postgres.execute_batch := None;
     Postgres.commit := None; Postgres.close := None;
     Postgres.putconn := None |}.

(** The database cannot be reached: the pool cannot be created, and a
    connection cannot be obtained from an existing pool. *)
Definition down : Postgres.world :=
  {| Postgres.new_pool := Some Postgres.OperationalError;
     Postgres.getconn := Some Postgres.OperationalError;
     Postgres.cursor := None; Postgres.execute_batch := None;
     Postgres.commit := None; Postgres.close := None;
     Postgres.putconn := None |}.

(** The statement is refused with an error that is not retried, and the
    clean-up calls raise too. *)
Definition refused : Postgres.world :=
  {| Postgres.new_pool := None; Postgres.getconn := None;
     Postgres.cursor := None;
     Postgres.execute_batch := Some Postgres.OtherError;
     Postgres.commit := None;
     Postgres.close := Some Postgres.OtherError;
     Postgres.putconn := Some Postgres.OtherError |}.

(** Down for the first two attempts, fine afterwards. *)
Definition recovering (n : nat) : Postgres.world :=
  if Nat.ltb n 2 then down else fine.

Definition fresh : Postgres.state :=
  {| Postgres.pool := false; Postgres.conn := false; Postgres.cur := false |}.

Definition warm : Postgres.state :=
  {| Postgres.pool := true; Postgres.conn := false; Postgres.cur := false |}.

(** A record without a source, with a key the writer does not read. *)
Definition tick : value :=
  VDict [("symbol", VStr "ABC"); ("timestamp", VInt 1);
         ("analysis", VDict [("rsi", VInt 70)]); ("note", VBool true)].

Definition tick_row : Postgres.row :=
  {| Postgres.symbol := VStr "ABC"; Postgres.source := VStr "unknown";
     Postgres.timestamp := VInt 1;
     Postgres.data := VDict [("rsi", VInt 70)] |}.

(** The same record with the unread key changed. *)
Definition tick_noted : value :=
  VDict [("note", VNone); ("symbol", VStr "ABC"); ("timestamp", VInt 1);
         ("analysis", VDict [("rsi", VInt 70)])].

(** A message that decodes to a number: valid JSON, not an object. *)
Definition number : value := VInt 42.

End Samples.

(** ** [consume_messages] and the [@retry] of the listeners,
    [app/queue_handler.py] lines 21-32, 40 and 104 *)

Module Handler.

(** [str.lower()] on the ASCII letters; other characters are left as they
    are (queue types are ASCII words). *)
Definition lower_char (c : Ascii.ascii) : Ascii.ascii :=
  let n := Ascii.nat_of_ascii c in
  if Nat.leb 65 n && Nat.leb n 90 then Ascii.ascii_of_nat (n + 32) else c.

Fixpoint lower (s : string) : string :=
  match s with
  | EmptyString => EmptyString
  | String c s' => String (lower_char c) (lower s')
  end.

(** What one incarnation of the RabbitMQ listener meets: whether the
    connection and the channel are obtained (lines 43-55), the clock at
    line 64, [shutdown_event] at the first test of the loop, the script of
    the loop, and what the calls that set the channel up and close it
    do. *)
Record rabbit_run (Message : Type) : Type := {
  established : bool;
  rabbit_t0 : Z;
  rabbit_is_set : bool;
  rabbit_script : list (Rabbit.cycle Message);
  rabbit_broker : Rabbit.broker
}.
Arguments established {Message} _.
Arguments rabbit_t0 {Message} _.
Arguments rabbit_is_set {Message} _.
Arguments rabbit_script {Message} _.
Arguments rabbit_broker {Message} _.

(** The same for the SQS listener; [client_ok] tells whether
    [boto3.client] returned (lines 113-117). *)
Record sqs_run (Message : Type) : Type := {
  client_ok : bool;
  sqs_t0 : Z;
  sqs_is_set : bool;
  sqs_script : list (Sqs.poll Message)
}.
Arguments client_ok {Message} _.
Arguments sqs_t0 {Message} _.
Arguments sqs_is_set {Message} _.
Arguments sqs_script {Message} _.

Section Retried.
Context {Message : Type}.
Variable json_loads : string -> option Message.
Variables batch_size flush_timeout polling_interval : Z.

(** The seconds [wait_exponential(multiplier=1, min=2, max=10)] gives after
    the attempt of each number. *)
Variable wait : nat -> Z.

(** [@retry(stop=stop_after_attempt(5), wait=...)] around a function whose
    incarnations share no state: an incarnation that raises is followed,
    while fewer than five have run, by a sleep and a new incarnation; the
    fifth failure is raised on ([RetryError]). An incarnation that returns,
    or that is still running, is the last. [remaining] counts the
    incarnations left, [n] numbers the next one. *)
Fixpoint retry (remaining n : nat)
    (incarnation : nat -> list (event Message) * outcome unit)
  : list (event Message) * outcome unit :=
  match remaining with
  | O => ([], Raised)
  | S remaining' =>
      let '(t, o) := incarnation n in
      match o with
      | Raised =>
          match remaining' with
          | O => (t, Raised)
          | S _ =>
              let '(t', o') := retry remaining' (S n) incarnation in
              (t ++ Sleep (wait n) :: t', o')
          end
      | _ => (t, o)
      end
  end.

(** The calls of [count] successive incarnations, from incarnation [n] on,
    each but the last followed by its sleep. *)
Fixpoint restarted (count n : nat)
    (incarnation : nat -> list (event Message) * outcome unit)
  : list (event Message) :=
  match count with
  | O => []
  | S count' =>
      fst (incarnation n)
        ++ match count' with
           | O => []
           | S _ => Sleep (wait n) :: restarted count' (S n) incarnation
           end
  end.

(** Lines 41-101, one incarnation: new local variables each time. *)
Definition rabbit_incarnation (runs : nat -> rabbit_run Message) (n : nat)
  : list (event Message) * outcome unit :=
  if established (runs n)
  then
    let r := Rabbit.start_rabbitmq_listener json_loads batch_size flush_timeout
               (rabbit_broker (runs n)) (rabbit_t0 (runs n))
               (rabbit_is_set (runs n)) (rabbit_script (runs n)) in
    (trace_of r, outcome_of r)
  else ([], Raised).

(** Lines 105-160, one incarnation. *)
Definition sqs_incarnation (runs : nat -> sqs_run Message) (n : nat)
  : list (event Message) * outcome unit :=
  let r := Sqs.start_sqs_listener json_loads batch_size flush_timeout
             polling_interval (client_ok (runs n)) (sqs_t0 (runs n))
             (sqs_is_set (runs n)) (sqs_script (runs n)) in
  (trace_of r, outcome_of r).

(** Lines 21-32; [queue_type] is what [config.get_queue_type()] returns.
    The two handlers registered at lines 23-24 are what sets
    [shutdown_event] when a signal arrives. An unsupported type raises
    [ValueError]. *)
Definition consume_messages (queue_type : string)
    (rabbit_runs : nat -> rabbit_run Message)
    (sqs_runs : nat -> sqs_run Message)
  : list (event Message) * outcome unit :=
  let queue_type := lower queue_type in
  if String.eqb queue_type "rabbitmq"
  then retry 5 0 (rabbit_incarnation rabbit_runs)
  else if String.eqb queue_type "sqs"
       then retry 5 0 (sqs_incarnation sqs_runs)
       else ([], Raised).
End Retried.

Definition is_queue_declare {Message} (e : event Message) : bool :=
  match e with QueueDeclare _ => true | _ => false end.

End Handler.

(** ** The entry point, [app/main.py] lines 35-66 *)

Module Main.

(** How a call of [main] ends: it returns (the listener returned), it
    raises (an [Exception] of [consume_messages], logged and raised again),
    it exits with status 0 ([KeyboardInterrupt]), or it is still
    running. *)
Inductive ending : Type :=
| Returns
| Raises
| Interrupted
| StillRunning.

(** Lines 41-48. *)
Definition main {Message} (consumed : list (event Message) * outcome unit)
  : ending :=
  match snd consumed with
  | Returned _ => Returns
  | Raised => Raises
  | Blocked => StillRunning
  end.

Inductive event : Type :=
| MainCalled                   (* line 56 *)
| LogRestarting                (* line 57, logger.warning *)
| LogRestart (n : nat)         (* line 60, logger.error *)
| LogCritical                  (* line 63, logger.critical *)
| Sleep (seconds : Z).         (* line 66 *)

Inductive status : Type :=
| Exited (code : Z)
| Running (restart_attempts : nat).

(** Lines 51-66: the loop around [main], over the endings of its
    successive calls. [sys.exit] raises [SystemExit], which the loop does
    not catch. *)
Fixpoint supervise (restart_attempts : nat) (calls : list ending)
  : list event * status :=
  match calls with
  | [] => ([], Running restart_attempts)
  | Returns :: calls' =>
      let '(t, s) := supervise restart_attempts calls' in
      (MainCalled :: LogRestarting :: t, s)
  | Raises :: calls' =>
      let restart_attempts := S restart_attempts in
      if Nat.leb 5 restart_attempts
      then ([MainCalled; LogRestart restart_attempts; LogCritical], Exited 1)
      else
        let '(t, s) := supervise restart_attempts calls' in
        (MainCalled :: LogRestart restart_attempts :: Sleep 5 :: t, s)
  | Interrupted :: _ => ([MainCalled], Exited 0)
  | StillRunning :: _ => ([MainCalled], Running restart_attempts)
  end.

Definition is_sleep (e : event) : bool :=
  match e with Sleep _ => true | _ => false end.
Definition is_main_called (e : event) : bool :=
  match e with MainCalled => true | _ => false end.
Definition is_failure (c : ending) : bool :=
  match c with Raises => true | _ => false end.

(** The calls of [main] that end: they return or raise. *)
Definition ends (c : ending) : Prop := c = Returns \/ c = Raises.

End Main.

(** Inputs for the listeners behind the writer and for [consume_messages]. *)
Module Wired.
Local Open Scope string_scope.

(** The callback is [process_batch] on a database that is fine; the
    channel works. *)
Definition env : Rabbit.environment value :=
  {| Rabbit.callback_returns :=
       Postgres.dispatch_returns (fun _ => Samples.fine) "poller_data"
         Samples.fresh;
     Rabbit.basic_ack_returns := fun _ => true;
     Rabbit.basic_nack_returns := fun _ => true |}.

Definition delivery : Rabbit.delivery value :=
  {| Rabbit.body := "42"; Rabbit.delivery_tag := 2; Rabbit.now := 10;
     Rabbit.env := env |}.

(** A dict and a number, pending. *)
Definition mixed : Rabbit.state value :=
  {| Rabbit.message_batch := [(Samples.tick, 1); (Samples.number, 2)];
     Rabbit.last_flush_time := 0 |}.

Definition sqs_env : Sqs.environment value :=
  {| Sqs.callback_returns :=
       Postgres.dispatch_returns (fun _ => Samples.fine) "poller_data"
         Samples.fresh;
     Sqs.delete_message_returns := fun _ => true |}.

Definition sqs_poll : Sqs.poll value :=
  {| Sqs.response := Some []; Sqs.now := 10; Sqs.env := sqs_env;
     Sqs.signal := false |}.

Definition sqs_mixed : Sqs.state value :=
  {| Sqs.message_batch := [Samples.tick; Samples.number];
     Sqs.receipt_handles := ["h1"; "h2"];
     Sqs.last_flush_time := 0 |}.

(** Every incarnation connects, finds [shutdown_event] set and has three
    deliveries waiting. *)
Definition after_shutdown (n : nat) : Handler.rabbit_run string :=
  {| Handler.established := true; Handler.rabbit_t0 := 0;
     Handler.rabbit_is_set := true;
     Handler.rabbit_script := Scenario.three_deliveries;
     Handler.rabbit_broker := Scenario.broker_ok |}.

Definition sqs_after_shutdown (n : nat) : Handler.sqs_run string :=
  {| Handler.client_ok := true; Handler.sqs_t0 := 0;
     Handler.sqs_is_set := true;
     Handler.sqs_script := Scenario.three_polled |}.

(** The broker cannot be reached. *)
Definition unreachable (n : nat) : Handler.rabbit_run string :=
  {| Handler.established := false; Handler.rabbit_t0 := 0;
     Handler.rabbit_is_set := false; Handler.rabbit_script := [];
     Handler.rabbit_broker := Scenario.broker_ok |}.

(** The broker cannot be reached for two incarnations; the third one
    listens and meets the garbled delivery whose negative acknowledgement
    raises; the later ones find [shutdown_event] set. *)
Definition recovering (n : nat) : Handler.rabbit_run string :=
  if Nat.ltb n 2 then unreachable n
  else
    {| Handler.established := true; Handler.rabbit_t0 := 0;
       Handler.rabbit_is_set := Nat.ltb 2 n;
       Handler.rabbit_script := Scenario.garbled_then_three;
       Handler.rabbit_broker := Scenario.broker_ok |}.

(** The SQS listener in trouble: polls and deletions that raise. *)
Definition sqs_troubled (n : nat) : Handler.sqs_run string :=
  {| Handler.client_ok := true; Handler.sqs_t0 := 0;
     Handler.sqs_is_set := false;
     Handler.sqs_script := Scenario.troubled |}.

(** A wait that doubles, kept between 2 and 10 seconds. *)
Definition wait (n : nat) : Z := Z.max 2 (Z.min 10 (2 ^ Z.of_nat n)).

End Wired.

(** ** Facts about the combinators *)

Section EffectFacts.
Context {Message S : Type}.

Lemma for_each_calls {T} (ev : T -> event Message) (returns : T -> bool)
    (xs : list T) (s : S) :
  for_each xs (fun x => call (ev x) (returns x)) s
  = (s, map ev (attempted returns xs),
     if forallb returns xs then Returned tt else Raised).
Proof.
  induction xs as [|x xs IH]; [reflexivity|].
  cbn [for_each attempted forallb map]. unfold bind at 1. unfold call at 1.
  destruct (returns x); cbn; [|reflexivity].
  rewrite IH. reflexivity.
Qed.

Lemma attempted_all {T} (returns : T -> bool) (xs : list T) :
  forallb returns xs = true -> attempted returns xs = xs.
Proof.
  induction xs as [|x xs IH]; cbn; [reflexivity|].
  intros H. apply andb_prop in H. destruct H as [Hx Hxs].
  rewrite Hx, IH by assumption. reflexivity.
Qed.

Lemma attempted_map {A B} (f : A -> B) (returns : B -> bool) (xs : list A) :
  map f (attempted (fun x => returns (f x)) xs) = attempted returns (map f xs).
Proof.
  induction xs as [|x xs IH]; [reflexivity|].
  cbn. destruct (returns (f x)); [rewrite IH|]; reflexivity.
Qed.

Lemma forallb_through_map {A B} (f : A -> B) (returns : B -> bool)
    (xs : list A) :
  forallb returns (map f xs) = forallb (fun x => returns (f x)) xs.
Proof.
  induction xs as [|x xs IH]; [reflexivity|]. cbn. rewrite IH. reflexivity.
Qed.

Lemma dispatched_app (t1 t2 : list (event Message)) :
  dispatched (t1 ++ t2) = dispatched t1 ++ dispatched t2.
Proof.
  induction t1 as [|e t1 IH]; [reflexivity|].
  destruct e; cbn; rewrite IH; reflexivity.
Qed.

Lemma dispatched_map_silent {T} (ev : T -> event Message) (xs : list T) :
  (forall x, dispatched [ev x] = []) -> dispatched (map ev xs) = [].
Proof.
  intros H. induction xs as [|x xs IH]; [reflexivity|].
  change (map ev (x :: xs)) with ([ev x] ++ map ev xs).
  rewrite dispatched_app, H, IH. reflexivity.
Qed.

Lemma decoded_app (json_loads : string -> option Message) (xs ys : list string) :
  decoded json_loads (xs ++ ys) = decoded json_loads xs ++ decoded json_loads ys.
Proof.
  induction xs as [|x xs IH]; [reflexivity|].
  cbn. destruct (json_loads x); cbn; rewrite IH; reflexivity.
Qed.

Section Respects.
Variable I : S -> Prop.
Variable Q : list Message -> Prop.

Lemma respects_ret {A} (a : A) : respects I Q (ret a).
Proof. intros s Hs. cbn. auto. Qed.

Lemma respects_raise {A} : respects I Q (@raise Message S A).
Proof. intros s Hs. cbn. auto. Qed.

Lemma respects_blocked {A} : respects I Q (@blocked Message S A).
Proof. intros s Hs. cbn. auto. Qed.

Lemma respects_get : respects I Q get.
Proof. intros s Hs. cbn. auto. Qed.

Lemma respects_call (e : event Message) (returns : bool) :
  Forall Q (dispatched [e]) -> respects I Q (call e returns).
Proof. intros He s Hs. cbn [call state_after trace_of fst snd]. auto. Qed.

Lemma respects_bind {A B} (m : M Message S A) (k : A -> M Message S B) :
  respects I Q m -> (forall a, respects I Q (k a)) -> respects I Q (bind m k).
Proof.
  intros Hm Hk s Hs. specialize (Hm s Hs). unfold bind.
  destruct (m s) as [[s1 t1] [a| |]]; cbn in Hm; destruct Hm as [H1 Ht1];
    try (cbn; auto; fail).
  specialize (Hk a s1 H1).
  destruct (k a s1) as [[s2 t2] o2]. cbn in Hk |- *.
  destruct Hk as [H2 Ht2]. split; [assumption|].
  rewrite dispatched_app. apply Forall_app. auto.
Qed.

Lemma respects_try_except {A} (m h : M Message S A) :
  respects I Q m -> respects I Q h -> respects I Q (try_except m h).
Proof.
  intros Hm Hh s Hs. specialize (Hm s Hs). unfold try_except.
  destruct (m s) as [[s1 t1] [a| |]]; cbn in Hm; destruct Hm as [H1 Ht1];
    try (cbn; auto; fail).
  specialize (Hh s1 H1).
  destruct (h s1) as [[s2 t2] o2]. cbn in Hh |- *.
  destruct Hh as [H2 Ht2]. split; [assumption|].
  rewrite dispatched_app. apply Forall_app. auto.
Qed.

Lemma respects_try_finally {A} (m : M Message S A) (f : M Message S unit) :
  respects I Q m -> respects I Q f -> respects I Q (try_finally m f).
Proof.
  intros Hm Hf s Hs. specialize (Hm s Hs). unfold try_finally.
  destruct (m s) as [[s1 t1] o1]. cbn in Hm. destruct Hm as [H1 Ht1].
  specialize (Hf s1 H1).
  destruct (f s1) as [[s2 t2] o2]. cbn in Hf. destruct Hf as [H2 Ht2].
  assert (Forall Q (dispatched (t1 ++ t2)))
    by (rewrite dispatched_app; apply Forall_app; auto).
  destruct o1, o2; cbn; auto.
Qed.

Lemma respects_for_each {T} (xs : list T) (body : T -> M Message S unit) :
  (forall x, In x xs -> respects I Q (body x)) ->
  respects I Q (for_each xs body).
Proof.
  induction xs as [|x xs IH]; intros Hbody; cbn [for_each].
  - apply respects_ret.
  - apply respects_bind; [apply Hbody; left; reflexivity|intros _].
    apply IH. intros y Hy. apply Hbody. right. exact Hy.
Qed.

Lemma respects_while_not_set {T} (signal : T -> bool)
    (body : T -> M Message S unit) (is_set : bool) (script : list T) :
  (forall x, In x script -> respects I Q (body x)) ->
  respects I Q (while_not_set signal body is_set script).
Proof.
  revert is_set.
  induction script as [|x script IH]; intros [|] Hbody; cbn [while_not_set];
    try apply respects_ret; try apply respects_blocked.
  apply respects_bind; [apply Hbody; left; reflexivity|intros _].
  apply IH. intros y Hy. apply Hbody. right. exact Hy.
Qed.
End Respects.
Section Accounts.
Variable json_loads : string -> option Message.
Variable pending : S -> list Message.
Context {T : Type}.
Variable bodies_of : T -> list string.
Variable body : T -> M Message S unit.

(** What a step must do for a loop of such steps to keep the account: it
    takes a prefix of its bodies, and all of them when it returns. *)
Hypothesis body_accounts : forall x s,
  exists done,
    accounts json_loads pending (bodies_of x) (body x) s done
    /\ (outcome_of (body x s) = Returned tt -> done = bodies_of x).

Lemma accounts_seq (x : T) (k : M Message S unit) (more : list string) (s : S) :
  (forall s1, exists done, accounts json_loads pending more k s1 done) ->
  exists done,
    accounts json_loads pending (bodies_of x ++ more)
      (bind (body x) (fun _ => k)) s done.
Proof.
  intros Hk. destruct (body_accounts x s) as (done1 & [[rest1 Hpre] Hacc] & Hall).
  unfold accounts, bind in *.
  destruct (body x s) as [[s1 t1] o1]. cbn in Hacc, Hall.
  destruct o1 as [[]| |].
  - specialize (Hall eq_refl). subst done1.
    destruct (Hk s1) as (done2 & [rest2 Hpre2] & Hacc2).
    destruct (k s1) as [[s2 t2] o2]. cbn in Hacc2 |- *.
    exists (bodies_of x ++ done2). split.
    + exists rest2. rewrite Hpre2, app_assoc. reflexivity.
    + rewrite dispatched_app, concat_app, <- app_assoc, Hacc2, app_assoc, Hacc.
      rewrite decoded_app, app_assoc. reflexivity.
  - exists done1. cbn. split; [|assumption].
    exists (rest1 ++ more). rewrite Hpre, app_assoc. reflexivity.
  - exists done1. cbn. split; [|assumption].
    exists (rest1 ++ more). rewrite Hpre, app_assoc. reflexivity.
Qed.

Lemma accounts_nothing {A} (m : M Message S A) (bodies : list string) (s : S) :
  state_after (m s) = s -> dispatched (trace_of (m s)) = [] ->
  accounts json_loads pending bodies m s [].
Proof.
  intros Hs Ht. split; [exists bodies; reflexivity|].
  rewrite Hs, Ht. cbn. rewrite app_nil_r. reflexivity.
Qed.

Lemma accounts_while_not_set (signal : T -> bool) (script : list T)
    (is_set : bool) (s : S) :
  exists done,
    accounts json_loads pending (flat_map bodies_of script)
      (while_not_set signal body is_set script) s done.
Proof.
  revert is_set s. induction script as [|x script IH]; intros [|] s;
    cbn [while_not_set flat_map];
    try (exists []; apply accounts_nothing; reflexivity).
  apply accounts_seq. intros s1. apply IH.
Qed.

Lemma accounts_for_each (xs : list T) (s : S) :
  exists done,
    accounts json_loads pending (flat_map bodies_of xs) (for_each xs body) s done
    /\ (outcome_of (for_each xs body s) = Returned tt ->
        done = flat_map bodies_of xs).
Proof.
  revert s. induction xs as [|x xs IH]; intros s; cbn [for_each flat_map].
  - exists []. split; [apply accounts_nothing; reflexivity|reflexivity].
  - destruct (body_accounts x s) as (done1 & [[rest1 Hpre] Hacc] & Hall).
    unfold accounts, bind in *.
    destruct (body x s) as [[s1 t1] o1]. cbn in Hacc, Hall.
    destruct o1 as [[]| |].
    + specialize (Hall eq_refl). subst done1.
      destruct (IH s1) as (done2 & [[rest2 Hpre2] Hacc2] & Hall2).
      destruct (for_each xs body s1) as [[s2 t2] o2]. cbn in Hacc2, Hall2 |- *.
      exists (bodies_of x ++ done2). repeat split.
      * exists rest2. rewrite Hpre2, app_assoc. reflexivity.
      * rewrite dispatched_app, concat_app, <- app_assoc, Hacc2, app_assoc, Hacc.
        rewrite decoded_app, app_assoc. reflexivity.
      * intros Ho. rewrite (Hall2 Ho). reflexivity.
    + exists done1. cbn. repeat split; try assumption; try discriminate.
      exists (rest1 ++ flat_map bodies_of xs). rewrite Hpre, app_assoc.
      reflexivity.
    + exists done1. cbn. repeat split; try assumption; try discriminate.
      exists (rest1 ++ flat_map bodies_of xs). rewrite Hpre, app_assoc.
      reflexivity.
Qed.

(** When no step is left waiting, a loop that does not raise has taken all
    the bodies of the steps it entered. *)
Hypothesis body_not_blocked : forall x s, outcome_of (body x s) <> Blocked.

Lemma accounts_entered (signal : T -> bool) (script : list T) (is_set : bool)
    (s : S) :
  let r := while_not_set signal body is_set script s in
  outcome_of r <> Raised ->
  concat (dispatched (trace_of r)) ++ pending (state_after r)
  = pending s
      ++ decoded json_loads (flat_map bodies_of (entered signal is_set script)).
Proof.
  cbv zeta. revert is_set s.
  induction script as [|x script IH]; intros [|] s;
    cbn [while_not_set entered flat_map];
    try (intros _; cbn; rewrite app_nil_r; reflexivity).
  unfold bind.
  destruct (body_accounts x s) as (done1 & [_ Hacc] & Hall).
  pose proof (body_not_blocked x s) as Hnb.
  destruct (body x s) as [[s1 t1] o1]. cbn in Hacc, Hall, Hnb.
  destruct o1 as [[]| |]; [|intros H; exfalso; apply H; reflexivity
                          |contradiction].
  specialize (Hall eq_refl). subst done1.
  specialize (IH (false || signal x) s1).
  destruct (while_not_set signal body (false || signal x) script s1)
    as [[s2 t2] o2]. cbn in IH |- *.
  intros Ho. specialize (IH Ho).
  rewrite dispatched_app, concat_app, <- app_assoc, IH, app_assoc, Hacc.
  rewrite decoded_app, app_assoc. reflexivity.
Qed.
End Accounts.
Lemma while_not_set_when_set {T} (signal : T -> bool)
    (body : T -> M Message S unit) (script : list T) (s : S) :
  while_not_set signal body true script s = (s, [], Returned tt).
Proof. destruct script; reflexivity. Qed.

Lemma while_not_set_signalled {T} (signal : T -> bool)
    (body : T -> M Message S unit) (x : T) (script : list T) (s : S) :
  signal x = true ->
  while_not_set signal body false (x :: script) s = body x s.
Proof.
  intros Hx. cbn [while_not_set]. unfold bind. rewrite Hx. cbn [orb].
  destruct (body x s) as [[s1 t1] [[]| |]]; try reflexivity.
  rewrite while_not_set_when_set, app_nil_r. reflexivity.
Qed.

End EffectFacts.

Section OutcomeFacts.
Context {Message S : Type}.

Lemma for_each_returns {T} (xs : list T) (body : T -> M Message S unit) :
  (forall x s, In x xs -> outcome_of (body x s) = Returned tt) ->
  forall s, outcome_of (for_each xs body s) = Returned tt.
Proof.
  induction xs as [|x xs IH]; intros Hbody s; [reflexivity|].
  cbn [for_each]. unfold bind.
  pose proof (Hbody x s (or_introl eq_refl)) as Hx.
  destruct (body x s) as [[s1 t1] o1]. cbn in Hx. subst o1.
  assert (Hrest : outcome_of (for_each xs body s1) = Returned tt)
    by (apply IH; intros y s' Hy; apply Hbody; right; exact Hy).
  destruct (for_each xs body s1) as [[s2 t2] o2]. exact Hrest.
Qed.

Lemma while_not_set_never_raises {T} (signal : T -> bool)
    (body : T -> M Message S unit) (script : list T) :
  (forall x s, In x script -> outcome_of (body x s) = Returned tt) ->
  forall is_set s,
    outcome_of (while_not_set signal body is_set script s) <> Raised.
Proof.
  induction script as [|x script IH]; intros Hbody [|] s; cbn [while_not_set];
    try discriminate.
  unfold bind.
  pose proof (Hbody x s (or_introl eq_refl)) as Hx.
  destruct (body x s) as [[s1 t1] o1]. cbn in Hx. subst o1.
  assert (Hrest : outcome_of (while_not_set signal body (false || signal x)
                                script s1) <> Raised)
    by (apply IH; intros y s' Hy; apply Hbody; right; exact Hy).
  destruct (while_not_set signal body _ script s1) as [[s2 t2] o2].
  exact Hrest.
Qed.
End OutcomeFacts.

(** ** The RabbitMQ listener, step by step *)

Section RabbitFacts.
Context {Message : Type}.
Variable json_loads : string -> option Message.
Variables batch_size flush_timeout : Z.

#[local] Abbreviation on_message :=
  (Rabbit.on_message json_loads batch_size flush_timeout).

Lemma rabbit_flush_run (d : Rabbit.delivery Message) (now : Z)
    (st : Rabbit.state Message) :
  let batch := Rabbit.message_batch st in
  let payload := map fst batch in
  let acks := fun m : Message * Z => Rabbit.basic_ack_returns (Rabbit.env d) (snd m) in
  let nacks := fun m : Message * Z => Rabbit.basic_nack_returns (Rabbit.env d) (snd m) in
  let nacking :=
    Log RabbitBatchFailed
      :: map (fun m => BasicNack (snd m) false) (attempted nacks batch) in
  Rabbit.flush d now st
  = ({| Rabbit.message_batch := []; Rabbit.last_flush_time := now |},
     Callback payload ::
       (if Rabbit.callback_returns (Rabbit.env d) payload
        then map (fun m => BasicAck (snd m)) (attempted acks batch)
               ++ (if forallb acks batch
                   then [Log (RabbitAcked (List.length batch))]
                   else nacking)
        else nacking),
     if Rabbit.callback_returns (Rabbit.env d) payload && forallb acks batch
     then Returned tt
     else if forallb nacks batch then Returned tt else Raised).
Proof.
  cbv zeta.
  unfold Rabbit.flush, try_finally, try_except, bind, get, put,
    Rabbit.callback, Rabbit.logger, Rabbit.basic_ack, Rabbit.basic_nack.
  unfold call at 1.
  destruct (Rabbit.callback_returns _ _); cbv beta iota; cbn [andb].
  - rewrite (for_each_calls (fun m => BasicAck (snd m))).
    destruct (forallb (fun m => Rabbit.basic_ack_returns _ _) _);
      cbv beta iota.
    + unfold call. cbn. rewrite !app_nil_r. reflexivity.
    + unfold call at 1. cbv beta iota.
      rewrite (for_each_calls (fun m => BasicNack (snd m) false)).
      destruct (forallb (fun m => Rabbit.basic_nack_returns _ _) _);
        cbn; rewrite ?app_nil_r; reflexivity.
  - unfold call at 1. cbv beta iota.
    rewrite (for_each_calls (fun m => BasicNack (snd m) false)).
    destruct (forallb (fun m => Rabbit.basic_nack_returns _ _) _);
      cbn; rewrite ?app_nil_r; reflexivity.
Qed.

(** The calls of a flush in terms of the delivery tags of the batch. *)
Lemma rabbit_flush_tags (d : Rabbit.delivery Message) (now : Z)
    (st : Rabbit.state Message) :
  let batch := Rabbit.message_batch st in
  let tags := map snd batch in
  let acks := Rabbit.basic_ack_returns (Rabbit.env d) in
  let nacks := Rabbit.basic_nack_returns (Rabbit.env d) in
  let rejecting :=
    Log RabbitBatchFailed
      :: map (fun tag => BasicNack tag false) (attempted nacks tags) in
  trace_of (Rabbit.flush d now st)
  = Callback (map fst batch)
      :: (if Rabbit.callback_returns (Rabbit.env d) (map fst batch)
          then map BasicAck (attempted acks tags)
                 ++ (if forallb acks tags
                     then [Log (RabbitAcked (List.length batch))]
                     else rejecting)
          else rejecting).
Proof.
  cbv zeta. rewrite rabbit_flush_run. cbv zeta. cbn [trace_of fst snd].
  rewrite <- !attempted_map, !map_map, forallb_through_map. reflexivity.
Qed.

Lemma rabbit_flush_state (d : Rabbit.delivery Message) (now : Z)
    (st : Rabbit.state Message) :
  state_after (Rabbit.flush d now st)
  = {| Rabbit.message_batch := []; Rabbit.last_flush_time := now |}.
Proof. rewrite rabbit_flush_run. reflexivity. Qed.

Lemma rabbit_flush_dispatched (d : Rabbit.delivery Message) (now : Z)
    (st : Rabbit.state Message) :
  dispatched (trace_of (Rabbit.flush d now st))
  = [map fst (Rabbit.message_batch st)].
Proof.
  rewrite rabbit_flush_run. cbn [trace_of fst snd dispatched]. f_equal.
  assert (Hnack : forall l : list (Message * Z),
             @dispatched Message
               (Log RabbitBatchFailed :: map (fun m => BasicNack (snd m) false) l)
             = []).
  { intros l. cbn. apply dispatched_map_silent. reflexivity. }
  destruct (Rabbit.callback_returns _ _); [|apply Hnack].
  rewrite dispatched_app, dispatched_map_silent by reflexivity.
  destruct (forallb _ _); [reflexivity|apply Hnack].
Qed.

Lemma rabbit_flush_not_blocked (d : Rabbit.delivery Message) (now : Z)
    (st : Rabbit.state Message) :
  outcome_of (Rabbit.flush d now st) <> Blocked.
Proof.
  rewrite rabbit_flush_run. cbn [outcome_of snd].
  destruct (_ && _); [discriminate|]. destruct (forallb _ _); discriminate.
Qed.

Lemma rabbit_on_message_undecodable (d : Rabbit.delivery Message)
    (st : Rabbit.state Message) :
  json_loads (Rabbit.body d) = None ->
  on_message d st
  = (st, [Log RabbitParseFailed; BasicNack (Rabbit.delivery_tag d) false],
     if Rabbit.basic_nack_returns (Rabbit.env d) (Rabbit.delivery_tag d)
     then Returned tt else Raised).
Proof.
  intros H. unfold on_message, Rabbit.on_message. rewrite H. reflexivity.
Qed.

Lemma rabbit_on_message_decoded (d : Rabbit.delivery Message)
    (st : Rabbit.state Message) (message : Message) :
  json_loads (Rabbit.body d) = Some message ->
  let appended :=
    {| Rabbit.message_batch :=
         Rabbit.message_batch st ++ [(message, Rabbit.delivery_tag d)];
       Rabbit.last_flush_time := Rabbit.last_flush_time st |} in
  on_message d st
  = if (Z.of_nat (List.length (Rabbit.message_batch appended)) >=? batch_size)
       || (Rabbit.now d - Rabbit.last_flush_time st >=? flush_timeout)
    then Rabbit.flush d (Rabbit.now d) appended
    else (appended, [], Returned tt).
Proof.
  intros H. cbv zeta. unfold on_message, Rabbit.on_message. rewrite H.
  unfold bind, get, put. cbn [Rabbit.message_batch Rabbit.last_flush_time].
  destruct (_ || _).
  - destruct (Rabbit.flush _ _ _) as [[s t] o]. reflexivity.
  - reflexivity.
Qed.

Lemma rabbit_on_message_cases (d : Rabbit.delivery Message)
    (st : Rabbit.state Message) :
  let batch := Rabbit.message_batch st ++ rabbit_entry json_loads d in
  let r := on_message d st in
  (dispatched (trace_of r) = []
   /\ state_after r
      = {| Rabbit.message_batch := batch;
           Rabbit.last_flush_time := Rabbit.last_flush_time st |}
   /\ (rabbit_entry json_loads d = []
       \/ (Z.of_nat (List.length batch) < batch_size
           /\ Rabbit.now d - Rabbit.last_flush_time st < flush_timeout
           /\ outcome_of r = Returned tt)))
  \/ (dispatched (trace_of r) = [map fst batch]
      /\ state_after r
         = {| Rabbit.message_batch := [];
              Rabbit.last_flush_time := Rabbit.now d |}
      /\ rabbit_entry json_loads d <> []
      /\ (batch_size <= Z.of_nat (List.length batch)
          \/ flush_timeout <= Rabbit.now d - Rabbit.last_flush_time st)).
Proof.
  cbv zeta. unfold rabbit_entry.
  destruct (json_loads (Rabbit.body d)) as [message|] eqn:Hd.
  - rewrite (rabbit_on_message_decoded d st message Hd). cbv zeta.
    cbn [Rabbit.message_batch].
    destruct (Z.of_nat _ >=? batch_size) eqn:Hsize; cbn [orb].
    + right. rewrite rabbit_flush_dispatched, rabbit_flush_state.
      cbn [Rabbit.message_batch]. repeat split; try discriminate.
      left. apply Z.geb_le. assumption.
    + destruct (_ >=? flush_timeout) eqn:Htime.
      * right. rewrite rabbit_flush_dispatched, rabbit_flush_state.
        cbn [Rabbit.message_batch]. repeat split; try discriminate.
        right. apply Z.geb_le. assumption.
      * left. cbn. repeat split. right.
        rewrite Z.geb_leb in Hsize, Htime.
        apply Z.leb_gt in Hsize. apply Z.leb_gt in Htime. auto.
  - rewrite (rabbit_on_message_undecodable d st Hd). left.
    rewrite app_nil_r. cbn. destruct st. auto.
Qed.

Lemma rabbit_on_message_not_blocked (d : Rabbit.delivery Message)
    (st : Rabbit.state Message) :
  outcome_of (on_message d st) <> Blocked.
Proof.
  destruct (json_loads (Rabbit.body d)) as [message|] eqn:Hd.
  - rewrite (rabbit_on_message_decoded d st message Hd). cbv zeta.
    destruct (_ || _); [apply rabbit_flush_not_blocked|discriminate].
  - rewrite (rabbit_on_message_undecodable d st Hd). cbn.
    destruct (Rabbit.basic_nack_returns _ _); discriminate.
Qed.

Lemma decoded_entry (d : Rabbit.delivery Message) :
  decoded json_loads [Rabbit.body d] = map fst (rabbit_entry json_loads d).
Proof.
  unfold rabbit_entry. cbn. destruct (json_loads _); reflexivity.
Qed.

Lemma rabbit_on_message_accounts (d : Rabbit.delivery Message)
    (st : Rabbit.state Message) :
  exists done,
    accounts json_loads rabbit_pending [Rabbit.body d] (on_message d) st done
    /\ (outcome_of (on_message d st) = Returned tt -> done = [Rabbit.body d]).
Proof.
  exists [Rabbit.body d]. split; [|reflexivity].
  split; [exists []; reflexivity|].
  rewrite decoded_entry. unfold rabbit_pending.
  destruct (rabbit_on_message_cases d st) as [(Ht & Hs & _)|(Ht & Hs & _)];
    rewrite Ht, Hs; cbn; rewrite ?app_nil_r, ?map_app; reflexivity.
Qed.

Lemma flat_map_unit {A B} (f : A -> B) (xs : list A) :
  flat_map (fun x => [f x]) xs = map f xs.
Proof. induction xs as [|x xs IH]; cbn; [|rewrite IH]; reflexivity. Qed.

Lemma rabbit_process_data_events_accounts (c : Rabbit.cycle Message)
    (st : Rabbit.state Message) :
  let run := Rabbit.process_data_events json_loads batch_size flush_timeout c in
  exists done,
    accounts json_loads rabbit_pending (map Rabbit.body (Rabbit.deliveries c))
      run st done
    /\ (outcome_of (run st) = Returned tt ->
        done = map Rabbit.body (Rabbit.deliveries c)).
Proof.
  cbv zeta.
  destruct (accounts_for_each json_loads rabbit_pending
              (fun d => [Rabbit.body d]) on_message
              rabbit_on_message_accounts (Rabbit.deliveries c) st)
    as (done & [Hpre Hacc] & Hall).
  rewrite flat_map_unit in *.
  exists done. unfold accounts, Rabbit.process_data_events, bind in *.
  destruct (for_each _ _ st) as [[s1 t1] [[]| |]]; cbn in Hacc, Hall |- *.
  - destruct (Rabbit.connection_ok c); cbn; rewrite app_nil_r; auto.
  - repeat split; auto; discriminate.
  - repeat split; auto; discriminate.
Qed.

(** The calls of the [finally] block and how the listener ends after
    them, [o] being how the loop ended. *)
Lemma rabbit_serve_run (br : Rabbit.broker) (is_set : bool)
    (script : list (Rabbit.cycle Message)) (st : Rabbit.state Message) :
  Rabbit.serve json_loads batch_size flush_timeout br is_set script st
  = let '(s, t, o) :=
      Rabbit.consume json_loads batch_size flush_timeout is_set script st in
    match o with
    | Blocked => (s, t, Blocked)
    | _ =>
        (s,
         t ++ StopConsuming
           :: (if Rabbit.stop_consuming_returns br
               then [ConnectionClose] else []),
         if Rabbit.stop_consuming_returns br && Rabbit.close_returns br
         then o else Raised)
    end.
Proof.
  unfold Rabbit.serve, try_finally, bind, call.
  destruct (Rabbit.consume _ _ _ _ _ _) as [[s t] [[]| |]];
    destruct (Rabbit.stop_consuming_returns br), (Rabbit.close_returns br);
    reflexivity.
Qed.

(** The calls that set the channel up, up to and including the first one
    that raises. *)
Lemma rabbit_listener_run (br : Rabbit.broker) (is_set : bool)
    (script : list (Rabbit.cycle Message)) (st : Rabbit.state Message) :
  Rabbit.listener json_loads batch_size flush_timeout br is_set script st
  = if Rabbit.set_up br
    then
      let '(s, t, o) :=
        Rabbit.serve json_loads batch_size flush_timeout br is_set script st in
      (s, [QueueDeclare true; BasicQos batch_size; BasicConsume;
           Log RabbitListening] ++ t, o)
    else
      (st,
       QueueDeclare true
         :: (if Rabbit.queue_declare_returns br
             then BasicQos batch_size
                    :: (if Rabbit.basic_qos_returns br
                        then [BasicConsume] else [])
             else []),
       Raised).
Proof.
  unfold Rabbit.listener, Rabbit.set_up, Rabbit.logger, bind, call.
  destruct (Rabbit.queue_declare_returns br), (Rabbit.basic_qos_returns br),
    (Rabbit.basic_consume_returns br); try reflexivity.
  destruct (Rabbit.serve _ _ _ _ _ _ _) as [[s t] o]. reflexivity.
Qed.

(** Setting the channel up calls neither the callback nor a settlement nor
    [time.sleep]. *)
Lemma rabbit_set_up_silent (br : Rabbit.broker) :
  let t : list (event Message) :=
    QueueDeclare true
      :: (if Rabbit.queue_declare_returns br
          then BasicQos batch_size
                 :: (if Rabbit.basic_qos_returns br
                     then [BasicConsume] else [])
          else []) in
  dispatched t = [] /\ settlements t = [] /\ filter is_sleep t = []
  /\ List.length (filter Handler.is_queue_declare t) = 1%nat.
Proof.
  cbv zeta.
  destruct (Rabbit.queue_declare_returns br), (Rabbit.basic_qos_returns br);
    repeat split.
Qed.

(** The [finally] block calls neither the callback nor a settlement. *)
Lemma rabbit_closing_silent (br : Rabbit.broker) :
  dispatched
    (@StopConsuming Message
       :: (if Rabbit.stop_consuming_returns br then [ConnectionClose] else []))
  = []
  /\ settlements
       (@StopConsuming Message
          :: (if Rabbit.stop_consuming_returns br
              then [ConnectionClose] else []))
     = [].
Proof. destruct (Rabbit.stop_consuming_returns br); split; reflexivity. Qed.

Lemma rabbit_listener_accounts (br : Rabbit.broker) (is_set : bool)
    (script : list (Rabbit.cycle Message)) (st : Rabbit.state Message) :
  exists done,
    accounts json_loads rabbit_pending (delivered script)
      (Rabbit.listener json_loads batch_size flush_timeout br is_set script)
      st done.
Proof.
  destruct (accounts_while_not_set json_loads rabbit_pending
              (fun c => map Rabbit.body (Rabbit.deliveries c))
              (Rabbit.process_data_events json_loads batch_size flush_timeout)
              rabbit_process_data_events_accounts
              Rabbit.signal script is_set st) as (done & Hpre & Hacc).
  destruct (Rabbit.set_up br) eqn:Hup.
  - exists done. split; [exact Hpre|].
    rewrite rabbit_listener_run, Hup, rabbit_serve_run. unfold Rabbit.consume.
    destruct (while_not_set _ _ _ _ _) as [[s t] o]. cbn in Hacc.
    destruct (rabbit_closing_silent br) as [Hquiet _].
    destruct o; cbn [trace_of state_after fst snd app dispatched];
      rewrite ?dispatched_app, ?Hquiet, ?app_nil_r; exact Hacc.
  - exists [].
    apply accounts_nothing; rewrite rabbit_listener_run, Hup;
      [reflexivity|apply rabbit_set_up_silent].
Qed.

Lemma rabbit_consume_respects (I : Rabbit.state Message -> Prop)
    (Q : list Message -> Prop) (is_set : bool)
    (script : list (Rabbit.cycle Message)) :
  (forall c d, In c script -> In d (Rabbit.deliveries c) ->
     respects I Q (on_message d)) ->
  respects I Q (Rabbit.consume json_loads batch_size flush_timeout is_set script).
Proof.
  intros Hstep. unfold Rabbit.consume.
  apply respects_while_not_set. intros c Hc.
  unfold Rabbit.process_data_events.
  apply respects_bind; [apply respects_for_each; eauto|intros _].
  destruct (Rabbit.connection_ok c);
    [apply respects_ret|apply respects_raise].
Qed.

Lemma rabbit_listener_respects (I : Rabbit.state Message -> Prop)
    (Q : list Message -> Prop) (br : Rabbit.broker) (is_set : bool)
    (script : list (Rabbit.cycle Message)) :
  (forall d, respects I Q (on_message d)) ->
  respects I Q
    (Rabbit.listener json_loads batch_size flush_timeout br is_set script).
Proof.
  intros Hstep. unfold Rabbit.listener, Rabbit.serve, Rabbit.logger.
  repeat (apply respects_bind; [apply respects_call; constructor|intros _]).
  apply respects_try_finally.
  - apply rabbit_consume_respects. auto.
  - apply respects_bind; [apply respects_call; constructor|intros _].
    apply respects_call; constructor.
Qed.

Lemma rabbit_on_message_nonempty (d : Rabbit.delivery Message) :
  respects (fun _ => True) (fun payload => payload <> []) (on_message d).
Proof.
  intros st _. split; [exact Logic.I|].
  destruct (rabbit_on_message_cases d st) as [(Ht & _)|(Ht & _ & Hnew & _)];
    rewrite Ht; constructor; [|constructor].
  rewrite map_app. intros H. apply app_eq_nil in H. destruct H as [_ H].
  apply map_eq_nil in H. contradiction.
Qed.

Lemma rabbit_on_message_capped (d : Rabbit.delivery Message) :
  respects
    (fun st => Z.of_nat (List.length (Rabbit.message_batch st)) < batch_size)
    (fun payload => Z.of_nat (List.length payload) <= batch_size)
    (on_message d).
Proof.
  intros st Hst.
  assert (Hentry : (List.length (rabbit_entry json_loads d) <= 1)%nat)
    by (unfold rabbit_entry; destruct (json_loads _); cbn; lia).
  destruct (rabbit_on_message_cases d st)
    as [(Ht & Hs & Hlen)|(Ht & Hs & Hnew & _)]; rewrite Ht, Hs;
    cbn [Rabbit.message_batch]; split; try constructor; try constructor.
  - destruct Hlen as [Hnil|[Hlen _]]; [|exact Hlen].
    rewrite Hnil, app_nil_r. exact Hst.
  - cbn. lia.
  - rewrite length_map, length_app. lia.
Qed.

Lemma rabbit_on_message_clock (T : Z) (d : Rabbit.delivery Message) :
  Rabbit.now d <= T ->
  respects (fun st => Rabbit.last_flush_time st <= T) (fun _ => True)
    (on_message d).
Proof.
  intros Hd st Hst. split.
  - destruct (rabbit_on_message_cases d st) as [(_ & Hs & _)|(_ & Hs & _)];
      rewrite Hs; assumption.
  - apply Forall_forall. intros; exact Logic.I.
Qed.

Lemma rabbit_process_data_events_not_blocked (c : Rabbit.cycle Message)
    (st : Rabbit.state Message) :
  outcome_of (Rabbit.process_data_events json_loads batch_size flush_timeout
                c st) <> Blocked.
Proof.
  unfold Rabbit.process_data_events, bind.
  assert (H : outcome_of (for_each (Rabbit.deliveries c) on_message st)
              <> Blocked).
  { generalize (Rabbit.deliveries c). intros ds. revert st.
    induction ds as [|d ds IH]; intros st; [discriminate|].
    cbn [for_each]. unfold bind.
    pose proof (rabbit_on_message_not_blocked d st) as Hd.
    destruct (on_message d st) as [[s1 t1] [[]| |]]; cbn in Hd |- *;
      try discriminate; [|contradiction].
    specialize (IH s1). destruct (for_each ds _ s1) as [[s2 t2] o2].
    exact IH. }
  destruct (for_each _ _ st) as [[s1 t1] [[]| |]]; cbn in H |- *;
    try discriminate; [|contradiction].
  destruct (Rabbit.connection_ok c); discriminate.
Qed.
Lemma rabbit_on_message_undecodable_keeps (I : Rabbit.state Message -> Prop)
    (d : Rabbit.delivery Message) :
  json_loads (Rabbit.body d) = None ->
  respects I (fun _ => True) (on_message d).
Proof.
  intros Hd st Hst. rewrite (rabbit_on_message_undecodable d st Hd).
  split; [exact Hst|constructor].
Qed.


End RabbitFacts.

(** ** The SQS listener, step by step *)

Section SqsFacts.
Context {Message : Type}.
Variable json_loads : string -> option Message.
Variables batch_size flush_timeout polling_interval : Z.

#[local] Abbreviation iteration :=
  (Sqs.iteration json_loads batch_size flush_timeout polling_interval).

Lemma sqs_flush_run (p : Sqs.poll Message) (now : Z) (st : Sqs.state Message) :
  let batch := Sqs.message_batch st in
  let handles := Sqs.receipt_handles st in
  let deletes := Sqs.delete_message_returns (Sqs.env p) in
  Sqs.flush p now st
  = ({| Sqs.message_batch := []; Sqs.receipt_handles := [];
        Sqs.last_flush_time := now |},
     Callback batch ::
       (if Sqs.callback_returns (Sqs.env p) batch
        then map DeleteMessage (attempted deletes handles)
               ++ [Log (if forallb deletes handles
                        then SqsDeleted (List.length batch)
                        else SqsBatchFailed)]
        else [Log SqsBatchFailed]),
     Returned tt).
Proof.
  cbv zeta.
  unfold Sqs.flush, try_finally, try_except, bind, get, put,
    Sqs.callback, Sqs.logger, Sqs.delete_message.
  unfold call at 1.
  destruct (Sqs.callback_returns _ _); cbv beta iota.
  - rewrite (for_each_calls DeleteMessage).
    destruct (forallb _ _); cbv beta iota; unfold call; cbn;
      rewrite ?app_nil_r; reflexivity.
  - unfold call. cbn. reflexivity.
Qed.

Lemma sqs_flush_dispatched (p : Sqs.poll Message) (now : Z)
    (st : Sqs.state Message) :
  dispatched (trace_of (Sqs.flush p now st)) = [Sqs.message_batch st].
Proof.
  rewrite sqs_flush_run. cbn [trace_of fst snd dispatched]. f_equal.
  destruct (Sqs.callback_returns _ _); [|reflexivity].
  rewrite dispatched_app, dispatched_map_silent by reflexivity. reflexivity.
Qed.

Lemma sqs_decode_run (messages : list Sqs.sqs_message) (st : Sqs.state Message) :
  for_each messages (Sqs.decode json_loads) st
  = (sqs_appended json_loads messages st, parse_failures json_loads messages,
     Returned tt).
Proof.
  revert st. induction messages as [|msg messages IH]; intros st.
  - unfold sqs_appended. cbn. rewrite !app_nil_r. destruct st. reflexivity.
  - cbn [for_each]. unfold bind at 1. unfold Sqs.decode at 1.
    unfold sqs_appended.
    cbn [map decoded recorded_handles parse_failures].
    destruct (json_loads (Sqs.Body msg)) as [message|].
    + unfold bind, get, put. cbv beta iota. rewrite IH.
      unfold sqs_appended.
      cbn [Sqs.message_batch Sqs.receipt_handles Sqs.last_flush_time app].
      rewrite <- !app_assoc. reflexivity.
    + unfold Sqs.logger, call. cbv beta iota. rewrite IH. reflexivity.
Qed.

Lemma sqs_iteration_poll_error (p : Sqs.poll Message) (st : Sqs.state Message) :
  Sqs.response p = None ->
  iteration p st
  = (st, [ReceiveMessage batch_size 10; Log SqsPollingError;
          Sleep polling_interval],
     Returned tt).
Proof.
  intros H. unfold iteration, Sqs.iteration, Sqs.receive_message,
    try_except, bind.
  rewrite H. reflexivity.
Qed.

Lemma sqs_iteration_polled (p : Sqs.poll Message) (st : Sqs.state Message)
    (messages : list Sqs.sqs_message) :
  Sqs.response p = Some messages ->
  let appended := sqs_appended json_loads messages st in
  iteration p st
  = if truthy (Sqs.message_batch appended)
       && ((Z.of_nat (List.length (Sqs.message_batch appended)) >=? batch_size)
           || (Sqs.now p - Sqs.last_flush_time st >=? flush_timeout))
    then ({| Sqs.message_batch := []; Sqs.receipt_handles := [];
             Sqs.last_flush_time := Sqs.now p |},
          ReceiveMessage batch_size 10
            :: parse_failures json_loads messages
            ++ trace_of (Sqs.flush p (Sqs.now p) appended),
          Returned tt)
    else (appended, ReceiveMessage batch_size 10
                      :: parse_failures json_loads messages,
          Returned tt).
Proof.
  intros H. cbv zeta.
  unfold iteration, Sqs.iteration, Sqs.receive_message, try_except, bind.
  rewrite H. unfold call at 1, ret at 1. cbv beta iota.
  rewrite sqs_decode_run. unfold get. cbv beta iota.
  change (Sqs.last_flush_time (sqs_appended json_loads messages st))
    with (Sqs.last_flush_time st).
  destruct (_ && _).
  - rewrite sqs_flush_run. cbn. rewrite ?app_nil_r. reflexivity.
  - cbn. rewrite ?app_nil_r. reflexivity.
Qed.

Lemma sqs_iteration_returns (p : Sqs.poll Message) (st : Sqs.state Message) :
  outcome_of (iteration p st) = Returned tt.
Proof.
  destruct (Sqs.response p) as [messages|] eqn:H.
  - rewrite (sqs_iteration_polled p st messages H). cbv zeta.
    destruct (_ && _); reflexivity.
  - rewrite (sqs_iteration_poll_error p st H). reflexivity.
Qed.

Lemma dispatched_parse_failures (messages : list Sqs.sqs_message) :
  dispatched (parse_failures json_loads messages) = [].
Proof.
  induction messages as [|msg messages IH]; [reflexivity|].
  cbn. destruct (json_loads _); cbn; assumption.
Qed.

(** The messages an iteration meets: those of the response, none when the
    poll raises. *)
Lemma sqs_iteration_cases (p : Sqs.poll Message) (st : Sqs.state Message) :
  let messages := match Sqs.response p with Some ms => ms | None => [] end in
  let appended := sqs_appended json_loads messages st in
  let batch := Sqs.message_batch appended in
  let r := iteration p st in
  (dispatched (trace_of r) = []
   /\ state_after r
      = match Sqs.response p with Some _ => appended | None => st end
   /\ (batch = [] \/ Sqs.response p = None
       \/ (Z.of_nat (List.length batch) < batch_size
           /\ Sqs.now p - Sqs.last_flush_time st < flush_timeout)))
  \/ (dispatched (trace_of r) = [batch]
      /\ state_after r
         = {| Sqs.message_batch := []; Sqs.receipt_handles := [];
              Sqs.last_flush_time := Sqs.now p |}
      /\ batch <> []
      /\ Sqs.response p <> None
      /\ (batch_size <= Z.of_nat (List.length batch)
          \/ flush_timeout <= Sqs.now p - Sqs.last_flush_time st)).
Proof.
  cbv zeta. destruct (Sqs.response p) as [messages|] eqn:H.
  - rewrite (sqs_iteration_polled p st messages H). cbv zeta.
    destruct (truthy _) eqn:Hne; cbn [andb].
    + destruct (_ || _) eqn:Hcond.
      * right. cbn [trace_of state_after fst snd dispatched].
        rewrite dispatched_app, dispatched_parse_failures, sqs_flush_dispatched.
        repeat split; try discriminate.
        -- intros Hnil. rewrite Hnil in Hne. discriminate.
        -- apply orb_prop in Hcond. destruct Hcond as [Hc|Hc];
             apply Z.geb_le in Hc; auto.
      * left. cbn [trace_of state_after fst snd dispatched].
        rewrite dispatched_parse_failures. repeat split.
        right. right. apply orb_false_elim in Hcond.
        destruct Hcond as [Hc Hc'].
        rewrite Z.geb_leb in Hc, Hc'.
        apply Z.leb_gt in Hc. apply Z.leb_gt in Hc'. auto.
    + left. cbn [trace_of state_after fst snd dispatched].
      rewrite dispatched_parse_failures. repeat split.
      left. destruct (Sqs.message_batch _); [reflexivity|discriminate].
  - rewrite (sqs_iteration_poll_error p st H). left. cbn. auto.
Qed.

Lemma sqs_iteration_accounts (p : Sqs.poll Message) (st : Sqs.state Message) :
  let bodies := match Sqs.response p with
                | Some messages => map Sqs.Body messages
                | None => []
                end in
  exists done,
    accounts json_loads Sqs.message_batch bodies (iteration p) st done
    /\ (outcome_of (iteration p st) = Returned tt -> done = bodies).
Proof.
  cbv zeta. eexists. split; [|reflexivity].
  split; [exists []; rewrite app_nil_r; reflexivity|].
  destruct (sqs_iteration_cases p st) as [(Ht & Hs & _)|(Ht & Hs & _)];
    rewrite Ht, Hs; destruct (Sqs.response p); cbn; rewrite ?app_nil_r;
    reflexivity.
Qed.

Lemma sqs_listener_accounts (client_ok : bool) (t0 : Z) (is_set : bool)
    (script : list (Sqs.poll Message)) :
  let r := Sqs.start_sqs_listener json_loads batch_size flush_timeout
             polling_interval client_ok t0 is_set script in
  exists done rest,
    polled script = done ++ rest
    /\ concat (dispatched (trace_of r)) ++ Sqs.message_batch (state_after r)
       = decoded json_loads done.
Proof.
  cbv zeta. unfold Sqs.start_sqs_listener. destruct client_ok.
  - destruct (accounts_while_not_set json_loads Sqs.message_batch _
                iteration sqs_iteration_accounts Sqs.signal script is_set
                (Sqs.initial t0)) as (done & [rest Hpre] & Hacc).
    exists done, rest. split; [exact Hpre|].
    unfold bind, Sqs.logger, call, Sqs.polling.
    destruct (while_not_set _ _ _ _ _) as [[s t] o]. exact Hacc.
  - exists [], (polled script). split; reflexivity.
Qed.

Lemma sqs_listener_respects (I : Sqs.state Message -> Prop)
    (Q : list Message -> Prop) (client_ok : bool) (t0 : Z) (is_set : bool)
    (script : list (Sqs.poll Message)) :
  (forall p, In p script -> respects I Q (iteration p)) ->
  I (Sqs.initial t0) ->
  Forall Q (dispatched (trace_of
    (Sqs.start_sqs_listener json_loads batch_size flush_timeout
       polling_interval client_ok t0 is_set script))).
Proof.
  intros Hstep Hinit. unfold Sqs.start_sqs_listener.
  assert (H : respects I Q
                (if client_ok
                 then bind (Sqs.logger SqsPolling)
                        (fun _ => Sqs.polling json_loads batch_size
                                    flush_timeout polling_interval is_set script)
                 else Sqs.logger SqsClientFailed)).
  { destruct client_ok; unfold Sqs.logger.
    - apply respects_bind; [apply respects_call; constructor|intros _].
      apply respects_while_not_set. exact Hstep.
    - apply respects_call. constructor. }
  apply H. exact Hinit.
Qed.

Lemma sqs_iteration_nonempty (p : Sqs.poll Message) :
  respects (fun _ => True) (fun payload => payload <> []) (iteration p).
Proof.
  intros st _. split; [exact Logic.I|].
  destruct (sqs_iteration_cases p st) as [(Ht & _)|(Ht & _ & Hne & _)];
    rewrite Ht; repeat constructor. exact Hne.
Qed.

Lemma decoded_length (bodies : list string) :
  (List.length (decoded json_loads bodies) <= List.length bodies)%nat.
Proof.
  induction bodies as [|b bodies IH]; cbn; [lia|].
  destruct (json_loads b); cbn; lia.
Qed.

Lemma sqs_iteration_capped (p : Sqs.poll Message) (n : Z) :
  match Sqs.response p with
  | Some messages => Z.of_nat (List.length messages) <= n
  | None => True
  end ->
  respects
    (fun st => Z.of_nat (List.length (Sqs.message_batch st)) < batch_size)
    (fun payload => Z.of_nat (List.length payload) < batch_size + n)
    (iteration p).
Proof.
  intros Hn st Hst.
  destruct (sqs_iteration_cases p st)
    as [(Ht & Hs & Hlen)|(Ht & Hs & _ & Hsome & _)]; rewrite Ht, Hs; split;
    try constructor; try constructor.
  - destruct (Sqs.response p) as [messages|]; [|exact Hst].
    destruct Hlen as [Hnil|[Hnone|[Hlen _]]]; try discriminate; [|exact Hlen].
    rewrite Hnil. cbn. lia.
  - cbn. lia.
  - unfold sqs_appended. cbn [Sqs.message_batch].
    rewrite length_app.
    destruct (Sqs.response p) as [messages|].
    + pose proof (decoded_length (map Sqs.Body messages)) as Hd.
      rewrite length_map in Hd. lia.
    + contradiction.
Qed.

Lemma sqs_iteration_clock (T : Z) (p : Sqs.poll Message) :
  Sqs.now p <= T ->
  respects (fun st => Sqs.last_flush_time st <= T) (fun _ => True)
    (iteration p).
Proof.
  intros Hp st Hst. split.
  - destruct (sqs_iteration_cases p st) as [(_ & Hs & _)|(_ & Hs & _)];
      rewrite Hs; [destruct (Sqs.response p)|]; assumption.
  - apply Forall_forall. intros; exact Logic.I.
Qed.

Lemma filter_map_none {T} (f : event Message -> bool) (ev : T -> event Message)
    (xs : list T) :
  (forall x, f (ev x) = false) -> filter f (map ev xs) = [].
Proof.
  intros H. induction xs as [|x xs IH]; [reflexivity|].
  cbn. rewrite H. exact IH.
Qed.

Lemma filter_parse_failures (f : event Message -> bool)
    (messages : list Sqs.sqs_message) :
  f (Log SqsParseFailed) = false ->
  filter f (parse_failures json_loads messages) = [].
Proof.
  intros H. induction messages as [|msg messages IH]; [reflexivity|].
  cbn. destruct (json_loads _); cbn; rewrite ?H; exact IH.
Qed.

Lemma sqs_flush_silent (f : event Message -> bool) (p : Sqs.poll Message)
    (now : Z) (st : Sqs.state Message) :
  (forall payload, f (Callback payload) = false) ->
  (forall handle, f (DeleteMessage handle) = false) ->
  (forall r, f (Log r) = false) ->
  filter f (trace_of (Sqs.flush p now st)) = [].
Proof.
  intros Hc Hd Hl. rewrite sqs_flush_run. cbn [trace_of fst snd filter].
  rewrite Hc. destruct (Sqs.callback_returns _ _).
  - rewrite filter_app, filter_map_none by exact Hd. cbn. rewrite Hl.
    reflexivity.
  - cbn. rewrite Hl. reflexivity.
Qed.

Lemma sqs_iteration_receives (p : Sqs.poll Message) (st : Sqs.state Message) :
  filter is_receive (trace_of (iteration p st)) = [ReceiveMessage batch_size 10].
Proof.
  destruct (Sqs.response p) as [messages|] eqn:H.
  - rewrite (sqs_iteration_polled p st messages H). cbv zeta.
    destruct (_ && _); cbn [trace_of fst snd filter is_receive];
      rewrite ?filter_app, filter_parse_failures by reflexivity;
      rewrite ?sqs_flush_silent by reflexivity; reflexivity.
  - rewrite (sqs_iteration_poll_error p st H). reflexivity.
Qed.

Lemma sqs_iteration_polled_no_sleep (p : Sqs.poll Message)
    (st : Sqs.state Message) :
  Sqs.response p <> None ->
  filter is_sleep (trace_of (iteration p st)) = [].
Proof.
  destruct (Sqs.response p) as [messages|] eqn:H; [intros _|contradiction].
  rewrite (sqs_iteration_polled p st messages H). cbv zeta.
  destruct (_ && _); cbn [trace_of fst snd filter is_sleep];
    rewrite ?filter_app, filter_parse_failures by reflexivity;
    rewrite ?sqs_flush_silent by reflexivity; reflexivity.
Qed.

Lemma sqs_polling_polls_on (script : list (Sqs.poll Message))
    (st : Sqs.state Message) :
  Forall (fun p => Sqs.signal p = false) script ->
  let r := Sqs.polling json_loads batch_size flush_timeout polling_interval
             false script st in
  outcome_of r = Blocked
  /\ List.length (filter is_receive (trace_of r)) = List.length script.
Proof.
  cbv zeta. unfold Sqs.polling. revert st.
  induction script as [|p script IH]; intros st Hsig; [split; reflexivity|].
  apply Forall_cons_iff in Hsig. destruct Hsig as [Hp Hsig].
  cbn [while_not_set]. unfold bind. rewrite Hp. cbn [orb].
  pose proof (sqs_iteration_returns p st) as Hret.
  pose proof (sqs_iteration_receives p st) as Hrecv.
  destruct (iteration p st) as [[s1 t1] o1]. cbn in Hret, Hrecv. subst o1.
  specialize (IH s1 Hsig).
  destruct (while_not_set _ _ false script s1) as [[s2 t2] o2].
  cbn in IH |- *. destruct IH as [Ho Hn]. split; [exact Ho|].
  rewrite filter_app, length_app, Hrecv, Hn. reflexivity.
Qed.

Lemma sqs_appended_nil (st : Sqs.state Message) :
  sqs_appended json_loads [] st = st.
Proof.
  unfold sqs_appended. destruct st. cbn. rewrite !app_nil_r. reflexivity.
Qed.

Lemma sqs_iteration_nothing_to_do (p : Sqs.poll Message)
    (st : Sqs.state Message) :
  Sqs.message_batch st = [] ->
  Sqs.response p = Some [] \/ Sqs.response p = None ->
  let r := iteration p st in
  state_after r = st /\ outcome_of r = Returned tt
  /\ dispatched (trace_of r) = [] /\ settlements (trace_of r) = [].
Proof.
  intros Hempty [H|H]; cbv zeta.
  - rewrite (sqs_iteration_polled p st [] H). cbv zeta.
    rewrite sqs_appended_nil, Hempty. cbn. auto.
  - rewrite (sqs_iteration_poll_error p st H). cbn. auto.
Qed.
(** A poll that brings no message keeps the timer or finds the batch
    empty: it leaves the state as it is unless it flushes. *)
Lemma sqs_idle_iteration_keeps (T : Z) (q : Sqs.poll Message) :
  Sqs.response q = Some [] \/ Sqs.response q = None ->
  respects
    (fun st => Sqs.last_flush_time st <= T \/ Sqs.message_batch st = [])
    (fun _ => True) (iteration q).
Proof.
  intros Hq st Hst. split; [|apply Forall_forall; intros; exact Logic.I].
  destruct (sqs_iteration_cases q st) as [(_ & Hs & _)|(_ & Hs & _)];
    rewrite Hs.
  - destruct Hq as [Hq|Hq]; rewrite Hq; [rewrite sqs_appended_nil|];
      exact Hst.
  - right. reflexivity.
Qed.

(** After polls read no later than [T], followed by polls that bring no
    message at any time, a batch that is still pending has a timer that
    started no later than [T]. *)
Lemma sqs_timer_after_idle_polls (T : Z)
    (before idle : list (Sqs.poll Message)) :
  Forall (fun q => Sqs.now q <= T) before ->
  Forall (fun q => Sqs.response q = Some [] \/ Sqs.response q = None) idle ->
  forall is_set st,
    Sqs.last_flush_time st <= T ->
    let st' := state_after
                 (Sqs.polling json_loads batch_size flush_timeout
                    polling_interval is_set (before ++ idle) st) in
    Sqs.last_flush_time st' <= T \/ Sqs.message_batch st' = [].
Proof.
  intros Hbefore Hidle. cbv zeta. unfold Sqs.polling.
  induction Hbefore as [|q before Hq Hbefore IH]; intros is_set st Hst.
  - cbn [app].
    apply (respects_while_not_set
             (fun s => Sqs.last_flush_time s <= T \/ Sqs.message_batch s = [])
             (fun _ => True) Sqs.signal iteration is_set idle).
    + intros q Hq. apply sqs_idle_iteration_keeps.
      rewrite Forall_forall in Hidle. apply Hidle. exact Hq.
    + left. exact Hst.
  - destruct is_set; cbn [app while_not_set]; [left; exact Hst|].
    unfold bind.
    pose proof (sqs_iteration_returns q st) as Hret.
    pose proof (sqs_iteration_clock T q Hq st Hst) as [Hs1 _].
    destruct (iteration q st) as [[s1 t1] o1]. cbn in Hret, Hs1. subst o1.
    specialize (IH (false || Sqs.signal q) s1 Hs1).
    destruct (while_not_set Sqs.signal iteration (false || Sqs.signal q)
                (before ++ idle) s1) as [[s2 t2] o2].
    exact IH.
Qed.
End SqsFacts.

(** * The claims *)

(** C1. Every flush, in the RabbitMQ listener and in the SQS listener,
    leaves the pending batch empty (for SQS the receipt handles too) and
    [last_flush_time] set to the clock reading of the flush, whatever the
    dispatch callback and the transport calls did: this holds for every
    environment. A call of [on_message], or an iteration of the polling
    loop, that has called the dispatch callback is in that state when it
    ends. *)
Theorem flush_leaves_batch_empty {Message : Type}
    (json_loads : string -> option Message)
    (batch_size flush_timeout polling_interval : Z) :
  (forall (d : Rabbit.delivery Message) now st,
     let r := Rabbit.flush d now st in
     outcome_of r <> Blocked
     /\ Rabbit.message_batch (state_after r) = []
     /\ Rabbit.last_flush_time (state_after r) = now)
  /\ (forall (p : Sqs.poll Message) now st,
        let r := Sqs.flush p now st in
        outcome_of r = Returned tt
        /\ Sqs.message_batch (state_after r) = []
        /\ Sqs.receipt_handles (state_after r) = []
        /\ Sqs.last_flush_time (state_after r) = now)
  /\ (forall (d : Rabbit.delivery Message) st,
        let r := Rabbit.on_message json_loads batch_size flush_timeout d st in
        dispatched (trace_of r) <> [] ->
        Rabbit.message_batch (state_after r) = []
        /\ Rabbit.last_flush_time (state_after r) = Rabbit.now d)
  /\ (forall (p : Sqs.poll Message) st,
        let r := Sqs.iteration json_loads batch_size flush_timeout
                   polling_interval p st in
        dispatched (trace_of r) <> [] ->
        Sqs.message_batch (state_after r) = []
        /\ Sqs.receipt_handles (state_after r) = []
        /\ Sqs.last_flush_time (state_after r) = Sqs.now p).
Proof.
  split; [|split; [|split]].
  - intros d now st. cbv zeta. rewrite rabbit_flush_state.
    split; [apply rabbit_flush_not_blocked|split; reflexivity].
  - intros p now st. cbv zeta. rewrite sqs_flush_run. repeat split.
  - intros d st r Hcalled. subst r.
    destruct (rabbit_on_message_cases json_loads batch_size flush_timeout d st)
      as [(Ht & _)|(_ & Hs & _)]; [contradiction|].
    rewrite Hs. split; reflexivity.
  - intros p st r Hcalled. subst r.
    destruct (sqs_iteration_cases json_loads batch_size flush_timeout
                polling_interval p st) as [(Ht & _)|(_ & Hs & _)];
      [contradiction|].
    rewrite Hs. repeat split.
Qed.

(** The batch of two is flushed by a third message when the cap is 3, with a
    callback that raises; the SQS batch of two by an empty poll after the
    timeout, with a callback that raises. Both end empty. *)
Lemma flush_leaves_batch_empty_witness :
  (Rabbit.message_batch
     (state_after (Rabbit.on_message Scenario.loads 3 60
                     Scenario.third_raising Scenario.two_pending))
   = []
   /\ Rabbit.last_flush_time
        (state_after (Rabbit.on_message Scenario.loads 3 60
                        Scenario.third_raising Scenario.two_pending))
      = 10)
  /\ (Sqs.message_batch
        (state_after (Sqs.iteration Scenario.loads 3 60 5
                        Scenario.late_empty_poll_raising
                        Scenario.sqs_two_pending))
      = []
      /\ Sqs.receipt_handles
           (state_after (Sqs.iteration Scenario.loads 3 60 5
                           Scenario.late_empty_poll_raising
                           Scenario.sqs_two_pending))
         = []
      /\ Sqs.last_flush_time
           (state_after (Sqs.iteration Scenario.loads 3 60 5
                           Scenario.late_empty_poll_raising
                           Scenario.sqs_two_pending))
         = 70).
Proof.
  pose proof (flush_leaves_batch_empty Scenario.loads 3 60 5)
    as (_ & _ & Hpush & Hpull).
  split.
  - apply Hpush. vm_compute. discriminate.
  - apply Hpull. vm_compute. discriminate.
Defined.

(** C2, as stated, fails when a settlement call itself raises. RabbitMQ:
    three messages are pending, the callback returns and the
    acknowledgement of tag 2 raises: tag 3 is never acknowledged, and the
    handler of the flush then rejects the three tags, tag 1 included, which
    had been acknowledged. SQS: two messages are pending, the callback
    returns and the deletions raise: the first deletion is the last call
    made on the queue, the second receipt handle is never deleted. *)
Lemma settlement_error_leaves_batch_unsettled :
  trace_of (Rabbit.flush Scenario.third_ack_raises 10 Scenario.three_pending)
  = [Callback ["a"; "b"; "c"]%string; BasicAck 1; BasicAck 2;
     Log RabbitBatchFailed; BasicNack 1 false; BasicNack 2 false;
     BasicNack 3 false]
  /\ ~ In (BasicAck 3)
         (trace_of (Rabbit.flush Scenario.third_ack_raises 10
                      Scenario.three_pending))
  /\ trace_of (Sqs.flush Scenario.late_poll_delete_raises 70
                 Scenario.sqs_two_pending)
     = [Callback ["a"; "b"]%string; DeleteMessage "h1"; Log SqsBatchFailed]
  /\ ~ In (DeleteMessage "h2")
         (trace_of (Sqs.flush Scenario.late_poll_delete_raises 70
                      Scenario.sqs_two_pending)).
Proof.
  split; [reflexivity|]. split; [|split; [reflexivity|]];
    intros H; vm_compute in H; intuition discriminate.
Qed.

(** C2, amended. What a flush settles follows the outcome of the dispatch
    callback and of the settlement calls themselves; [attempted] gives the
    tokens a loop of calls reaches, up to and including the first one whose
    call raises.
    RabbitMQ: when the callback returns, the flush acknowledges the tags in
    batch order up to the first acknowledgement that raises; when none
    raises, every tag has been acknowledged and nothing is rejected. When
    the callback raises, or an acknowledgement does, the flush logs the
    failure and calls [basic_nack] with [requeue=False] on the tags from
    the first one on, those already acknowledged included, up to the first
    negative acknowledgement that raises; when none raises, every tag is
    rejected.
    SQS: when the callback returns, the flush deletes the receipt handles
    in order up to the first deletion that raises, and only logs that
    error; when none raises every handle is deleted. When the callback
    raises, it makes no settlement call at all. *)
Theorem settlement_follows_dispatch {Message : Type} :
  (forall (d : Rabbit.delivery Message) now st,
     let batch := Rabbit.message_batch st in
     let tags := map snd batch in
     let acks := Rabbit.basic_ack_returns (Rabbit.env d) in
     let nacks := Rabbit.basic_nack_returns (Rabbit.env d) in
     let rejecting :=
       Log RabbitBatchFailed
         :: map (fun tag => BasicNack tag false) (attempted nacks tags) in
     let t := trace_of (Rabbit.flush d now st) in
     t = Callback (map fst batch)
           :: (if Rabbit.callback_returns (Rabbit.env d) (map fst batch)
               then map BasicAck (attempted acks tags)
                      ++ (if forallb acks tags
                          then [Log (RabbitAcked (List.length batch))]
                          else rejecting)
               else rejecting)
     /\ (Rabbit.callback_returns (Rabbit.env d) (map fst batch) = true ->
         (forall tag, In tag tags -> acks tag = true) ->
         t = Callback (map fst batch) :: map BasicAck tags
               ++ [Log (RabbitAcked (List.length batch))])
     /\ (Rabbit.callback_returns (Rabbit.env d) (map fst batch) = false ->
         (forall tag, In tag tags -> nacks tag = true) ->
         t = Callback (map fst batch) :: Log RabbitBatchFailed
               :: map (fun tag => BasicNack tag false) tags))
  /\ (forall (p : Sqs.poll Message) now st,
        let batch := Sqs.message_batch st in
        let handles := Sqs.receipt_handles st in
        let deletes := Sqs.delete_message_returns (Sqs.env p) in
        let t := trace_of (Sqs.flush p now st) in
        t = Callback batch
              :: (if Sqs.callback_returns (Sqs.env p) batch
                  then map DeleteMessage (attempted deletes handles)
                         ++ [Log (if forallb deletes handles
                                  then SqsDeleted (List.length batch)
                                  else SqsBatchFailed)]
                  else [Log SqsBatchFailed])
        /\ (Sqs.callback_returns (Sqs.env p) batch = true ->
            (forall handle, In handle handles -> deletes handle = true) ->
            t = Callback batch :: map DeleteMessage handles
                  ++ [Log (SqsDeleted (List.length batch))])
        /\ (Sqs.callback_returns (Sqs.env p) batch = false ->
            t = [Callback batch; Log SqsBatchFailed]
            /\ settlements t = [])).
Proof.
  split.
  - intros d now st batch tags acks nacks rejecting t. subst t.
    rewrite rabbit_flush_tags. cbv zeta.
    fold batch. fold tags. fold acks. fold nacks. fold rejecting.
    split; [reflexivity|]. split; intros Hcb Hall; rewrite Hcb.
    + assert (Hf : forallb acks tags = true)
        by (apply forallb_forall; exact Hall).
      rewrite Hf, (attempted_all _ _ Hf). reflexivity.
    + assert (Hf : forallb nacks tags = true)
        by (apply forallb_forall; exact Hall).
      subst rejecting. rewrite (attempted_all _ _ Hf). reflexivity.
  - intros p now st batch handles deletes t. subst t. rewrite sqs_flush_run.
    cbv zeta. cbn [trace_of fst snd]. fold batch. fold handles. fold deletes.
    split; [reflexivity|]. split.
    + intros Hcb Hall. rewrite Hcb.
      assert (Hf : forallb deletes handles = true)
        by (apply forallb_forall; exact Hall).
      rewrite Hf, (attempted_all _ _ Hf). reflexivity.
    + intros Hcb. rewrite Hcb. split; reflexivity.
Qed.

(** The four cases on the batches of two: callback returning and raising,
    on each listener, the settlement calls returning. *)
Lemma settlement_follows_dispatch_witness :
  (trace_of (Rabbit.flush Scenario.third 10 Scenario.two_pending)
   = [Callback ["a"; "b"]%string; BasicAck 1; BasicAck 2; Log (RabbitAcked 2)]
   /\ trace_of (Rabbit.flush Scenario.third_raising 10 Scenario.two_pending)
      = [Callback ["a"; "b"]%string; Log RabbitBatchFailed;
         BasicNack 1 false; BasicNack 2 false])
  /\ (trace_of (Sqs.flush Scenario.late_empty_poll 70 Scenario.sqs_two_pending)
      = [Callback ["a"; "b"]%string; DeleteMessage "h1"; DeleteMessage "h2";
         Log (SqsDeleted 2)]
      /\ trace_of (Sqs.flush Scenario.late_empty_poll_raising 70
                     Scenario.sqs_two_pending)
         = [Callback ["a"; "b"]%string; Log SqsBatchFailed]).
Proof.
  pose proof (@settlement_follows_dispatch string) as [Hpush Hpull].
  split; split.
  - apply (proj1 (proj2 (Hpush Scenario.third 10 Scenario.two_pending)));
      [reflexivity|intros tag _; reflexivity].
  - apply (proj2 (proj2 (Hpush Scenario.third_raising 10
                           Scenario.two_pending)));
      [reflexivity|intros tag _; reflexivity].
  - apply (proj1 (proj2 (Hpull Scenario.late_empty_poll 70
                           Scenario.sqs_two_pending)));
      [reflexivity|intros handle _; reflexivity].
  - apply (proj2 (proj2 (Hpull Scenario.late_empty_poll_raising 70
                           Scenario.sqs_two_pending))). reflexivity.
Defined.

(** C3, as stated, fails for the RabbitMQ listener when the negative
    acknowledgement of the undecodable message raises: the exception leaves
    [on_message] and the listener, so the message is not settled and the
    valid messages that follow it are not appended. Here the broker hands
    over the garbled delivery and then three valid ones, with
    [batch_size = 3]: the listener raises after the failed [basic_nack],
    nothing is dispatched and nothing is pending, where the three valid
    messages alone would have been dispatched. *)
Lemma nack_error_drops_following_deliveries :
  for_each [Scenario.garbled_unsettled; Scenario.third]
    (Rabbit.on_message Scenario.loads 3 60) Scenario.two_pending
  = (Scenario.two_pending, [Log RabbitParseFailed; BasicNack 7 false], Raised)
  /\ Rabbit.start_rabbitmq_listener Scenario.loads 3 60 Scenario.broker_ok 0 false
       Scenario.garbled_then_three
     = (Rabbit.initial 0,
        [QueueDeclare true; BasicQos 3; BasicConsume; Log RabbitListening;
         Log RabbitParseFailed; BasicNack 7 false;
         StopConsuming; ConnectionClose],
        Raised)
  /\ dispatched
       (trace_of (Rabbit.start_rabbitmq_listener Scenario.loads 3 60
                    Scenario.broker_ok 0 false Scenario.three_deliveries))
     = [["a"; "b"; "c"]%string].
Proof. repeat split; vm_compute; reflexivity. Qed.

(** C3, amended. A message whose body does not decode never reaches a
    batch. RabbitMQ: [on_message] logs it and calls [basic_nack] with
    [requeue=False] on its tag, the state untouched. When that call
    returns, [on_message] returns and the deliveries that follow are
    handled exactly as if the message had not come; when it raises, the
    exception leaves [on_message] and none of the deliveries that follow
    is handled. A delivery that decodes is appended with its tag to the
    pending batch, which is then either left pending or dispatched whole.
    SQS: the decoding loop logs the message and records neither a message
    nor a receipt handle for it, and goes on with the other polled
    messages, which are appended in order.
    Over whole runs: the payloads dispatched so far followed by the pending
    batch are the decodable bodies among those taken, in arrival order;
    when the RabbitMQ loop does not raise these are all the bodies of the
    calls of [process_data_events] it entered, and for the SQS listener
    they are all the bodies of the polls it entered. *)
Theorem undecodable_message_is_settled_and_excluded {Message : Type}
    (json_loads : string -> option Message)
    (batch_size flush_timeout polling_interval : Z) :
  (forall (d : Rabbit.delivery Message) st,
     json_loads (Rabbit.body d) = None ->
     Rabbit.on_message json_loads batch_size flush_timeout d st
     = (st, [Log RabbitParseFailed; BasicNack (Rabbit.delivery_tag d) false],
        if Rabbit.basic_nack_returns (Rabbit.env d) (Rabbit.delivery_tag d)
        then Returned tt else Raised))
  /\ (forall (d : Rabbit.delivery Message) ds st,
        json_loads (Rabbit.body d) = None ->
        Rabbit.basic_nack_returns (Rabbit.env d) (Rabbit.delivery_tag d) = true ->
        let on_message :=
          Rabbit.on_message json_loads batch_size flush_timeout in
        let r := for_each (d :: ds) on_message st in
        let r' := for_each ds on_message st in
        state_after r = state_after r'
        /\ dispatched (trace_of r) = dispatched (trace_of r')
        /\ outcome_of r = outcome_of r')
  /\ (forall (d : Rabbit.delivery Message) ds st,
        json_loads (Rabbit.body d) = None ->
        Rabbit.basic_nack_returns (Rabbit.env d) (Rabbit.delivery_tag d)
        = false ->
        for_each (d :: ds)
          (Rabbit.on_message json_loads batch_size flush_timeout) st
        = (st, [Log RabbitParseFailed; BasicNack (Rabbit.delivery_tag d) false],
           Raised))
  /\ (forall (d : Rabbit.delivery Message) st message,
        json_loads (Rabbit.body d) = Some message ->
        let batch :=
          Rabbit.message_batch st ++ [(message, Rabbit.delivery_tag d)] in
        let r := Rabbit.on_message json_loads batch_size flush_timeout d st in
        (dispatched (trace_of r) = []
         /\ state_after r
            = {| Rabbit.message_batch := batch;
                 Rabbit.last_flush_time := Rabbit.last_flush_time st |}
         /\ outcome_of r = Returned tt)
        \/ (dispatched (trace_of r) = [map fst batch]
            /\ Rabbit.message_batch (state_after r) = []))
  /\ (forall (msg : Sqs.sqs_message) (st : Sqs.state Message),
        json_loads (Sqs.Body msg) = None ->
        Sqs.decode json_loads msg st = (st, [Log SqsParseFailed], Returned tt))
  /\ (forall (messages : list Sqs.sqs_message) (st : Sqs.state Message),
        for_each messages (Sqs.decode json_loads) st
        = ({| Sqs.message_batch :=
                Sqs.message_batch st
                  ++ decoded json_loads (map Sqs.Body messages);
              Sqs.receipt_handles :=
                Sqs.receipt_handles st ++ recorded_handles json_loads messages;
              Sqs.last_flush_time := Sqs.last_flush_time st |},
           parse_failures json_loads messages, Returned tt))
  /\ (forall br t0 is_set (script : list (Rabbit.cycle Message)),
        let r := Rabbit.start_rabbitmq_listener json_loads batch_size
                   flush_timeout br t0 is_set script in
        exists done rest,
          delivered script = done ++ rest
          /\ concat (dispatched (trace_of r)) ++ rabbit_pending (state_after r)
             = decoded json_loads done)
  /\ (forall is_set (script : list (Rabbit.cycle Message)) st,
        let r := Rabbit.consume json_loads batch_size flush_timeout is_set
                   script st in
        outcome_of r <> Raised ->
        concat (dispatched (trace_of r)) ++ rabbit_pending (state_after r)
        = rabbit_pending st
            ++ decoded json_loads
                 (delivered (entered Rabbit.signal is_set script)))
  /\ (forall is_set (script : list (Sqs.poll Message)) st,
        let r := Sqs.polling json_loads batch_size flush_timeout
                   polling_interval is_set script st in
        concat (dispatched (trace_of r)) ++ Sqs.message_batch (state_after r)
        = Sqs.message_batch st
            ++ decoded json_loads (polled (entered Sqs.signal is_set script))).
Proof.
  split; [|split; [|split; [|split; [|split; [|split; [|split; [|split]]]]]]].
  - intros d st H. apply rabbit_on_message_undecodable. exact H.
  - intros d ds st H Hnack on_message r r'. subst r r' on_message.
    cbn [for_each]. unfold bind.
    rewrite (rabbit_on_message_undecodable json_loads batch_size flush_timeout
               d st H), Hnack.
    destruct (for_each ds _ st) as [[s t] o]. cbn. auto.
  - intros d ds st H Hnack. cbn [for_each]. unfold bind.
    rewrite (rabbit_on_message_undecodable json_loads batch_size flush_timeout
               d st H), Hnack.
    reflexivity.
  - intros d st message Hd batch r. subst batch r.
    pose proof (rabbit_on_message_cases json_loads batch_size flush_timeout
                  d st) as Hcases.
    cbv zeta in Hcases. unfold rabbit_entry in Hcases. rewrite Hd in Hcases.
    destruct Hcases as [(Ht & Hs & [Hno|(_ & _ & Ho)])|(Ht & Hs & _)].
    + discriminate.
    + left. auto.
    + right. rewrite Hs. auto.
  - intros msg st H. unfold Sqs.decode. rewrite H. reflexivity.
  - intros messages st. apply sqs_decode_run.
  - intros br t0 is_set script r.
    destruct (rabbit_listener_accounts json_loads batch_size flush_timeout
                br is_set script (Rabbit.initial t0))
      as (done & [rest Hpre] & Hacc).
    exists done, rest. split; [exact Hpre|exact Hacc].
  - intros is_set script st r. subst r. unfold Rabbit.consume.
    apply (accounts_entered json_loads rabbit_pending
             (fun c => map Rabbit.body (Rabbit.deliveries c))
             (Rabbit.process_data_events json_loads batch_size flush_timeout)
             (rabbit_process_data_events_accounts json_loads batch_size
                flush_timeout)
             (rabbit_process_data_events_not_blocked json_loads batch_size
                flush_timeout)).
  - intros is_set script st r. subst r. unfold Sqs.polling.
    apply (accounts_entered json_loads Sqs.message_batch
             (fun p => match Sqs.response p with
                       | Some messages => map Sqs.Body messages
                       | None => []
                       end)
             (Sqs.iteration json_loads batch_size flush_timeout
                polling_interval)
             (sqs_iteration_accounts json_loads batch_size flush_timeout
                polling_interval)).
    + intros p s. rewrite sqs_iteration_returns. discriminate.
    + apply while_not_set_never_raises. intros p s _.
      apply sqs_iteration_returns.
Qed.

(** The garbled delivery before a batch of two that a third message
    completes: it is nacked, and the run ends as the run without it; when
    its nack raises, the third message is not handled. *)
Lemma undecodable_message_is_settled_and_excluded_witness :
  Rabbit.on_message Scenario.loads 3 60 Scenario.garbled Scenario.two_pending
  = (Scenario.two_pending, [Log RabbitParseFailed; BasicNack 7 false],
     Returned tt)
  /\ dispatched (trace_of
       (for_each [Scenario.garbled; Scenario.third]
          (Rabbit.on_message Scenario.loads 3 60) Scenario.two_pending))
     = dispatched (trace_of
         (for_each [Scenario.third]
            (Rabbit.on_message Scenario.loads 3 60) Scenario.two_pending))
  /\ for_each [Scenario.garbled_unsettled; Scenario.third]
       (Rabbit.on_message Scenario.loads 3 60) Scenario.two_pending
     = (Scenario.two_pending, [Log RabbitParseFailed; BasicNack 7 false],
        Raised)
  /\ Sqs.decode Scenario.loads Scenario.sqs_garbled Scenario.sqs_two_pending
     = (Scenario.sqs_two_pending, [Log SqsParseFailed], Returned tt)
  /\ concat (dispatched (trace_of
       (Rabbit.consume Scenario.loads 5 60 false Scenario.two_then_idle
          (Rabbit.initial 0))))
       ++ rabbit_pending
            (state_after (Rabbit.consume Scenario.loads 5 60 false
                            Scenario.two_then_idle (Rabbit.initial 0)))
     = rabbit_pending (Rabbit.initial 0)
         ++ decoded Scenario.loads
              (delivered (entered Rabbit.signal false Scenario.two_then_idle)).
Proof.
  pose proof (undecodable_message_is_settled_and_excluded Scenario.loads 3 60 5)
    as (Hnack & Hnext & Hlost & _ & Hdrop & _).
  pose proof (undecodable_message_is_settled_and_excluded Scenario.loads 5 60 5)
    as (_ & _ & _ & _ & _ & _ & _ & Hall & _).
  split; [|split; [|split; [|split]]].
  - apply (Hnack Scenario.garbled Scenario.two_pending). reflexivity.
  - apply (Hnext Scenario.garbled [Scenario.third] Scenario.two_pending);
      reflexivity.
  - apply (Hlost Scenario.garbled_unsettled [Scenario.third]
             Scenario.two_pending); reflexivity.
  - apply (Hdrop Scenario.sqs_garbled Scenario.sqs_two_pending). reflexivity.
  - apply (Hall false Scenario.two_then_idle (Rabbit.initial 0)).
    vm_compute. discriminate.
Defined.

(** C6. The payload of a flush is the pending batch without the delivery
    tokens: the messages of the [(message, delivery_tag)] pairs for
    RabbitMQ, the list of messages for SQS (whose receipt handles are kept
    apart), and the callback is called once in a flush. Over a whole run
    the payloads, one after the other and followed by the pending batch,
    are the decodable bodies taken so far in arrival order: a payload is a
    run of consecutive decoded messages, in the order they came. *)
Theorem dispatch_payload_is_decoded_batch {Message : Type}
    (json_loads : string -> option Message)
    (batch_size flush_timeout polling_interval : Z) :
  (forall (d : Rabbit.delivery Message) now st,
     dispatched (trace_of (Rabbit.flush d now st))
     = [map fst (Rabbit.message_batch st)])
  /\ (forall (p : Sqs.poll Message) now st,
        dispatched (trace_of (Sqs.flush p now st)) = [Sqs.message_batch st])
  /\ (forall br t0 is_set (script : list (Rabbit.cycle Message)),
        let r := Rabbit.start_rabbitmq_listener json_loads batch_size
                   flush_timeout br t0 is_set script in
        exists done rest,
          delivered script = done ++ rest
          /\ concat (dispatched (trace_of r)) ++ rabbit_pending (state_after r)
             = decoded json_loads done)
  /\ (forall client_ok t0 is_set (script : list (Sqs.poll Message)),
        let r := Sqs.start_sqs_listener json_loads batch_size flush_timeout
                   polling_interval client_ok t0 is_set script in
        exists done rest,
          polled script = done ++ rest
          /\ concat (dispatched (trace_of r))
               ++ Sqs.message_batch (state_after r)
             = decoded json_loads done).
Proof.
  split; [|split; [|split]].
  - intros d now st. apply rabbit_flush_dispatched.
  - intros p now st. apply sqs_flush_dispatched.
  - intros br t0 is_set script r.
    destruct (rabbit_listener_accounts json_loads batch_size flush_timeout
                br is_set script (Rabbit.initial t0))
      as (done & [rest Hpre] & Hacc).
    exists done, rest. split; [exact Hpre|exact Hacc].
  - intros client_ok t0 is_set script. apply sqs_listener_accounts.
Qed.

(** The scenario of the specification: with [batch_size = 3] and a timeout
    of 60, three valid messages give one call of the callback, with the
    three in arrival order, then the three positive settlements. *)
Example three_messages_one_dispatch :
  trace_of (Rabbit.start_rabbitmq_listener Scenario.loads 3 60 Scenario.broker_ok
              0 false Scenario.three_deliveries)
  = [QueueDeclare true; BasicQos 3; BasicConsume; Log RabbitListening;
     Callback ["a"; "b"; "c"]%string; BasicAck 1; BasicAck 2; BasicAck 3;
     Log (RabbitAcked 3)]
  /\ trace_of (Sqs.start_sqs_listener Scenario.loads 3 60 5 true 0 false
                 Scenario.three_polled)
     = [Log SqsPolling; ReceiveMessage 3 10; Callback ["a"; "b"; "c"]%string;
        DeleteMessage "h1"; DeleteMessage "h2"; DeleteMessage "h3";
        Log (SqsDeleted 3)].
Proof. split; reflexivity. Qed.

(** C9. The dispatch callback is never called with an empty batch: in every
    run of the RabbitMQ listener (from any state) and of the SQS listener,
    every payload handed to the callback holds at least one message. *)
Theorem dispatch_never_empty {Message : Type}
    (json_loads : string -> option Message)
    (batch_size flush_timeout polling_interval : Z) :
  (forall br is_set (script : list (Rabbit.cycle Message)) st,
     Forall (fun payload => payload <> [])
       (dispatched (trace_of
          (Rabbit.listener json_loads batch_size flush_timeout br is_set
             script st))))
  /\ (forall client_ok t0 is_set (script : list (Sqs.poll Message)),
        Forall (fun payload => payload <> [])
          (dispatched (trace_of
             (Sqs.start_sqs_listener json_loads batch_size flush_timeout
                polling_interval client_ok t0 is_set script)))).
Proof.
  split.
  - intros br is_set script st.
    apply (rabbit_listener_respects json_loads batch_size flush_timeout
             (fun _ => True) (fun payload => payload <> []) br is_set script);
      [|exact Logic.I].
    intros d. apply rabbit_on_message_nonempty.
  - intros client_ok t0 is_set script.
    apply (sqs_listener_respects json_loads batch_size flush_timeout
             polling_interval (fun _ => True)); [|exact Logic.I].
    intros p _. apply sqs_iteration_nonempty.
Qed.

(** C5, as stated, fails for the SQS listener: with [batch_size = 2], a
    poll that returns one message (no flush: one message, timeout not
    reached) followed by a poll that returns two gives a flush of three
    messages. The flush condition is evaluated once per poll, after all the
    polled messages are appended. *)
Lemma sqs_batch_exceeds_batch_size :
  dispatched (trace_of (Sqs.start_sqs_listener Scenario.loads 2 60 5 true 0
                          false Scenario.one_then_two))
  = [["a"; "b"; "c"]%string]
  /\ ~ Forall (fun payload : list string =>
                Z.of_nat (List.length payload) <= 2)
        (dispatched (trace_of (Sqs.start_sqs_listener Scenario.loads 2 60 5
                                 true 0 false Scenario.one_then_two))).
Proof.
  split; [reflexivity|].
  intros H. apply Forall_inv in H. vm_compute in H. apply H. reflexivity.
Qed.

(** C5, amended. For a positive [batch_size]: in every run of the RabbitMQ
    listener a flushed batch holds at most [batch_size] messages; in every
    run of the SQS listener whose polls return at most [batch_size]
    messages each (what [MaxNumberOfMessages=batch_size] asks for), a
    flushed batch holds at most [2 * batch_size - 1] messages: fewer than
    [batch_size] left pending by the polls before, plus one poll. *)
Theorem flushed_batch_is_bounded {Message : Type}
    (json_loads : string -> option Message)
    (batch_size flush_timeout polling_interval : Z) :
  1 <= batch_size ->
  (forall br t0 is_set (script : list (Rabbit.cycle Message)),
     Forall (fun payload => Z.of_nat (List.length payload) <= batch_size)
       (dispatched (trace_of
          (Rabbit.start_rabbitmq_listener json_loads batch_size flush_timeout
             br t0 is_set script))))
  /\ (forall client_ok t0 is_set (script : list (Sqs.poll Message)),
        Forall (fun p => match Sqs.response p with
                         | Some messages =>
                             Z.of_nat (List.length messages) <= batch_size
                         | None => True
                         end) script ->
        Forall (fun payload =>
                  Z.of_nat (List.length payload) <= 2 * batch_size - 1)
          (dispatched (trace_of
             (Sqs.start_sqs_listener json_loads batch_size flush_timeout
                polling_interval client_ok t0 is_set script)))).
Proof.
  intros Hpos. split.
  - intros br t0 is_set script.
    apply (rabbit_listener_respects json_loads batch_size flush_timeout
             (fun st => Z.of_nat (List.length (Rabbit.message_batch st))
                        < batch_size)
             (fun payload => Z.of_nat (List.length payload) <= batch_size)
             br is_set script).
    + intros d. apply rabbit_on_message_capped.
    + cbn. lia.
  - intros client_ok t0 is_set script Hpolls.
    eapply Forall_impl;
      [|apply (sqs_listener_respects json_loads batch_size flush_timeout
                 polling_interval
                 (fun st => Z.of_nat (List.length (Sqs.message_batch st))
                            < batch_size)
                 (fun payload => Z.of_nat (List.length payload)
                                 < batch_size + batch_size))].
    + intros payload H. cbv beta in H. lia.
    + intros p Hp. apply sqs_iteration_capped.
      rewrite Forall_forall in Hpolls. apply (Hpolls p Hp).
    + cbn. lia.
Qed.

(** With a cap of 2: the run of the three deliveries, and the run of the
    two polls above, whose flush of three messages meets the bound
    [2 * 2 - 1]. *)
Lemma flushed_batch_is_bounded_witness :
  Forall (fun payload : list string => Z.of_nat (List.length payload) <= 2)
    (dispatched (trace_of
       (Rabbit.start_rabbitmq_listener Scenario.loads 2 60 Scenario.broker_ok 0
          false Scenario.three_deliveries)))
  /\ Forall (fun payload : list string =>
               Z.of_nat (List.length payload) <= 2 * 2 - 1)
       (dispatched (trace_of
          (Sqs.start_sqs_listener Scenario.loads 2 60 5 true 0 false
             Scenario.one_then_two))).
Proof.
  assert (Hpos : 1 <= 2) by lia.
  pose proof (flushed_batch_is_bounded Scenario.loads 2 60 5 Hpos)
    as [Hpush Hpull].
  split.
  - apply Hpush.
  - apply Hpull. repeat constructor; vm_compute; discriminate.
Defined.

(** C4, as stated, fails for the RabbitMQ listener. With [batch_size = 5]
    and a timeout of 60, two messages are pending and 61 seconds pass
    without a delivery: the callback is not called, the two messages stay
    pending and the listener goes on waiting. The flush condition is
    evaluated in [on_message] only; when a third message arrives, the
    callback gets three messages, not the two that were pending. *)
Lemma rabbit_idle_batch_is_not_flushed :
  dispatched (trace_of (Rabbit.start_rabbitmq_listener Scenario.loads 5 60
                          Scenario.broker_ok 0 false Scenario.two_then_idle))
  = []
  /\ rabbit_pending
       (state_after (Rabbit.start_rabbitmq_listener Scenario.loads 5 60
                       Scenario.broker_ok 0 false Scenario.two_then_idle))
     = ["a"; "b"]%string
  /\ outcome_of (Rabbit.start_rabbitmq_listener Scenario.loads 5 60
                   Scenario.broker_ok 0 false Scenario.two_then_idle)
     = Blocked
  /\ dispatched
       (trace_of (Rabbit.start_rabbitmq_listener Scenario.loads 5 60
                    Scenario.broker_ok 0 false
                    (Scenario.two_then_idle
                       ++ [Scenario.cycle [Scenario.late_third]])))
     = [["a"; "b"; "c"]%string].
Proof. repeat split; vm_compute; reflexivity. Qed.

(** C4, amended. The timer of a batch runs from the last flush, or from the
    start of the listener, and only a flush resets it. [T] is a clock
    reading not earlier than the start of the listener nor than the
    reading of any step that brought a message: not earlier than the last
    arrival.
    SQS: after polls read no later than [T], and then any number of polls
    that return no message or raise, whenever they are made, if the batch
    is still pending and the next poll returns no message at a reading at
    least [flush_timeout] after [T], that iteration calls the callback
    exactly once, with exactly the pending messages. An iteration that
    does not dispatch leaves [last_flush_time] as it was.
    RabbitMQ: the flush condition is evaluated only when a decodable
    message is appended. A call of [process_data_events] that delivers
    nothing changes nothing and calls nothing; the next decodable delivery,
    at a reading at least [flush_timeout] after [T], makes one call of the
    callback with the pending messages followed by the new one. *)
Theorem timeout_flush {Message : Type}
    (json_loads : string -> option Message)
    (batch_size flush_timeout polling_interval : Z) (t0 T : Z) :
  t0 <= T ->
  (forall (before idle : list (Sqs.poll Message)) (p : Sqs.poll Message),
     let st := state_after
                 (Sqs.polling json_loads batch_size flush_timeout
                    polling_interval false (before ++ idle)
                    (Sqs.initial t0)) in
     Forall (fun q => Sqs.now q <= T) before ->
     Forall (fun q => Sqs.response q = Some [] \/ Sqs.response q = None)
       idle ->
     Sqs.message_batch st <> [] ->
     Sqs.response p = Some [] ->
     flush_timeout <= Sqs.now p - T ->
     dispatched (trace_of (Sqs.iteration json_loads batch_size flush_timeout
                             polling_interval p st))
     = [Sqs.message_batch st])
  /\ (forall (p : Sqs.poll Message) (st : Sqs.state Message),
        let r := Sqs.iteration json_loads batch_size flush_timeout
                   polling_interval p st in
        dispatched (trace_of r) = [] ->
        Sqs.last_flush_time (state_after r) = Sqs.last_flush_time st)
  /\ (forall (c : Rabbit.cycle Message) (st : Rabbit.state Message),
        Rabbit.deliveries c = [] ->
        Rabbit.connection_ok c = true ->
        Rabbit.process_data_events json_loads batch_size flush_timeout c st
        = (st, [], Returned tt))
  /\ (forall (script : list (Rabbit.cycle Message))
             (d : Rabbit.delivery Message) (message : Message),
        let st := state_after
                    (Rabbit.consume json_loads batch_size flush_timeout false
                       script (Rabbit.initial t0)) in
        Forall (fun c =>
                  Forall (fun d' => Rabbit.now d' <= T
                                    \/ json_loads (Rabbit.body d') = None)
                    (Rabbit.deliveries c)) script ->
        json_loads (Rabbit.body d) = Some message ->
        flush_timeout <= Rabbit.now d - T ->
        dispatched (trace_of (Rabbit.on_message json_loads batch_size
                                flush_timeout d st))
        = [rabbit_pending st ++ [message]]).
Proof.
  intros Hstart. split; [|split; [|split]].
  - intros before idle p st Hclock Hidle Hpending Hnone Hlate.
    assert (Hlast : Sqs.last_flush_time st <= T).
    { destruct (sqs_timer_after_idle_polls json_loads batch_size flush_timeout
                  polling_interval T before idle Hclock Hidle false
                  (Sqs.initial t0) Hstart) as [H|H];
        [exact H|contradiction]. }
    destruct (sqs_iteration_cases json_loads batch_size flush_timeout
                polling_interval p st)
      as [(_ & _ & Hno)|(Ht & _)]; rewrite Hnone in *.
    + unfold sqs_appended in Hno. cbn in Hno. rewrite app_nil_r in Hno.
      destruct Hno as [Hno|[Hno|[_ Hno]]];
        [contradiction|discriminate|lia].
    + rewrite Ht. unfold sqs_appended. cbn. rewrite app_nil_r. reflexivity.
  - intros p st r Hquiet. subst r.
    destruct (sqs_iteration_cases json_loads batch_size flush_timeout
                polling_interval p st)
      as [(_ & Hs & _)|(Ht & _)].
    + rewrite Hs. destruct (Sqs.response p); reflexivity.
    + rewrite Ht in Hquiet. discriminate.
  - intros c st Hnil Hok. unfold Rabbit.process_data_events.
    rewrite Hnil, Hok. reflexivity.
  - intros script d message st Hclock Hd Hlate.
    assert (Hlast : Rabbit.last_flush_time st <= T).
    { apply (rabbit_consume_respects json_loads batch_size flush_timeout
               (fun s => Rabbit.last_flush_time s <= T) (fun _ => True)
               false script).
      - intros c d' Hc Hd'.
        rewrite Forall_forall in Hclock. specialize (Hclock c Hc).
        rewrite Forall_forall in Hclock.
        destruct (Hclock d' Hd') as [Hnow|Hbad].
        + apply rabbit_on_message_clock. exact Hnow.
        + apply rabbit_on_message_undecodable_keeps. exact Hbad.
      - exact Hstart. }
    destruct (rabbit_on_message_cases json_loads batch_size flush_timeout d st)
      as [(_ & _ & Hno)|(Ht & _)].
    + unfold rabbit_entry in Hno. rewrite Hd in Hno.
      destruct Hno as [Hno|(_ & Hno & _)]; [discriminate|lia].
    + rewrite Ht. unfold rabbit_entry, rabbit_pending. rewrite Hd, map_app.
      reflexivity.
Qed.

(** The scenario of the specification, [batch_size = 5] and a timeout of
    60, started at time 0 with [T = 2]: after the two messages polled at
    time 2 and the empty polls at times 12 to 52, the empty poll at time 62
    dispatches exactly those two; after the two deliveries and the idle
    calls, the delivery at time 63 dispatches the two and itself. *)
Lemma timeout_flush_witness :
  dispatched (trace_of
    (Sqs.iteration Scenario.loads 5 60 5 Scenario.poll_at_62
       (state_after (Sqs.polling Scenario.loads 5 60 5 false
                       (Scenario.two_polled ++ Scenario.idle_polls)
                       (Sqs.initial 0)))))
  = [["a"; "b"]%string]
  /\ dispatched (trace_of
       (Rabbit.on_message Scenario.loads 5 60 Scenario.late_third
          (state_after (Rabbit.consume Scenario.loads 5 60 false
                          Scenario.two_then_idle (Rabbit.initial 0)))))
     = [["a"; "b"; "c"]%string]
  /\ Rabbit.process_data_events Scenario.loads 5 60 Scenario.idle
       Scenario.two_pending
     = (Scenario.two_pending, [], Returned tt).
Proof.
  assert (Hstart : 0 <= 2) by lia.
  pose proof (timeout_flush Scenario.loads 5 60 5 0 2 Hstart)
    as (Hpull & _ & Hidle & Hpush).
  split; [|split].
  - apply (Hpull Scenario.two_polled Scenario.idle_polls Scenario.poll_at_62).
    + repeat constructor; vm_compute; discriminate.
    + repeat constructor; left; reflexivity.
    + vm_compute. discriminate.
    + reflexivity.
    + vm_compute. discriminate.
  - apply (Hpush Scenario.two_then_idle Scenario.late_third "c"%string).
    + repeat (first [apply Forall_nil | apply Forall_cons]);
        left; vm_compute; discriminate.
    + reflexivity.
    + vm_compute. discriminate.
  - apply (Hidle Scenario.idle Scenario.two_pending); reflexivity.
Defined.

(** C7, as stated, fails for an error of [delete_message]. With
    [batch_size = 1], a poll returns one message, the callback returns and
    the deletion raises: the error is caught by the handler of the flush,
    which logs it, and the iteration ends without any call of [time.sleep].
    Only an error of the poll itself reaches the handler that sleeps. *)
Lemma sqs_delete_error_is_not_followed_by_sleep :
  trace_of (Sqs.iteration Scenario.loads 1 60 5 Scenario.poll_delete_raises
              (Sqs.initial 0))
  = [ReceiveMessage 1 10; Callback ["a"%string]; DeleteMessage "h1";
     Log SqsBatchFailed]
  /\ filter is_sleep
       (trace_of (Sqs.iteration Scenario.loads 1 60 5
                    Scenario.poll_delete_raises (Sqs.initial 0)))
     = [].
Proof. split; reflexivity. Qed.

(** C7, amended. In the SQS listener:
    - an error raised by the poll is logged, then the listener sleeps
      [polling_interval] and the iteration ends, the state unchanged;
    - an error raised by a deletion, after the callback returned, is logged
      by the flush itself, the handles after the failing one are not
      deleted, the batch and the handles are cleared, and there is no sleep
      in an iteration whose poll returned;
    - every iteration returns, so the loop goes on to its next test: as
      long as no termination signal arrives, every poll of the script is
      made and the loop is still running at its end. *)
Theorem transport_errors_do_not_stop_polling {Message : Type}
    (json_loads : string -> option Message)
    (batch_size flush_timeout polling_interval : Z) :
  (forall (p : Sqs.poll Message) st,
     Sqs.response p = None ->
     Sqs.iteration json_loads batch_size flush_timeout polling_interval p st
     = (st, [ReceiveMessage batch_size 10; Log SqsPollingError;
             Sleep polling_interval],
        Returned tt))
  /\ (forall (p : Sqs.poll Message) now st,
        let deletes := Sqs.delete_message_returns (Sqs.env p) in
        Sqs.callback_returns (Sqs.env p) (Sqs.message_batch st) = true ->
        forallb deletes (Sqs.receipt_handles st) = false ->
        Sqs.flush p now st
        = ({| Sqs.message_batch := []; Sqs.receipt_handles := [];
              Sqs.last_flush_time := now |},
           Callback (Sqs.message_batch st)
             :: map DeleteMessage (attempted deletes (Sqs.receipt_handles st))
             ++ [Log SqsBatchFailed],
           Returned tt))
  /\ (forall (p : Sqs.poll Message) st,
        Sqs.response p <> None ->
        filter is_sleep
          (trace_of (Sqs.iteration json_loads batch_size flush_timeout
                       polling_interval p st))
        = [])
  /\ (forall (p : Sqs.poll Message) st,
        outcome_of (Sqs.iteration json_loads batch_size flush_timeout
                      polling_interval p st)
        = Returned tt)
  /\ (forall (script : list (Sqs.poll Message)) st,
        let r := Sqs.polling json_loads batch_size flush_timeout
                   polling_interval false script st in
        Forall (fun p => Sqs.signal p = false) script ->
        outcome_of r = Blocked
        /\ List.length (filter is_receive (trace_of r)) = List.length script).
Proof.
  split; [|split; [|split; [|split]]].
  - intros p st H. apply sqs_iteration_poll_error. exact H.
  - intros p now st deletes Hcb Hdel. rewrite sqs_flush_run. cbv zeta.
    fold deletes. rewrite Hcb, Hdel. reflexivity.
  - intros p st H. apply sqs_iteration_polled_no_sleep. exact H.
  - intros p st. apply sqs_iteration_returns.
  - intros script st r Hsig. apply sqs_polling_polls_on. exact Hsig.
Qed.

(** A poll that raises; a deletion that raises; and the script with both,
    whose three polls are all made. *)
Lemma transport_errors_do_not_stop_polling_witness :
  Sqs.iteration Scenario.loads 1 60 5 Scenario.poll_raises (Sqs.initial 0)
  = (Sqs.initial 0, [ReceiveMessage 1 10; Log SqsPollingError; Sleep 5],
     Returned tt)
  /\ Sqs.flush Scenario.poll_delete_raises 1 Scenario.sqs_one_pending
     = (Sqs.initial 1,
        [Callback ["a"%string]; DeleteMessage "h1"; Log SqsBatchFailed],
        Returned tt)
  /\ filter is_sleep
       (trace_of (Sqs.iteration Scenario.loads 1 60 5
                    Scenario.poll_delete_raises (Sqs.initial 0)))
     = []
  /\ (outcome_of (Sqs.polling Scenario.loads 1 60 5 false Scenario.troubled
                    (Sqs.initial 0))
      = Blocked
      /\ List.length
           (filter is_receive
              (trace_of (Sqs.polling Scenario.loads 1 60 5 false
                           Scenario.troubled (Sqs.initial 0))))
         = 3%nat).
Proof.
  pose proof (transport_errors_do_not_stop_polling Scenario.loads 1 60 5)
    as (Hpoll & Hdelete & Hnosleep & _ & Hon).
  split; [|split; [|split]].
  - apply (Hpoll Scenario.poll_raises (Sqs.initial 0)). reflexivity.
  - apply (Hdelete Scenario.poll_delete_raises 1 Scenario.sqs_one_pending);
      reflexivity.
  - apply (Hnosleep Scenario.poll_delete_raises (Sqs.initial 0)).
    vm_compute. discriminate.
  - apply (Hon Scenario.troubled (Sqs.initial 0)).
    repeat constructor.
Defined.

(** C8, as stated, fails when the termination signal arrives while a step
    of the loop is in progress: [shutdown_event] is read only at the test
    of the loop, so the step is completed. With [batch_size = 1] and an
    empty batch, the signal arrives during a call of
    [process_data_events] that then delivers one message, or during a poll
    that then returns one: the message is dispatched and settled with the
    flag already set, and only then does the loop end. *)
Lemma signal_during_delivery_is_dispatched :
  Rabbit.message_batch (Rabbit.initial (Message := string) 0) = []
  /\ Rabbit.serve Scenario.loads 1 60 Scenario.broker_ok false
       (Scenario.signalled :: Scenario.three_deliveries) (Rabbit.initial 0)
     = (Rabbit.initial 1,
        [Callback ["a"%string]; BasicAck 1; Log (RabbitAcked 1);
         StopConsuming; ConnectionClose],
        Returned tt)
  /\ Sqs.message_batch (Sqs.initial (Message := string) 0) = []
  /\ Sqs.polling Scenario.loads 1 60 5 false
       (Scenario.sqs_signalled :: Scenario.three_polled) (Sqs.initial 0)
     = (Sqs.initial 1,
        [ReceiveMessage 1 10; Callback ["a"%string]; DeleteMessage "h1";
         Log (SqsDeleted 1)],
        Returned tt).
Proof. repeat split; vm_compute; reflexivity. Qed.

(** C8, amended. [shutdown_event] is read at the test of the loop only.
    When it is set at that test and the pending batch is empty, both
    listeners leave their loop at once, whatever the broker or the queue
    still holds: the RabbitMQ listener only stops consuming and closes its
    connection ([close] is not called when [stop_consuming] raises, and
    the listener raises when one of the two does), the SQS listener makes
    no call at all; neither calls the dispatch callback nor settles a
    message. A listener started with the flag set does the same, once its
    channel is set up.
    A signal that arrives during a step does not interrupt it: the loop
    does that step and no other. If the batch is empty and the step is a
    call of [process_data_events] that delivers nothing, or a poll that
    returns no message or raises, nothing is dispatched or settled. If the
    step brings messages, each decodable one is dispatched by that step or
    left pending when the loop ends (for RabbitMQ, when the step does not
    raise). *)
Theorem shutdown_with_empty_batch {Message : Type}
    (json_loads : string -> option Message)
    (batch_size flush_timeout polling_interval : Z) :
  (forall br (script : list (Rabbit.cycle Message)) st,
     Rabbit.message_batch st = [] ->
     let r := Rabbit.serve json_loads batch_size flush_timeout br true script
                st in
     r = (st,
          StopConsuming
            :: (if Rabbit.stop_consuming_returns br
                then [ConnectionClose] else []),
          if Rabbit.stop_consuming_returns br && Rabbit.close_returns br
          then Returned tt else Raised)
     /\ dispatched (trace_of r) = []
     /\ settlements (trace_of r) = [])
  /\ (forall (script : list (Sqs.poll Message)) st,
        Sqs.message_batch st = [] ->
        Sqs.polling json_loads batch_size flush_timeout polling_interval true
          script st
        = (st, [], Returned tt))
  /\ (forall br t0 (script : list (Rabbit.cycle Message)),
        let r := Rabbit.start_rabbitmq_listener json_loads batch_size
                   flush_timeout br t0 true script in
        outcome_of r
        = (if Rabbit.cooperative br then Returned tt else Raised)
        /\ dispatched (trace_of r) = []
        /\ settlements (trace_of r) = [])
  /\ (forall client_ok t0 (script : list (Sqs.poll Message)),
        let r := Sqs.start_sqs_listener json_loads batch_size flush_timeout
                   polling_interval client_ok t0 true script in
        outcome_of r = Returned tt
        /\ dispatched (trace_of r) = []
        /\ settlements (trace_of r) = [])
  /\ (forall br (c : Rabbit.cycle Message) script st,
        Rabbit.message_batch st = [] ->
        Rabbit.signal c = true ->
        Rabbit.deliveries c = [] ->
        let r := Rabbit.serve json_loads batch_size flush_timeout br false
                   (c :: script) st in
        state_after r = st
        /\ outcome_of r <> Blocked
        /\ trace_of r
           = StopConsuming
               :: (if Rabbit.stop_consuming_returns br
                   then [ConnectionClose] else []))
  /\ (forall (p : Sqs.poll Message) script st,
        Sqs.message_batch st = [] ->
        Sqs.signal p = true ->
        Sqs.response p = Some [] \/ Sqs.response p = None ->
        let r := Sqs.polling json_loads batch_size flush_timeout
                   polling_interval false (p :: script) st in
        state_after r = st
        /\ outcome_of r = Returned tt
        /\ dispatched (trace_of r) = []
        /\ settlements (trace_of r) = [])
  /\ (forall (c : Rabbit.cycle Message) script st,
        Rabbit.message_batch st = [] ->
        Rabbit.signal c = true ->
        let r := Rabbit.consume json_loads batch_size flush_timeout false
                   (c :: script) st in
        r = Rabbit.process_data_events json_loads batch_size flush_timeout c st
        /\ (outcome_of r <> Raised ->
            concat (dispatched (trace_of r)) ++ rabbit_pending (state_after r)
            = decoded json_loads (map Rabbit.body (Rabbit.deliveries c))))
  /\ (forall (p : Sqs.poll Message) messages script st,
        Sqs.message_batch st = [] ->
        Sqs.signal p = true ->
        Sqs.response p = Some messages ->
        let r := Sqs.polling json_loads batch_size flush_timeout
                   polling_interval false (p :: script) st in
        r = Sqs.iteration json_loads batch_size flush_timeout polling_interval
              p st
        /\ concat (dispatched (trace_of r))
             ++ Sqs.message_batch (state_after r)
           = decoded json_loads (map Sqs.Body messages)).
Proof.
  split; [|split; [|split; [|split; [|split; [|split; [|split]]]]]].
  - intros br script st _ r. subst r. rewrite rabbit_serve_run.
    unfold Rabbit.consume. rewrite while_not_set_when_set.
    cbn [app]. destruct (rabbit_closing_silent (Message := Message) br).
    repeat split; assumption.
  - intros script st _. unfold Sqs.polling. apply while_not_set_when_set.
  - intros br t0 script r. subst r.
    unfold Rabbit.start_rabbitmq_listener, Rabbit.cooperative.
    rewrite rabbit_listener_run. destruct (Rabbit.set_up br).
    + rewrite rabbit_serve_run. unfold Rabbit.consume.
      rewrite while_not_set_when_set.
      destruct (Rabbit.stop_consuming_returns br); repeat split.
    + destruct (rabbit_set_up_silent (Message := Message) batch_size br)
        as (Hd & Hs & _).
      repeat split; assumption.
  - intros client_ok t0 script r. subst r. unfold Sqs.start_sqs_listener.
    destruct client_ok; [|repeat split].
    unfold bind, Sqs.logger, call, Sqs.polling.
    rewrite while_not_set_when_set. repeat split.
  - intros br c script st _ Hc Hnone r. subst r. rewrite rabbit_serve_run.
    unfold Rabbit.consume. rewrite (while_not_set_signalled _ _ _ _ _ Hc).
    unfold Rabbit.process_data_events. rewrite Hnone. cbn.
    destruct (Rabbit.connection_ok c); cbn; repeat split;
      destruct (_ && _); discriminate.
  - intros p script st Hempty Hp Hnone r. subst r. unfold Sqs.polling.
    rewrite (while_not_set_signalled _ _ _ _ _ Hp).
    apply sqs_iteration_nothing_to_do; assumption.
  - intros c script st Hempty Hc r. subst r. unfold Rabbit.consume.
    split; [apply while_not_set_signalled; exact Hc|].
    intros Ho.
    rewrite (accounts_entered json_loads rabbit_pending
               (fun c => map Rabbit.body (Rabbit.deliveries c))
               (Rabbit.process_data_events json_loads batch_size flush_timeout)
               (rabbit_process_data_events_accounts json_loads batch_size
                  flush_timeout)
               (rabbit_process_data_events_not_blocked json_loads batch_size
                  flush_timeout)
               Rabbit.signal (c :: script) false st Ho).
    unfold rabbit_pending. rewrite Hempty. cbn [entered orb flat_map map app].
    rewrite Hc. destruct script; cbn [entered flat_map];
      rewrite app_nil_r; reflexivity.
  - intros p messages script st Hempty Hp Hsome r. subst r. unfold Sqs.polling.
    split; [apply while_not_set_signalled; exact Hp|].
    rewrite (accounts_entered json_loads Sqs.message_batch
               (fun p => match Sqs.response p with
                         | Some messages => map Sqs.Body messages
                         | None => []
                         end)
               (Sqs.iteration json_loads batch_size flush_timeout
                  polling_interval)
               (sqs_iteration_accounts json_loads batch_size flush_timeout
                  polling_interval)).
    + rewrite Hempty. cbn [entered orb flat_map app]. rewrite Hp, Hsome.
      destruct script; cbn [entered flat_map]; rewrite app_nil_r; reflexivity.
    + intros q s. rewrite sqs_iteration_returns. discriminate.
    + apply while_not_set_never_raises. intros q s _.
      apply sqs_iteration_returns.
Qed.

(** From their first state, whose batch is empty, with deliveries and polls
    waiting: nothing of them is touched when the flag is set at the test,
    or when the signal arrives during a step that brings nothing. *)
Lemma shutdown_with_empty_batch_witness :
  Rabbit.serve Scenario.loads 3 60 Scenario.broker_ok true
    Scenario.three_deliveries (Rabbit.initial 0)
  = (Rabbit.initial 0, [StopConsuming; ConnectionClose], Returned tt)
  /\ Sqs.polling Scenario.loads 3 60 5 true Scenario.three_polled
       (Sqs.initial 0)
     = (Sqs.initial 0, [], Returned tt)
  /\ trace_of (Rabbit.serve Scenario.loads 3 60 Scenario.broker_ok false
                 (Scenario.idle_signalled :: Scenario.three_deliveries)
                 (Rabbit.initial 0))
     = [StopConsuming; ConnectionClose]
  /\ dispatched
       (trace_of (Sqs.polling Scenario.loads 3 60 5 false
                    (Scenario.sqs_idle_signalled :: Scenario.three_polled)
                    (Sqs.initial 0)))
     = []
  /\ Rabbit.consume Scenario.loads 3 60 false
       (Scenario.signalled :: Scenario.three_deliveries) (Rabbit.initial 0)
     = Rabbit.process_data_events Scenario.loads 3 60 Scenario.signalled
         (Rabbit.initial 0)
  /\ Sqs.polling Scenario.loads 3 60 5 false
       (Scenario.sqs_signalled :: Scenario.three_polled) (Sqs.initial 0)
     = Sqs.iteration Scenario.loads 3 60 5 Scenario.sqs_signalled
         (Sqs.initial 0).
Proof.
  pose proof (shutdown_with_empty_batch Scenario.loads 3 60 5)
    as (Hpush & Hpull & _ & _ & Hidle & Hidle' & Hstep & Hstep').
  split; [|split; [|split; [|split; [|split]]]].
  - apply (Hpush Scenario.broker_ok Scenario.three_deliveries (Rabbit.initial 0)).
    reflexivity.
  - apply (Hpull Scenario.three_polled (Sqs.initial 0)). reflexivity.
  - apply (Hidle Scenario.broker_ok Scenario.idle_signalled
             Scenario.three_deliveries (Rabbit.initial 0)); reflexivity.
  - apply (Hidle' Scenario.sqs_idle_signalled Scenario.three_polled
             (Sqs.initial 0)); [reflexivity|reflexivity|left; reflexivity].
  - apply (Hstep Scenario.signalled Scenario.three_deliveries
             (Rabbit.initial 0)); reflexivity.
  - apply (Hstep' Scenario.sqs_signalled [Scenario.msg "a" "h1"]
             Scenario.three_polled (Sqs.initial 0)); reflexivity.
Defined.




(** * Further properties of the listeners *)

Lemma sqs_start_never_raises {Message : Type}
    (json_loads : string -> option Message)
    (batch_size flush_timeout polling_interval : Z)
    (client_ok : bool) (t0 : Z) (is_set : bool)
    (script : list (Sqs.poll Message)) :
  outcome_of (Sqs.start_sqs_listener json_loads batch_size flush_timeout
                polling_interval client_ok t0 is_set script)
  <> Raised.
Proof.
  unfold Sqs.start_sqs_listener. destruct client_ok; [|discriminate].
  unfold bind, Sqs.logger, call, Sqs.polling.
  pose proof (while_not_set_never_raises Sqs.signal
                (Sqs.iteration json_loads batch_size flush_timeout
                   polling_interval) script
                (fun p s _ => sqs_iteration_returns json_loads batch_size
                                flush_timeout polling_interval p s)
                is_set (Sqs.initial t0)) as H.
  destruct (while_not_set _ _ _ _ _) as [[s t] o]. exact H.
Qed.

(** X1. Once its client exists, no error escapes the SQS listener: whatever
    the polls return or raise, whatever the callback and the deletions do,
    the listener either returns (the flag was seen set, or the client could
    not be created) or is still polling; it never raises, so its [@retry]
    is never exercised by the loop. *)
Theorem sqs_listener_never_raises {Message : Type}
    (json_loads : string -> option Message)
    (batch_size flush_timeout polling_interval : Z)
    (client_ok : bool) (t0 : Z) (is_set : bool)
    (script : list (Sqs.poll Message)) :
  outcome_of (Sqs.start_sqs_listener json_loads batch_size flush_timeout
                polling_interval client_ok t0 is_set script)
  <> Raised.
Proof. apply sqs_start_never_raises. Qed.

Section RabbitOutcome.
Context {Message : Type}.
Variable json_loads : string -> option Message.
Variables batch_size flush_timeout : Z.

Lemma rabbit_on_message_returns (d : Rabbit.delivery Message)
    (st : Rabbit.state Message) :
  (forall tag, Rabbit.basic_nack_returns (Rabbit.env d) tag = true) ->
  outcome_of (Rabbit.on_message json_loads batch_size flush_timeout d st)
  = Returned tt.
Proof.
  intros Hnack.
  destruct (json_loads (Rabbit.body d)) as [message|] eqn:Hd.
  - rewrite (rabbit_on_message_decoded json_loads batch_size flush_timeout
               d st message Hd). cbv zeta.
    destruct (_ || _); [|reflexivity].
    rewrite rabbit_flush_run. cbn [outcome_of snd].
    destruct (_ && _); [reflexivity|].
    replace (forallb _ _) with true; [reflexivity|].
    symmetry. apply forallb_forall. intros m _. apply Hnack.
  - rewrite (rabbit_on_message_undecodable json_loads batch_size flush_timeout
               d st Hd). cbn. rewrite Hnack. reflexivity.
Qed.
End RabbitOutcome.

(** X2. A failure of the dispatch callback or of an acknowledgement never
    stops the RabbitMQ listener. As long as [process_data_events] itself
    returns and the negative acknowledgements return, the loop of the
    listener does not raise, whatever the callback and [basic_ack] do: it
    ends on shutdown or is still consuming. The listener then raises only
    when one of the calls that set the channel up, or [stop_consuming] or
    [close] in its [finally] block, raises. *)
Theorem rabbit_listener_survives_callback_errors {Message : Type}
    (json_loads : string -> option Message)
    (batch_size flush_timeout : Z) (br : Rabbit.broker) (is_set : bool)
    (script : list (Rabbit.cycle Message)) (st : Rabbit.state Message) :
  Forall (fun c =>
            Rabbit.connection_ok c = true
            /\ Forall (fun d => forall tag,
                          Rabbit.basic_nack_returns (Rabbit.env d) tag = true)
                 (Rabbit.deliveries c)) script ->
  outcome_of (Rabbit.consume json_loads batch_size flush_timeout is_set script
                st)
  <> Raised
  /\ (outcome_of (Rabbit.listener json_loads batch_size flush_timeout br
                    is_set script st)
      = Raised ->
      Rabbit.cooperative br = false).
Proof.
  intros Hscript.
  assert (H : outcome_of
                (Rabbit.consume json_loads batch_size flush_timeout is_set
                   script st) <> Raised).
  { unfold Rabbit.consume.
    apply while_not_set_never_raises. intros c s Hc.
    rewrite Forall_forall in Hscript. destruct (Hscript c Hc) as [Hok Hds].
    unfold Rabbit.process_data_events, bind.
    assert (Hall : outcome_of
                     (for_each (Rabbit.deliveries c)
                        (Rabbit.on_message json_loads batch_size flush_timeout)
                        s) = Returned tt).
    { apply for_each_returns. intros d s' Hd.
      apply rabbit_on_message_returns.
      rewrite Forall_forall in Hds. apply Hds. exact Hd. }
    destruct (for_each _ _ s) as [[s1 t1] o1]. cbn in Hall. subst o1.
    rewrite Hok. reflexivity. }
  split; [exact H|].
  unfold Rabbit.cooperative. rewrite rabbit_listener_run.
  destruct (Rabbit.set_up br); [|reflexivity].
  rewrite rabbit_serve_run.
  destruct (Rabbit.consume _ _ _ _ _ _) as [[s t] [[]| |]]; cbn in H |- *;
    try discriminate; [|contradiction].
  destruct (Rabbit.stop_consuming_returns br); [|reflexivity].
  destruct (Rabbit.close_returns br); [discriminate|reflexivity].
Qed.

(** Every callback raises and every acknowledgement would raise, while the
    negative acknowledgements return: the listener is still consuming at
    the end of the script. *)
Lemma rabbit_listener_survives_callback_errors_witness :
  outcome_of (Rabbit.consume Scenario.loads 5 60 false Cases.troubled_cycles
                (Rabbit.initial 0))
  <> Raised
  /\ outcome_of (Rabbit.listener Scenario.loads 5 60 Scenario.broker_ok false
                   Cases.troubled_cycles (Rabbit.initial 0))
     <> Raised.
Proof.
  assert (Hscript :
            Forall (fun c : Rabbit.cycle string =>
                      Rabbit.connection_ok c = true
                      /\ Forall (fun d => forall tag,
                                    Rabbit.basic_nack_returns (Rabbit.env d) tag
                                    = true)
                           (Rabbit.deliveries c)) Cases.troubled_cycles)
    by repeat constructor.
  destruct (rabbit_listener_survives_callback_errors Scenario.loads 5 60
              Scenario.broker_ok false Cases.troubled_cycles (Rabbit.initial 0)
              Hscript) as [Hloop Hlistener].
  split; [exact Hloop|].
  intros H. specialize (Hlistener H). discriminate.
Defined.

Section EmitFacts.
Context {Message S : Type}.
Variable P : event Message -> Prop.

Lemma emits_ret {A} (a : A) : emits P (@ret Message S A a).
Proof. intros s. constructor. Qed.

Lemma emits_get : emits P (@get Message S).
Proof. intros s. constructor. Qed.

Lemma emits_put (s' : S) : emits P (@put Message S s').
Proof. intros s. constructor. Qed.

Lemma emits_raise {A} : emits P (@raise Message S A).
Proof. intros s. constructor. Qed.

Lemma emits_blocked {A} : emits P (@blocked Message S A).
Proof. intros s. constructor. Qed.

Lemma emits_call (e : event Message) (returns : bool) :
  P e -> emits P (@call Message S e returns).
Proof. intros He s. cbn. constructor; [exact He|constructor]. Qed.

Lemma emits_bind {A B} (m : M Message S A) (k : A -> M Message S B) :
  emits P m -> (forall a, emits P (k a)) -> emits P (bind m k).
Proof.
  intros Hm Hk s. specialize (Hm s). unfold bind.
  destruct (m s) as [[s1 t1] [a| |]]; cbn in Hm |- *; try exact Hm.
  specialize (Hk a s1). destruct (k a s1) as [[s2 t2] o2]. cbn in Hk |- *.
  apply Forall_app. split; assumption.
Qed.

Lemma emits_try_except {A} (m h : M Message S A) :
  emits P m -> emits P h -> emits P (try_except m h).
Proof.
  intros Hm Hh s. specialize (Hm s). unfold try_except.
  destruct (m s) as [[s1 t1] [a| |]]; cbn in Hm |- *; try exact Hm.
  specialize (Hh s1). destruct (h s1) as [[s2 t2] o2]. cbn in Hh |- *.
  apply Forall_app. split; assumption.
Qed.

Lemma emits_try_finally {A} (m : M Message S A) (f : M Message S unit) :
  emits P m -> emits P f -> emits P (try_finally m f).
Proof.
  intros Hm Hf s. specialize (Hm s). unfold try_finally.
  destruct (m s) as [[s1 t1] o1]. cbn in Hm.
  specialize (Hf s1). destruct (f s1) as [[s2 t2] o2]. cbn in Hf.
  assert (Forall P (t1 ++ t2)) by (apply Forall_app; split; assumption).
  destruct o1, o2; cbn; assumption.
Qed.

Lemma emits_for_each {T} (xs : list T) (body : T -> M Message S unit) :
  (forall x, emits P (body x)) -> emits P (for_each xs body).
Proof.
  intros Hbody. induction xs as [|x xs IH]; cbn [for_each].
  - apply emits_ret.
  - apply emits_bind; auto.
Qed.

Lemma emits_while_not_set {T} (signal : T -> bool)
    (body : T -> M Message S unit) (is_set : bool) (script : list T) :
  (forall x, emits P (body x)) ->
  emits P (while_not_set signal body is_set script).
Proof.
  intros Hbody. revert is_set.
  induction script as [|x script IH]; intros [|]; cbn [while_not_set];
    try apply emits_ret; try apply emits_blocked.
  apply emits_bind; auto.
Qed.
End EmitFacts.

Lemma rabbit_consume_emits {Message : Type}
    (json_loads : string -> option Message) (batch_size flush_timeout : Z)
    (is_set : bool) (script : list (Rabbit.cycle Message)) :
  emits in_consuming
    (Rabbit.consume json_loads batch_size flush_timeout is_set script).
Proof.
  unfold Rabbit.consume. apply emits_while_not_set. intros c.
  unfold Rabbit.process_data_events.
  apply emits_bind;
    [|intros _; destruct (Rabbit.connection_ok c);
      [apply emits_ret|apply emits_raise]].
  apply emits_for_each. intros d.
  unfold Rabbit.on_message, Rabbit.flush, Rabbit.logger, Rabbit.callback,
    Rabbit.basic_ack, Rabbit.basic_nack.
  destruct (json_loads (Rabbit.body d)) as [message|].
  - apply emits_bind;
      [apply emits_bind; [apply emits_get|intros ?; apply emits_put]|].
    intros _. apply emits_bind; [apply emits_get|]. intros st.
    destruct (_ || _); [|apply emits_ret].
    apply emits_try_finally; [|apply emits_put].
    apply emits_try_except.
    + apply emits_bind; [apply emits_get|]. intros st'.
      apply emits_bind; [apply emits_call; exact Logic.I|]. intros _.
      apply emits_bind; [|intros _; apply emits_call; exact Logic.I].
      apply emits_for_each. intros pair. apply emits_call. exact Logic.I.
    + apply emits_bind; [apply emits_call; exact Logic.I|]. intros _.
      apply emits_bind; [apply emits_get|]. intros st'.
      apply emits_for_each. intros pair. apply emits_call. exact Logic.I.
  - apply emits_bind; [apply emits_call; exact Logic.I|]. intros _.
    apply emits_call. exact Logic.I.
Qed.

Lemma filter_consuming {Message : Type} (f : event Message -> bool)
    (t : list (event Message)) :
  (forall e, in_consuming e -> f e = false) ->
  Forall in_consuming t -> filter f t = [].
Proof.
  intros Hf Ht. induction Ht as [|e t He Ht IH]; [reflexivity|].
  cbn. rewrite (Hf e He). exact IH.
Qed.

(** X3. What the RabbitMQ listener does when its loop ends, by shutdown or
    by an exception. Every call of the loop is a call of the callback, a
    settlement or a log; after them [stop_consuming] is called, once, and
    then [close], once, when [stop_consuming] returned. When
    [stop_consuming] raises, [close] is not called at all: the connection
    is left open and the listener raises. The listener ends as its loop
    ended when both calls return, and raises when one of them does. While
    the listener is still consuming, neither has been called. *)
Theorem rabbit_connection_closed_on_exit {Message : Type}
    (json_loads : string -> option Message) (batch_size flush_timeout : Z)
    (br : Rabbit.broker) (is_set : bool)
    (script : list (Rabbit.cycle Message)) (st : Rabbit.state Message) :
  let r := Rabbit.serve json_loads batch_size flush_timeout br is_set script
             st in
  let loop := Rabbit.consume json_loads batch_size flush_timeout is_set script
                st in
  Forall in_consuming (trace_of loop)
  /\ trace_of r
     = trace_of loop
         ++ match outcome_of loop with
            | Blocked => []
            | _ => StopConsuming
                     :: (if Rabbit.stop_consuming_returns br
                         then [ConnectionClose] else [])
            end
  /\ outcome_of r
     = match outcome_of loop with
       | Blocked => Blocked
       | o => if Rabbit.stop_consuming_returns br && Rabbit.close_returns br
              then o else Raised
       end
  /\ List.length (filter is_stop_consuming (trace_of r))
     = match outcome_of loop with Blocked => 0%nat | _ => 1%nat end
  /\ List.length (filter is_connection_close (trace_of r))
     = match outcome_of loop with
       | Blocked => 0%nat
       | _ => if Rabbit.stop_consuming_returns br then 1%nat else 0%nat
       end.
Proof.
  cbv zeta. rewrite rabbit_serve_run.
  pose proof (rabbit_consume_emits json_loads batch_size flush_timeout is_set
                script st) as H.
  destruct (Rabbit.consume _ _ _ _ _ _) as [[s t] o]. cbn in H.
  split; [exact H|].
  assert (Hstop : filter is_stop_consuming t = [])
    by (apply filter_consuming; [|exact H];
        intros [] He; try reflexivity; destruct He).
  assert (Hclose : filter is_connection_close t = [])
    by (apply filter_consuming; [|exact H];
        intros [] He; try reflexivity; destruct He).
  destruct o; cbn [trace_of outcome_of fst snd];
    rewrite ?app_nil_r, ?filter_app, ?Hstop, ?Hclose;
    destruct (Rabbit.stop_consuming_returns br); repeat split.
Qed.

(** X4. In the RabbitMQ listener an acknowledgement that raises after the
    callback returned sends the whole batch to the rejection path: the
    tags up to the failing one have been acknowledged, then every tag of
    the batch, those already acknowledged included, is negative-
    acknowledged without requeue (when those calls return); the batch is
    cleared and [on_message] returns normally. *)
Theorem ack_failure_rejects_whole_batch {Message : Type}
    (d : Rabbit.delivery Message) (now : Z) (st : Rabbit.state Message) :
  let batch := Rabbit.message_batch st in
  let tags := map snd batch in
  let acks := Rabbit.basic_ack_returns (Rabbit.env d) in
  Rabbit.callback_returns (Rabbit.env d) (map fst batch) = true ->
  (exists tag, In tag tags /\ acks tag = false) ->
  (forall tag, In tag tags ->
     Rabbit.basic_nack_returns (Rabbit.env d) tag = true) ->
  Rabbit.flush d now st
  = ({| Rabbit.message_batch := []; Rabbit.last_flush_time := now |},
     Callback (map fst batch)
       :: map BasicAck (attempted acks tags)
       ++ Log RabbitBatchFailed
       :: map (fun tag => BasicNack tag false) tags,
     Returned tt).
Proof.
  intros batch tags acks Hcb [bad [Hin Hbad]] Hnack.
  rewrite rabbit_flush_run. cbv zeta. fold batch. rewrite Hcb. cbn [andb].
  assert (Hacks : forallb (fun m : Message * Z => acks (snd m)) batch = false).
  { apply not_true_is_false. intros Hall.
    rewrite forallb_forall in Hall. subst tags.
    apply in_map_iff in Hin. destruct Hin as [m [Hm Hin]].
    specialize (Hall m Hin). cbv beta in Hall. rewrite Hm, Hbad in Hall.
    discriminate. }
  assert (Hnacks : forallb (fun m : Message * Z =>
                      Rabbit.basic_nack_returns (Rabbit.env d) (snd m)) batch
                   = true).
  { apply forallb_forall. intros m Hm. apply Hnack. subst tags.
    apply in_map. exact Hm. }
  fold acks. rewrite Hacks, Hnacks, (attempted_all _ _ Hnacks).
  subst tags. rewrite <- (attempted_map snd acks batch), !map_map.
  reflexivity.
Qed.

(** The batch of two with tags 1 and 2, the acknowledgement of tag 2
    raising: tag 1 is acknowledged and then rejected. *)
Lemma ack_failure_rejects_whole_batch_witness :
  Rabbit.flush (Scenario.delivery Cases.ack_2_raises "c"%string 3 10) 10
    Scenario.two_pending
  = (Rabbit.initial 10,
     [Callback ["a"; "b"]%string; BasicAck 1; BasicAck 2;
      Log RabbitBatchFailed; BasicNack 1 false; BasicNack 2 false],
     Returned tt).
Proof.
  apply (ack_failure_rejects_whole_batch
           (Scenario.delivery Cases.ack_2_raises "c"%string 3 10) 10
           Scenario.two_pending).
  - reflexivity.
  - exists 2. split; [right; left; reflexivity|reflexivity].
  - intros tag _. reflexivity.
Defined.

Section SqsPairing.
Context {Message : Type}.
Variable json_loads : string -> option Message.
Variables batch_size flush_timeout polling_interval : Z.

Lemma recorded_handles_app (xs ys : list Sqs.sqs_message) :
  recorded_handles json_loads (xs ++ ys)
  = recorded_handles json_loads xs ++ recorded_handles json_loads ys.
Proof.
  induction xs as [|x xs IH]; [reflexivity|].
  cbn. destruct (json_loads _); cbn; rewrite IH; reflexivity.
Qed.

Lemma recorded_handles_length (xs : list Sqs.sqs_message) :
  List.length (recorded_handles json_loads xs)
  = List.length (decoded json_loads (map Sqs.Body xs)).
Proof.
  induction xs as [|x xs IH]; [reflexivity|].
  cbn. destruct (json_loads _); cbn; rewrite IH; reflexivity.
Qed.

Lemma sqs_iteration_paired (p : Sqs.poll Message) :
  respects (sqs_paired json_loads) (fun _ => True)
    (Sqs.iteration json_loads batch_size flush_timeout polling_interval p).
Proof.
  intros st [messages [Hb Hh]]. split;
    [|apply Forall_forall; intros; exact Logic.I].
  destruct (sqs_iteration_cases json_loads batch_size flush_timeout
              polling_interval p st) as [(_ & Hs & _)|(_ & Hs & _)];
    rewrite Hs.
  - destruct (Sqs.response p) as [more|]; [|exists messages; auto].
    exists (messages ++ more). unfold sqs_appended. cbn.
    rewrite map_app, decoded_app, recorded_handles_app, Hb, Hh. auto.
  - exists []. split; reflexivity.
Qed.
End SqsPairing.

(** X5. The two lists of the SQS listener stay in step. In every state the
    listener reaches, [message_batch] and [receipt_handles] describe the
    same polled messages in the same order (the decoded bodies and the
    handles of the decodable ones), so they have the same length: a flush
    deletes one handle per dispatched message and no other. *)
Theorem sqs_handles_match_batch {Message : Type}
    (json_loads : string -> option Message)
    (batch_size flush_timeout polling_interval : Z)
    (client_ok : bool) (t0 : Z) (is_set : bool)
    (script : list (Sqs.poll Message)) :
  let st := state_after
              (Sqs.start_sqs_listener json_loads batch_size flush_timeout
                 polling_interval client_ok t0 is_set script) in
  sqs_paired json_loads st
  /\ List.length (Sqs.receipt_handles st) = List.length (Sqs.message_batch st).
Proof.
  cbv zeta.
  assert (Hinit : sqs_paired json_loads (Sqs.initial (Message := Message) t0))
    by (exists []; split; reflexivity).
  assert (H : sqs_paired json_loads
                (state_after
                   (Sqs.start_sqs_listener json_loads batch_size flush_timeout
                      polling_interval client_ok t0 is_set script))).
  { unfold Sqs.start_sqs_listener. destruct client_ok; [|exact Hinit].
    pose proof (respects_while_not_set (sqs_paired json_loads) (fun _ => True)
                  Sqs.signal
                  (Sqs.iteration json_loads batch_size flush_timeout
                     polling_interval) is_set script
                  (fun p _ => sqs_iteration_paired json_loads batch_size
                                flush_timeout polling_interval p)
                  (Sqs.initial t0) Hinit) as [Hst _].
    unfold bind, Sqs.logger, call, Sqs.polling.
    destruct (while_not_set _ _ _ _ _) as [[s t] o]. exact Hst. }
  split; [exact H|].
  destruct H as [messages [Hb Hh]]. rewrite Hb, Hh.
  apply recorded_handles_length.
Qed.

Section RabbitTiming.
Context {Message : Type}.
Variable json_loads : string -> option Message.
Variables batch_size flush_timeout : Z.

Lemma rabbit_spaced_run (ds : list (Rabbit.delivery Message)) :
  0 <= flush_timeout ->
  Forall (fun d => forall tag,
            Rabbit.basic_nack_returns (Rabbit.env d) tag = true) ds ->
  forall (last : Z) (st : Rabbit.state Message),
    Rabbit.message_batch st = [] ->
    Rabbit.last_flush_time st <= last ->
    spaced flush_timeout last ds ->
    let r := for_each ds
               (Rabbit.on_message json_loads batch_size flush_timeout) st in
    outcome_of r = Returned tt
    /\ Rabbit.message_batch (state_after r) = []
    /\ dispatched (trace_of r)
       = map (fun message => [message])
           (decoded json_loads (map Rabbit.body ds)).
Proof.
  intros Hgap Hnacks. cbv zeta.
  induction ds as [|d ds IH]; intros last st Hempty Hlast Hspaced.
  - cbn. auto.
  - apply Forall_cons_iff in Hnacks. destruct Hnacks as [Hnack Hnacks].
    destruct Hspaced as [Hd Hspaced]. specialize (IH Hnacks).
    cbn [for_each map decoded]. unfold bind.
    pose proof (rabbit_on_message_returns json_loads batch_size flush_timeout
                  d st Hnack) as Hret.
    pose proof (rabbit_on_message_cases json_loads batch_size flush_timeout
                  d st) as Hcases. cbv zeta in Hcases.
    unfold rabbit_entry in Hcases. rewrite Hempty in Hcases.
    destruct (Rabbit.on_message json_loads batch_size flush_timeout d st)
      as [[s1 t1] o1]. cbn in Hret, Hcases. subst o1.
    destruct (json_loads (Rabbit.body d)) as [message|].
    + destruct Hcases as [(_ & _ & [Hno|(_ & Hno & _)])|(Ht & Hs & _)];
        [discriminate|lia|].
      assert (Hb1 : Rabbit.message_batch s1 = []) by (rewrite Hs; reflexivity).
      assert (Hl1 : Rabbit.last_flush_time s1 <= Rabbit.now d)
        by (rewrite Hs; cbn; lia).
      specialize (IH (Rabbit.now d) s1 Hb1 Hl1 Hspaced).
      destruct (for_each ds _ s1) as [[s2 t2] o2]. cbn in IH |- *.
      destruct IH as (Ho & Hb & Hdisp).
      rewrite dispatched_app, Ht, Hdisp. auto.
    + destruct Hcases as [(Ht & Hs & _)|(_ & _ & Hne & _)];
        [|contradiction].
      assert (Hb1 : Rabbit.message_batch s1 = []) by (rewrite Hs; reflexivity).
      assert (Hl1 : Rabbit.last_flush_time s1 <= Rabbit.now d)
        by (rewrite Hs; cbn; lia).
      specialize (IH (Rabbit.now d) s1 Hb1 Hl1 Hspaced).
      destruct (for_each ds _ s1) as [[s2 t2] o2]. cbn in IH |- *.
      destruct IH as (Ho & Hb & Hdisp).
      rewrite dispatched_app, Ht, Hdisp. auto.
Qed.

Lemma rabbit_on_message_singleton (d : Rabbit.delivery Message) :
  batch_size <= 1 ->
  respects (fun st => Rabbit.message_batch st = [])
    (fun payload => List.length payload = 1%nat)
    (Rabbit.on_message json_loads batch_size flush_timeout d).
Proof.
  intros Hsize st Hempty.
  pose proof (rabbit_on_message_cases json_loads batch_size flush_timeout
                d st) as Hcases. cbv zeta in Hcases.
  unfold rabbit_entry in Hcases. rewrite Hempty in Hcases.
  destruct (json_loads (Rabbit.body d)) as [message|];
    destruct Hcases as [(Ht & Hs & Hno)|(Ht & Hs & Hne & _)];
    rewrite Ht, Hs; cbn; try (split; [reflexivity|repeat constructor]).
  - destruct Hno as [Hno|(Hno & _)]; [discriminate|cbn in Hno; lia].
  - contradiction.
Qed.
End RabbitTiming.

(** X6. The timeout of the RabbitMQ listener runs from the last flush (or
    from the start), not from the arrival of the first pending message. So
    when deliveries come at least [flush_timeout] apart, the first at least
    [flush_timeout] after the last flush, every decodable message is
    dispatched alone, at once, whatever [batch_size] is: the payloads are
    the decodable messages one by one, in order, and the batch is empty
    again after each. (The negative acknowledgements of the undecodable
    ones are taken to return.) *)
Theorem slow_traffic_is_dispatched_one_by_one {Message : Type}
    (json_loads : string -> option Message) (batch_size flush_timeout : Z)
    (ds : list (Rabbit.delivery Message)) (st : Rabbit.state Message) :
  0 <= flush_timeout ->
  Forall (fun d => forall tag,
            Rabbit.basic_nack_returns (Rabbit.env d) tag = true) ds ->
  Rabbit.message_batch st = [] ->
  spaced flush_timeout (Rabbit.last_flush_time st) ds ->
  let r := for_each ds
             (Rabbit.on_message json_loads batch_size flush_timeout) st in
  outcome_of r = Returned tt
  /\ Rabbit.message_batch (state_after r) = []
  /\ dispatched (trace_of r)
     = map (fun message => [message])
         (decoded json_loads (map Rabbit.body ds)).
Proof.
  intros Hgap Hnacks Hempty Hspaced.
  apply (rabbit_spaced_run json_loads batch_size flush_timeout ds Hgap Hnacks
           (Rabbit.last_flush_time st) st Hempty (Z.le_refl _) Hspaced).
Qed.

(** With [batch_size = 5] and a timeout of 60: three deliveries 60 apart,
    the second one not JSON. *)
Lemma slow_traffic_is_dispatched_one_by_one_witness :
  dispatched (trace_of
    (for_each Cases.slow_traffic (Rabbit.on_message Scenario.loads 5 60)
       (Rabbit.initial 0)))
  = [["a"%string]; ["c"%string]].
Proof.
  apply (slow_traffic_is_dispatched_one_by_one Scenario.loads 5 60
           Cases.slow_traffic (Rabbit.initial 0)).
  - lia.
  - repeat constructor.
  - reflexivity.
  - cbn. lia.
Defined.

(** X7. With [batch_size] at most 1 (0 and negative values included) the
    RabbitMQ listener does no batching: in every run every payload handed
    to the callback holds exactly one message. *)
Theorem batch_size_one_dispatches_singly {Message : Type}
    (json_loads : string -> option Message) (batch_size flush_timeout : Z)
    (br : Rabbit.broker) (t0 : Z) (is_set : bool)
    (script : list (Rabbit.cycle Message)) :
  batch_size <= 1 ->
  Forall (fun payload => List.length payload = 1%nat)
    (dispatched (trace_of
       (Rabbit.start_rabbitmq_listener json_loads batch_size flush_timeout
          br t0 is_set script))).
Proof.
  intros Hsize.
  apply (rabbit_listener_respects json_loads batch_size flush_timeout
           (fun st => Rabbit.message_batch st = [])
           (fun payload => List.length payload = 1%nat) br is_set script).
  - intros d. apply rabbit_on_message_singleton. exact Hsize.
  - reflexivity.
Qed.

(** With [batch_size = 0] the three deliveries are dispatched one by
    one. *)
Lemma batch_size_one_dispatches_singly_witness :
  Forall (fun payload : list string => List.length payload = 1%nat)
    (dispatched (trace_of
       (Rabbit.start_rabbitmq_listener Scenario.loads 0 60 Scenario.broker_ok 0
          false Scenario.three_deliveries))).
Proof.
  apply (batch_size_one_dispatches_singly Scenario.loads 0 60 Scenario.broker_ok 0
           false Scenario.three_deliveries).
  lia.
Defined.

(** * The PostgreSQL writer *)

Arguments Postgres.retrying : simpl never.
Arguments Postgres.write_attempt : simpl never.

Section AttemptFacts.
Variable table : string.
Variable w : Postgres.world.
Variable record : value.
Variable data_batch : list value.
Variable st : Postgres.state.

#[local] Abbreviation run :=
  (Postgres.write_attempt table w (record :: data_batch) st).

Ltac attempt_cases :=
  unfold Postgres.obtains_cursor, Postgres.obtains_connection;
  destruct w as [np gc cu ex co cl pc], st as [p c k];
  unfold Postgres.write_attempt;
  destruct (Postgres.build_records (record :: data_batch));
  destruct p, np, gc, cu, ex, co, cl, pc; cbn; auto.

Lemma write_attempt_pool :
  Postgres.pool (Task.state_after run)
  = Postgres.pool st
    || match Postgres.new_pool w with None => true | Some _ => false end.
Proof. attempt_cases. Qed.

Lemma write_attempt_putconn :
  List.length (filter Postgres.is_putconn (Task.trace_of run))
  = if Postgres.obtains_connection w st then 1%nat else 0%nat.
Proof. attempt_cases. Qed.

Lemma write_attempt_cursor_close :
  List.length (filter Postgres.is_cursor_close (Task.trace_of run))
  = if Postgres.obtains_cursor w st then 1%nat else 0%nat.
Proof. attempt_cases. Qed.

Lemma write_attempt_no_sleep :
  filter Postgres.is_sleep (Task.trace_of run) = [].
Proof. attempt_cases. Qed.

Lemma write_attempt_no_data :
  filter Postgres.is_no_data (Task.trace_of run) = [].
Proof. attempt_cases. Qed.

Lemma write_attempt_failures :
  List.length (filter Postgres.is_write_failed (Task.trace_of run))
  = if Task.returns (Task.result_of run) then 0%nat else 1%nat.
Proof. attempt_cases. Qed.

Lemma write_attempt_no_new_pool :
  Postgres.pool st = true ->
  filter Postgres.is_new_pool (Task.trace_of run) = [].
Proof. attempt_cases; discriminate. Qed.

Lemma write_attempt_statements :
  filter Postgres.is_statement (Task.trace_of run)
  = if Postgres.obtains_cursor w st
    then match Postgres.build_records (record :: data_batch) with
         | Some records =>
             Postgres.ExecuteBatch table records
               :: match Postgres.execute_batch w with
                  | None => [Postgres.Commit]
                  | Some _ => []
                  end
         | None => []
         end
    else [].
Proof. attempt_cases. Qed.

Lemma write_attempt_returns :
  Task.returns (Task.result_of run)
  = Postgres.obtains_cursor w st
    && match Postgres.build_records (record :: data_batch),
             Postgres.execute_batch w, Postgres.commit w with
       | Some _, None, None => true
       | _, _, _ => false
       end.
Proof. attempt_cases. Qed.

Lemma write_attempt_not_a_dict :
  Postgres.build_records (record :: data_batch) = None ->
  Task.result_of run
  = match (if Postgres.pool st then None else Postgres.new_pool w),
          Postgres.getconn w, Postgres.cursor w with
    | Some e, _, _ => Task.Failed e
    | None, Some e, _ => Task.Failed e
    | None, None, Some e => Task.Failed e
    | None, None, None => Task.Failed Postgres.AttributeError
    end.
Proof. intros H. attempt_cases; discriminate. Qed.
End AttemptFacts.

Section RetryFacts.
Variable worlds : nat -> Postgres.world.
Variable table : string.
Variable record : value.
Variable data_batch : list value.

#[local] Abbreviation batch := (record :: data_batch).

Lemma retrying_step (remaining n : nat) (st : Postgres.state) :
  Postgres.retrying (S remaining) n worlds table batch st
  = let '(s1, t1, r1) := Postgres.write_attempt table (worlds n) batch st in
    match r1 with
    | Task.Done _ => (s1, t1, Task.Done tt)
    | Task.Failed e =>
        if Postgres.retryable e
        then match remaining with
             | O => (s1, t1, Task.Failed Postgres.RetryError)
             | S _ =>
                 let '(s2, t2, r2) :=
                   Postgres.retrying remaining (S n) worlds table batch s1 in
                 (s2, t1 ++ Postgres.Sleep 5 :: t2, r2)
             end
        else (s1, t1, Task.Failed e)
    end.
Proof.
  change (Postgres.retrying (S remaining) n worlds table batch st)
    with (Task.bind
            (Task.attempt (Postgres.write_attempt table (worlds n) batch))
            (fun r =>
               match r with
               | Task.Done _ => Task.ret tt
               | Task.Failed e =>
                   if Postgres.retryable e
                   then match remaining with
                        | O => Task.fail Postgres.RetryError
                        | S _ =>
                            Task.bind (Task.call (Postgres.Sleep 5) None)
                              (fun _ => Postgres.retrying remaining (S n)
                                          worlds table batch)
                        end
                   else Task.fail e
               end) st).
  unfold Task.bind, Task.attempt.
  destruct (Postgres.write_attempt table (worlds n) batch st)
    as [[s1 t1] [[]|e]]; cbv beta iota.
  - unfold Task.ret. rewrite app_nil_r. reflexivity.
  - destruct (Postgres.retryable e); [destruct remaining|];
      unfold Task.fail, Task.call; cbv beta iota; rewrite ?app_nil_r;
      try reflexivity.
    destruct (Postgres.retrying (S remaining) (S n) worlds table batch s1)
      as [[s2 t2] r2]. reflexivity.
Qed.

(** What holds of every attempt holds of the retried call: [P] is kept by
    appending the trace of an attempt and by the sleep between two. *)
Lemma retrying_trace (P : list Postgres.event -> Prop) :
  (forall w st, P (Task.trace_of (Postgres.write_attempt table w batch st))) ->
  (forall t1 t2, P t1 -> P t2 -> P (t1 ++ Postgres.Sleep 5 :: t2)) ->
  forall remaining n st,
    P (Task.trace_of
         (Postgres.retrying (S remaining) n worlds table batch st)).
Proof.
  intros Hattempt Hsleep.
  induction remaining as [|remaining IH]; intros n st; rewrite retrying_step;
    pose proof (Hattempt (worlds n) st) as H1;
    destruct (Postgres.write_attempt table (worlds n) batch st)
      as [[s1 t1] [[]|e]]; cbn in H1 |- *; try exact H1;
    destruct (Postgres.retryable e); try exact H1.
  specialize (IH (S n) s1).
  destruct (Postgres.retrying (S remaining) (S n) worlds table batch s1)
    as [[s2 t2] r2]. cbn in IH |- *. apply Hsleep; assumption.
Qed.

Lemma retrying_pool (remaining n : nat) (st : Postgres.state) :
  Postgres.pool st = true ->
  Postgres.pool
    (Task.state_after
       (Postgres.retrying (S remaining) n worlds table batch st)) = true.
Proof.
  revert n st.
  induction remaining as [|remaining IH]; intros n st Hpool;
    rewrite retrying_step;
    pose proof (write_attempt_pool table (worlds n) record data_batch st) as H1;
    rewrite Hpool in H1;
    destruct (Postgres.write_attempt table (worlds n) batch st)
      as [[s1 t1] [[]|e]]; cbn in H1 |- *; try exact H1;
    destruct (Postgres.retryable e); try exact H1.
  specialize (IH (S n) s1 H1).
  destruct (Postgres.retrying (S remaining) (S n) worlds table batch s1)
    as [[s2 t2] r2]. exact IH.
Qed.

Lemma retrying_no_new_pool (remaining n : nat) (st : Postgres.state) :
  Postgres.pool st = true ->
  filter Postgres.is_new_pool
    (Task.trace_of (Postgres.retrying (S remaining) n worlds table batch st))
  = [].
Proof.
  revert n st.
  induction remaining as [|remaining IH]; intros n st Hpool;
    rewrite retrying_step;
    pose proof (write_attempt_pool table (worlds n) record data_batch st) as H1;
    pose proof (write_attempt_no_new_pool table (worlds n) record data_batch
                  st Hpool) as H2;
    rewrite Hpool in H1;
    destruct (Postgres.write_attempt table (worlds n) batch st)
      as [[s1 t1] [[]|e]]; cbn in H1, H2 |- *; try exact H2;
    destruct (Postgres.retryable e); try exact H2.
  specialize (IH (S n) s1 H1).
  destruct (Postgres.retrying (S remaining) (S n) worlds table batch s1)
    as [[s2 t2] r2]. cbn in IH |- *.
  rewrite filter_app, H2. cbn. exact IH.
Qed.

Lemma retrying_counts (remaining n : nat) (st : Postgres.state) :
  let r := Postgres.retrying (S remaining) n worlds table batch st in
  let failures :=
    List.length (filter Postgres.is_write_failed (Task.trace_of r)) in
  let sleeps := List.length (filter Postgres.is_sleep (Task.trace_of r)) in
  (failures <= S remaining)%nat
  /\ if Task.returns (Task.result_of r)
     then sleeps = failures /\ (failures <= remaining)%nat
     else S sleeps = failures.
Proof.
  cbv zeta. revert n st.
  induction remaining as [|remaining IH]; intros n st; rewrite retrying_step;
    pose proof (write_attempt_failures table (worlds n) record data_batch st)
      as Hf;
    pose proof (write_attempt_no_sleep table (worlds n) record data_batch st)
      as Hs;
    destruct (Postgres.write_attempt table (worlds n) batch st)
      as [[s1 t1] [[]|e]]; cbn in Hf, Hs |- *;
    try (rewrite Hf, Hs; cbn; lia);
    destruct (Postgres.retryable e); cbn;
    try (rewrite Hf, Hs; cbn; lia).
  specialize (IH (S n) s1).
  destruct (Postgres.retrying (S remaining) (S n) worlds table batch s1)
    as [[s2 t2] r2]. cbn in IH |- *.
  rewrite !filter_app, !length_app, Hf, Hs. cbn.
  destruct (Task.returns r2); lia.
Qed.

Lemma retrying_not_a_dict (remaining n : nat) (st : Postgres.state) :
  Postgres.build_records batch = None ->
  let r := Postgres.retrying (S remaining) n worlds table batch st in
  filter Postgres.is_statement (Task.trace_of r) = []
  /\ Task.returns (Task.result_of r) = false.
Proof.
  intros Hnone. cbv zeta. revert n st.
  induction remaining as [|remaining IH]; intros n st; rewrite retrying_step;
    pose proof (write_attempt_statements table (worlds n) record data_batch
                  st) as Hst;
    pose proof (write_attempt_returns table (worlds n) record data_batch st)
      as Hret;
    rewrite Hnone in Hst, Hret;
    assert (Hst' : filter Postgres.is_statement
                     (Task.trace_of
                        (Postgres.write_attempt table (worlds n) batch st))
                   = [])
      by (rewrite Hst; destruct (Postgres.obtains_cursor _ _); reflexivity);
    rewrite andb_false_r in Hret; clear Hst;
    destruct (Postgres.write_attempt table (worlds n) batch st)
      as [[s1 t1] [[]|e]]; cbn in Hst', Hret |- *; try discriminate;
    destruct (Postgres.retryable e); cbn; auto.
  specialize (IH (S n) s1).
  destruct (Postgres.retrying (S remaining) (S n) worlds table batch s1)
    as [[s2 t2] r2]. cbn in IH |- *. destruct IH as [IH1 IH2].
  rewrite filter_app, Hst'. cbn. auto.
Qed.

Lemma spliced_cons (t : list Postgres.event)
    (traces : list (list Postgres.event)) :
  traces <> [] ->
  Postgres.spliced (t :: traces)
  = t ++ Postgres.Sleep 5 :: Postgres.spliced traces.
Proof. destruct traces; [contradiction|reflexivity]. Qed.

Lemma attempts_step (count n : nat) (st : Postgres.state) :
  Postgres.attempts (S count) n worlds table batch st
  = Postgres.write_attempt table (worlds n) batch st
      :: Postgres.attempts count (S n) worlds table batch
           (Task.state_after
              (Postgres.write_attempt table (worlds n) batch st)).
Proof. reflexivity. Qed.

(** The retried call is a sequence of attempts: all but the last are
    retried, and the last one decides how the call ends. *)
Lemma retrying_attempts (remaining n : nat) (st : Postgres.state) :
  let r := Postgres.retrying (S remaining) n worlds table batch st in
  exists earlier final,
    Postgres.attempts (S (List.length earlier)) n worlds table batch st
    = earlier ++ [final]
    /\ (List.length earlier <= remaining)%nat
    /\ Forall (fun a => Postgres.is_retried (Task.result_of a) = true) earlier
    /\ (List.length earlier = remaining
        \/ Postgres.is_retried (Task.result_of final) = false)
    /\ Task.trace_of r
       = Postgres.spliced (map Task.trace_of (earlier ++ [final]))
    /\ Task.state_after r = Task.state_after final
    /\ Task.result_of r
       = match Task.result_of final with
         | Task.Done _ => Task.Done tt
         | Task.Failed e =>
             Task.Failed (if Postgres.retryable e
                          then Postgres.RetryError else e)
         end.
Proof.
  cbv zeta. revert n st.
  induction remaining as [|remaining IH]; intros n st; rewrite retrying_step.
  - exists [], (Postgres.write_attempt table (worlds n) batch st).
    cbn [Postgres.attempts List.length app map Postgres.spliced].
    destruct (Postgres.write_attempt table (worlds n) batch st)
      as [[s1 t1] [[]|e]]; cbn; rewrite ?app_nil_r;
      [|destruct (Postgres.retryable e)]; repeat split; auto.
  - destruct (Postgres.write_attempt table (worlds n) batch st)
      as [[s1 t1] r1] eqn:Hfirst.
    assert (Halone :
              Postgres.is_retried r1 = false ->
              exists earlier final,
                Postgres.attempts (S (List.length earlier)) n worlds table
                  batch st = earlier ++ [final]
                /\ (List.length earlier <= S remaining)%nat
                /\ Forall (fun a => Postgres.is_retried (Task.result_of a)
                                    = true) earlier
                /\ (List.length earlier = S remaining
                    \/ Postgres.is_retried (Task.result_of final) = false)
                /\ t1 = Postgres.spliced
                          (map Task.trace_of (earlier ++ [final]))
                /\ s1 = Task.state_after final
                /\ Task.result_of final = r1).
    { intros Hlast. exists [], (s1, t1, r1).
      cbn [Postgres.attempts List.length app map Postgres.spliced].
      rewrite Hfirst. cbn. rewrite app_nil_r.
      repeat split; auto. lia. }
    destruct r1 as [[]|e].
    + destruct (Halone eq_refl)
        as (earlier & final & Ha & Hl & Hf & Hlast & Ht & Hs & Hr).
      exists earlier, final. rewrite Hr. cbn. repeat split; auto.
    + destruct (Postgres.retryable e) eqn:He.
      * specialize (IH (S n) s1).
        destruct (Postgres.retrying (S remaining) (S n) worlds table batch s1)
          as [[s2 t2] r2].
        destruct IH as (earlier & final & Ha & Hl & Hf & Hlast & Ht & Hs & Hr).
        cbn in Ht, Hs, Hr.
        exists ((s1, t1, Task.Failed e) :: earlier), final.
        cbn [List.length]. rewrite attempts_step, Hfirst.
        cbn [Task.state_after fst]. rewrite Ha.
        cbn [app map Task.trace_of fst snd].
        rewrite spliced_cons
          by (rewrite map_app; intros H; apply app_eq_nil in H;
              destruct H as [_ H]; discriminate).
        split; [reflexivity|]. split; [lia|].
        split; [constructor; [exact He|exact Hf]|].
        split; [destruct Hlast as [Hlast|Hlast];
                [left; lia|right; exact Hlast]|].
        split; [cbn; rewrite Ht; reflexivity|].
        split; [exact Hs|exact Hr].
      * destruct (Halone He)
          as (earlier & final & Ha & Hl & Hf & Hlast & Ht & Hs & Hr).
        exists earlier, final. rewrite Hr. cbn. rewrite He.
        repeat split; auto.
Qed.
End RetryFacts.

Section CommitFacts.
Variable worlds : nat -> Postgres.world.
Variable table : string.
Variable record : value.
Variable data_batch : list value.
Variable rows : list Postgres.row.
Hypothesis built : Postgres.build_records (record :: data_batch) = Some rows.

#[local] Abbreviation of_this_batch := (Postgres.of_batch table rows).

Lemma write_attempt_statements_built (w : Postgres.world)
    (st : Postgres.state) :
  let r := Postgres.write_attempt table w (record :: data_batch) st in
  Forall of_this_batch (filter Postgres.is_statement (Task.trace_of r))
  /\ (Task.returns (Task.result_of r) = true ->
      filter Postgres.is_statement (Task.trace_of r)
      = [Postgres.ExecuteBatch table rows; Postgres.Commit]).
Proof.
  cbv zeta.
  rewrite write_attempt_statements, write_attempt_returns, built.
  unfold Postgres.of_batch.
  destruct (Postgres.obtains_cursor w st), (Postgres.execute_batch w),
    (Postgres.commit w); cbn; split; try discriminate; auto.
Qed.

Lemma retrying_committed (remaining n : nat) (st : Postgres.state) :
  let r := Postgres.retrying (S remaining) n worlds table
             (record :: data_batch) st in
  Task.returns (Task.result_of r) = true ->
  exists earlier,
    filter Postgres.is_statement (Task.trace_of r)
    = earlier ++ [Postgres.ExecuteBatch table rows; Postgres.Commit]
    /\ Forall of_this_batch earlier.
Proof.
  cbv zeta. revert n st.
  induction remaining as [|remaining IH]; intros n st; rewrite retrying_step;
    pose proof (write_attempt_statements_built (worlds n) st) as [Hall Hok];
    destruct (Postgres.write_attempt table (worlds n) (record :: data_batch)
                st) as [[s1 t1] [[]|e]]; cbn in Hall, Hok |- *;
    try (intros _; exists []; split; [apply Hok; reflexivity|constructor]);
    destruct (Postgres.retryable e); cbn; try discriminate.
  specialize (IH (S n) s1).
  destruct (Postgres.retrying (S remaining) (S n) worlds table
              (record :: data_batch) s1) as [[s2 t2] r2]. cbn in IH |- *.
  intros Hret. destruct (IH Hret) as (earlier & Heq & Hearlier).
  exists (filter Postgres.is_statement t1 ++ earlier). split.
  - rewrite filter_app. cbn. rewrite Heq, app_assoc. reflexivity.
  - apply Forall_app. split; assumption.
Qed.
End CommitFacts.

(** X8. The rows the writer inserts. The list of rows can be built exactly
    when every record of the batch is a dict (otherwise [.get] raises);
    then there is one row per record, in the order of the batch. A row
    depends only on the keys [symbol], [source], [timestamp] and
    [analysis] of its record; [source] is ["unknown"] only when the key is
    absent (a present value, [None] included, is kept), and the other three
    are [None] when absent. *)
Theorem rows_are_built_from_dicts :
  (forall batch,
     Postgres.build_records batch <> None
     <-> Forall (fun record => is_dict record = true) batch)
  /\ (forall batch rows,
        Postgres.build_records batch = Some rows ->
        map Some rows = map Postgres.to_row batch)
  /\ (forall items items',
        (forall key,
           In key ["symbol"; "source"; "timestamp"; "analysis"]%string ->
           lookup key items = lookup key items') ->
        Postgres.to_row (VDict items) = Postgres.to_row (VDict items'))
  /\ (forall items,
        let absent_is_none key :=
          match lookup key items with Some v => v | None => VNone end in
        Postgres.to_row (VDict items)
        = Some {| Postgres.symbol := absent_is_none "symbol"%string;
                  Postgres.source :=
                    match lookup "source" items with
                    | Some v => v
                    | None => VStr "unknown"
                    end;
                  Postgres.timestamp := absent_is_none "timestamp"%string;
                  Postgres.data := absent_is_none "analysis"%string |}).
Proof.
  split; [|split; [|split]].
  - induction batch as [|record batch IH]; [split; [constructor|discriminate]|].
    cbn [Postgres.build_records]. split.
    + intros H. constructor.
      * destruct record; try reflexivity; cbn in H; congruence.
      * apply IH. destruct (Postgres.to_row record); [|congruence].
        destruct (Postgres.build_records batch); congruence.
    + intros H. apply Forall_cons_iff in H. destruct H as [Hd Hrest].
      apply IH in Hrest. destruct record; try discriminate. cbn.
      destruct (Postgres.build_records batch); [discriminate|contradiction].
  - induction batch as [|record batch IH]; intros rows H.
    + injection H as <-. reflexivity.
    + cbn [Postgres.build_records] in H.
      destruct (Postgres.to_row record) as [r|] eqn:Hr; [|discriminate].
      destruct (Postgres.build_records batch) as [rest|]; [|discriminate].
      injection H as <-. cbn. rewrite Hr, (IH rest eq_refl). reflexivity.
  - intros items items' H. unfold Postgres.to_row, dict_get.
    rewrite !H by (cbn; auto). reflexivity.
  - intros items. reflexivity.
Qed.

(** A batch of one dict gives its row, with the default source; changing a
    key that is not read changes nothing. *)
Lemma rows_are_built_from_dicts_witness :
  map Some [Samples.tick_row] = map Postgres.to_row [Samples.tick]
  /\ Postgres.to_row Samples.tick = Postgres.to_row Samples.tick_noted.
Proof.
  destruct rows_are_built_from_dicts as (_ & Hrows & Hkeys & _).
  split.
  - apply (Hrows [Samples.tick] [Samples.tick_row]). reflexivity.
  - apply Hkeys. intros key Hkey.
    destruct Hkey as [<-|[<-|[<-|[<-|[]]]]]; reflexivity.
Defined.

(** X9. One attempt of the writer on a non-empty batch gives back what it
    took, whatever fails in between: [putconn] is called exactly once when
    a connection was obtained and not at all otherwise, and the cursor is
    closed exactly once when it was opened and not at all otherwise. An
    exception of these two clean-up calls is only logged: it never changes
    whether the attempt returns, nor what it raises. *)
Theorem connection_is_always_released (table : string) (w : Postgres.world)
    (record : value) (data_batch : list value) (st : Postgres.state) :
  let r := Postgres.write_attempt table w (record :: data_batch) st in
  List.length (filter Postgres.is_putconn (Task.trace_of r))
  = (if Postgres.obtains_connection w st then 1%nat else 0%nat)
  /\ List.length (filter Postgres.is_cursor_close (Task.trace_of r))
     = (if Postgres.obtains_cursor w st then 1%nat else 0%nat)
  /\ (forall close putconn,
        Task.result_of
          (Postgres.write_attempt table
             {| Postgres.new_pool := Postgres.new_pool w;
                Postgres.getconn := Postgres.getconn w;
                Postgres.cursor := Postgres.cursor w;
                Postgres.execute_batch := Postgres.execute_batch w;
                Postgres.commit := Postgres.commit w;
                Postgres.close := close;
                Postgres.putconn := putconn |}
             (record :: data_batch) st)
        = Task.result_of r).
Proof.
  cbv zeta. split; [apply write_attempt_putconn|].
  split; [apply write_attempt_cursor_close|].
  intros close putconn.
  destruct w as [np gc cu ex co cl pc], st as [p c k].
  unfold Postgres.write_attempt.
  destruct (Postgres.build_records (record :: data_batch));
    destruct p, np, gc, cu, ex, co, cl, pc, close, putconn; reflexivity.
Qed.

(** X10. When [write_batch_to_postgres] returns for a non-empty batch,
    every record was a dict and the last statements sent to the database
    are the insertion of the rows of the batch followed by a commit; every
    statement sent before, by an attempt that failed, was an insertion of
    the same rows or a commit. *)
Theorem returning_write_has_committed (worlds : nat -> Postgres.world)
    (table : string) (record : value) (data_batch : list value)
    (st : Postgres.state) :
  let r := Postgres.write_batch_to_postgres worlds table
             (record :: data_batch) st in
  Task.returns (Task.result_of r) = true ->
  exists rows earlier,
    Postgres.build_records (record :: data_batch) = Some rows
    /\ filter Postgres.is_statement (Task.trace_of r)
       = earlier ++ [Postgres.ExecuteBatch table rows; Postgres.Commit]
    /\ Forall (Postgres.of_batch table rows) earlier.
Proof.
  cbv zeta. unfold Postgres.write_batch_to_postgres. intros Hret.
  destruct (Postgres.build_records (record :: data_batch)) as [rows|] eqn:Hb.
  - destruct (retrying_committed worlds table record data_batch rows Hb 4 0 st
                Hret) as (earlier & Heq & Hall).
    exists rows, earlier. auto.
  - destruct (retrying_not_a_dict worlds table record data_batch 4 0 st Hb)
      as [_ Hno]. congruence.
Qed.

(** The database is down for two attempts and then fine: the third attempt
    inserts the row and commits. *)
Lemma returning_write_has_committed_witness :
  exists rows earlier,
    Postgres.build_records [Samples.tick] = Some rows
    /\ filter Postgres.is_statement
         (Task.trace_of
            (Postgres.write_batch_to_postgres Samples.recovering
               "poller_data" [Samples.tick] Samples.fresh))
       = earlier ++ [Postgres.ExecuteBatch "poller_data" rows; Postgres.Commit]
    /\ Forall (Postgres.of_batch "poller_data" rows) earlier.
Proof.
  apply (returning_write_has_committed Samples.recovering "poller_data"
           Samples.tick [] Samples.fresh).
  reflexivity.
Defined.

Lemma filter_none_forall {A} (f : A -> bool) (l : list A) :
  filter f l = [] -> Forall (fun x => f x = false) l.
Proof.
  induction l as [|x l IH]; [constructor|].
  cbn. destruct (f x) eqn:Hx; [discriminate|]. intros H.
  constructor; [exact Hx|apply IH; exact H].
Qed.

(** X11. The retrying of [write_batch_to_postgres] on a non-empty batch.
    The call is a sequence of at least one and at most five attempts, each
    started in the state the one before left, with a sleep of 5 seconds
    between two attempts and nowhere else. Every attempt but the last
    raised an [OperationalError] or an [InterfaceError]; an attempt that
    returns, or that raises another error, is the last: the call then
    returns, or raises that error unchanged. When the last attempt raises
    one of the two retried errors it is the fifth, and the call raises
    [RetryError]. So at most five failures are logged and at most four
    sleeps are made: when the call returns, every failed attempt was
    followed by a sleep; when it raises, every failed attempt but the
    last. In particular the call is its first attempt alone when that
    attempt returns or raises an error that is not retried. *)
Theorem write_is_retried_at_most_five_times (worlds : nat -> Postgres.world)
    (table : string) (record : value) (data_batch : list value)
    (st : Postgres.state) :
  let r := Postgres.write_batch_to_postgres worlds table
             (record :: data_batch) st in
  let first := Postgres.write_attempt table (worlds 0%nat)
                 (record :: data_batch) st in
  let failures :=
    List.length (filter Postgres.is_write_failed (Task.trace_of r)) in
  let sleeps := List.length (filter Postgres.is_sleep (Task.trace_of r)) in
  (exists earlier final,
     Postgres.attempts (S (List.length earlier)) 0 worlds table
       (record :: data_batch) st
     = earlier ++ [final]
     /\ (List.length earlier <= 4)%nat
     /\ Forall (fun a => Postgres.is_retried (Task.result_of a) = true) earlier
     /\ (List.length earlier = 4%nat
         \/ Postgres.is_retried (Task.result_of final) = false)
     /\ Task.trace_of r
        = Postgres.spliced (map Task.trace_of (earlier ++ [final]))
     /\ Task.state_after r = Task.state_after final
     /\ Task.result_of r
        = match Task.result_of final with
          | Task.Done _ => Task.Done tt
          | Task.Failed e =>
              Task.Failed (if Postgres.retryable e
                           then Postgres.RetryError else e)
          end)
  /\ (failures <= 5)%nat
  /\ (sleeps <= 4)%nat
  /\ (if Task.returns (Task.result_of r)
      then sleeps = failures
      else S sleeps = failures)
  /\ Forall (fun e => Postgres.is_sleep e = true -> e = Postgres.Sleep 5)
       (Task.trace_of r)
  /\ (match Task.result_of first with
      | Task.Done _ => True
      | Task.Failed e => Postgres.retryable e = false
      end -> r = first).
Proof.
  cbv zeta. unfold Postgres.write_batch_to_postgres.
  split; [apply (retrying_attempts worlds table record data_batch 4 0 st)|].
  pose proof (retrying_counts worlds table record data_batch 4 0 st) as Hc.
  cbv zeta in Hc. destruct Hc as [Hf Hs].
  split; [exact Hf|]. split; [destruct (Task.returns _); lia|].
  split; [destruct (Task.returns _); [destruct Hs; assumption|exact Hs]|].
  split.
  - apply (retrying_trace worlds table record data_batch
             (Forall (fun e => Postgres.is_sleep e = true
                               -> e = Postgres.Sleep 5))).
    + intros w s.
      pose proof (write_attempt_no_sleep table w record data_batch s) as H.
      apply filter_none_forall in H. revert H. apply Forall_impl.
      intros e He Hs'. congruence.
    + intros t1 t2 H1 H2. apply Forall_app. split; [exact H1|].
      constructor; [reflexivity|exact H2].
  - rewrite retrying_step.
    destruct (Postgres.write_attempt table (worlds 0%nat)
                (record :: data_batch) st) as [[s1 t1] [[]|e]]; cbn.
    + reflexivity.
    + intros He. rewrite He. reflexivity.
Qed.

(** A statement that is refused with an error that is not retried: one
    attempt, no sleep, the error goes through. *)
Lemma write_is_retried_at_most_five_times_witness :
  Postgres.write_batch_to_postgres (fun _ => Samples.refused) "poller_data"
    [Samples.tick] Samples.fresh
  = Postgres.write_attempt "poller_data" Samples.refused [Samples.tick]
      Samples.fresh.
Proof.
  apply (write_is_retried_at_most_five_times (fun _ => Samples.refused)
           "poller_data" Samples.tick [] Samples.fresh).
  reflexivity.
Defined.

(** The database is down for two attempts and then fine: three attempts,
    two sleeps, and the call returns. *)
Example write_recovers_at_the_third_attempt :
  List.length
    (filter Postgres.is_sleep
       (Task.trace_of
          (Postgres.write_batch_to_postgres Samples.recovering "poller_data"
             [Samples.tick] Samples.fresh)))
  = 2%nat
  /\ Task.trace_of
       (Postgres.write_batch_to_postgres Samples.recovering "poller_data"
          [Samples.tick] Samples.fresh)
     = Postgres.spliced
         (map Task.trace_of
            (Postgres.attempts 3 0 Samples.recovering "poller_data"
               [Samples.tick] Samples.fresh))
  /\ Task.result_of
       (Postgres.write_batch_to_postgres Samples.recovering "poller_data"
          [Samples.tick] Samples.fresh)
     = Task.Done tt.
Proof. repeat split; vm_compute; reflexivity. Qed.

(** X12. The connection pool is a singleton. Once [_pool] is set, a call of
    [write_batch_to_postgres] never builds a pool again and leaves [_pool]
    set, whatever fails during the call and however often it is retried. *)
Theorem pool_is_created_once (worlds : nat -> Postgres.world)
    (table : string) (data_batch : list value) (st : Postgres.state) :
  Postgres.pool st = true ->
  let r := Postgres.write_batch_to_postgres worlds table data_batch st in
  filter Postgres.is_new_pool (Task.trace_of r) = []
  /\ Postgres.pool (Task.state_after r) = true.
Proof.
  intros Hpool. cbv zeta. unfold Postgres.write_batch_to_postgres.
  destruct data_batch as [|record data_batch].
  - split; [reflexivity|exact Hpool].
  - split; [apply retrying_no_new_pool|apply retrying_pool]; exact Hpool.
Qed.

(** With the pool there and the database down: five attempts, no pool
    built. *)
Lemma pool_is_created_once_witness :
  filter Postgres.is_new_pool
    (Task.trace_of
       (Postgres.write_batch_to_postgres (fun _ => Samples.down)
          "poller_data" [Samples.tick] Samples.warm))
  = []
  /\ Postgres.pool
       (Task.state_after
          (Postgres.write_batch_to_postgres (fun _ => Samples.down)
             "poller_data" [Samples.tick] Samples.warm))
     = true.
Proof.
  apply (pool_is_created_once (fun _ => Samples.down) "poller_data"
           [Samples.tick] Samples.warm).
  reflexivity.
Defined.

Lemma build_records_not_a_dict (batch : list value) :
  Exists (fun record => is_dict record = false) batch ->
  Postgres.build_records batch = None.
Proof.
  induction batch as [|record batch IH]; intros H.
  - inversion H.
  - cbn [Postgres.build_records]. apply Exists_cons in H.
    destruct H as [H|H].
    + destruct record; try discriminate; reflexivity.
    + rewrite (IH H). destruct (Postgres.to_row record); reflexivity.
Qed.

(** X13. A record that is not a dict stops the write before anything is
    sent: when some record of the batch is not a dict, no attempt sends an
    insertion or a commit and the call raises, whatever the database does.
    When the first attempt has its connection and its cursor, what is
    raised is the [AttributeError] of [.get], at once: it is not retried
    and there is no sleep. *)
Theorem non_dict_record_aborts_write (worlds : nat -> Postgres.world)
    (table : string) (data_batch : list value) (st : Postgres.state) :
  Exists (fun record => is_dict record = false) data_batch ->
  let r := Postgres.write_batch_to_postgres worlds table data_batch st in
  filter Postgres.is_statement (Task.trace_of r) = []
  /\ Task.returns (Task.result_of r) = false
  /\ (Postgres.obtains_cursor (worlds 0%nat) st = true ->
      Task.result_of r = Task.Failed Postgres.AttributeError
      /\ filter Postgres.is_sleep (Task.trace_of r) = []).
Proof.
  intros Hbad. cbv zeta. unfold Postgres.write_batch_to_postgres.
  pose proof (build_records_not_a_dict data_batch Hbad) as Hnone.
  destruct data_batch as [|record data_batch]; [inversion Hbad|].
  destruct (retrying_not_a_dict worlds table record data_batch 4 0 st Hnone)
    as [Hst Hret].
  split; [exact Hst|]. split; [exact Hret|].
  intros Hcur. rewrite retrying_step.
  pose proof (write_attempt_not_a_dict table (worlds 0%nat) record data_batch
                st Hnone) as Hres.
  pose proof (write_attempt_no_sleep table (worlds 0%nat) record data_batch st)
    as Hsleep.
  unfold Postgres.obtains_cursor, Postgres.obtains_connection in Hcur.
  destruct (if Postgres.pool st then None else Postgres.new_pool (worlds 0%nat));
    [discriminate|].
  destruct (Postgres.getconn (worlds 0%nat)); [discriminate|].
  destruct (Postgres.cursor (worlds 0%nat)); [discriminate|].
  destruct (Postgres.write_attempt table (worlds 0%nat)
              (record :: data_batch) st) as [[s1 t1] r1].
  cbn in Hres, Hsleep. subst r1. cbn. auto.
Qed.

(** A number between two dicts, the database fine: one attempt, the
    [AttributeError], nothing sent. *)
Lemma non_dict_record_aborts_write_witness :
  filter Postgres.is_statement
    (Task.trace_of
       (Postgres.write_batch_to_postgres (fun _ => Samples.fine)
          "poller_data" [Samples.tick; Samples.number; Samples.tick]
          Samples.fresh))
  = []
  /\ Task.result_of
       (Postgres.write_batch_to_postgres (fun _ => Samples.fine)
          "poller_data" [Samples.tick; Samples.number; Samples.tick]
          Samples.fresh)
     = Task.Failed Postgres.AttributeError.
Proof.
  assert (Hbad : Exists (fun record => is_dict record = false)
                   [Samples.tick; Samples.number; Samples.tick])
    by (right; left; reflexivity).
  destruct (non_dict_record_aborts_write (fun _ => Samples.fine)
              "poller_data" [Samples.tick; Samples.number; Samples.tick]
              Samples.fresh Hbad) as (Hnone & _ & Hattr).
  split; [exact Hnone|]. apply Hattr. reflexivity.
Defined.

Lemma process_batch_run (worlds : nat -> Postgres.world) (table : string)
    (record : value) (data_batch : list value) (st : Postgres.state) :
  Postgres.process_batch worlds table (record :: data_batch) st
  = let '(s1, t1, r1) :=
      Postgres.write_batch_to_postgres worlds table (record :: data_batch) st
    in
    (s1,
     Postgres.Log (Postgres.ReceivedBatch (S (List.length data_batch)))
       :: t1
       ++ [Postgres.Log match r1 with
                        | Task.Done _ => Postgres.BatchWritten
                        | Task.Failed e => Postgres.BatchFailed e
                        end],
     r1).
Proof.
  unfold Postgres.process_batch, Task.bind, Task.on_error, Postgres.logger,
    Task.call.
  cbv beta iota.
  destruct (Postgres.write_batch_to_postgres worlds table
              (record :: data_batch) st) as [[s1 t1] [[]|e]]; reflexivity.
Qed.

(** X14. [process_batch] adds nothing to the outcome of the writer. On an
    empty batch it only logs a warning: the writer is not called, and the
    state is untouched. On any other batch it returns exactly when
    [write_batch_to_postgres] returns and raises exactly what that raises
    ([RetryError] included), leaves the state the writer left, and only
    adds its own log records around the calls of the writer. Through
    [process_batch] the writer never sees an empty batch: its own warning
    for that case is never logged. *)
Theorem process_batch_passes_the_outcome (worlds : nat -> Postgres.world)
    (table : string) (batch : list value) (st : Postgres.state) :
  let r := Postgres.process_batch worlds table batch st in
  let w := Postgres.write_batch_to_postgres worlds table batch st in
  (batch = [] ->
   r = (st, [Postgres.Log Postgres.EmptyBatch], Task.Done tt))
  /\ (batch <> [] ->
      Task.result_of r = Task.result_of w
      /\ Task.state_after r = Task.state_after w
      /\ Task.trace_of r
         = Postgres.Log (Postgres.ReceivedBatch (List.length batch))
             :: Task.trace_of w
             ++ [Postgres.Log match Task.result_of w with
                              | Task.Done _ => Postgres.BatchWritten
                              | Task.Failed e => Postgres.BatchFailed e
                              end])
  /\ filter Postgres.is_no_data (Task.trace_of r) = [].
Proof.
  cbv zeta. destruct batch as [|record data_batch].
  - split; [reflexivity|]. split; [congruence|reflexivity].
  - split; [discriminate|].
    rewrite process_batch_run.
    assert (Hnd : filter Postgres.is_no_data
                    (Task.trace_of
                       (Postgres.write_batch_to_postgres worlds table
                          (record :: data_batch) st)) = []).
    { unfold Postgres.write_batch_to_postgres.
      apply (retrying_trace worlds table record data_batch
               (fun t => filter Postgres.is_no_data t = [])).
      - intros w s. apply write_attempt_no_data.
      - intros t1 t2 H1 H2. rewrite filter_app, H1. cbn. exact H2. }
    destruct (Postgres.write_batch_to_postgres worlds table
                (record :: data_batch) st) as [[s1 t1] r1].
    cbn in Hnd |- *. split; [intros _; repeat split|].
    rewrite filter_app, Hnd. destruct r1; reflexivity.
Qed.

(** The empty batch, and a batch of one record while the database is
    down for two attempts. *)
Lemma process_batch_passes_the_outcome_witness :
  Postgres.process_batch Samples.recovering "poller_data" [] Samples.fresh
  = (Samples.fresh, [Postgres.Log Postgres.EmptyBatch], Task.Done tt)
  /\ Task.result_of
       (Postgres.process_batch Samples.recovering "poller_data"
          [Samples.tick] Samples.fresh)
     = Task.result_of
         (Postgres.write_batch_to_postgres Samples.recovering "poller_data"
            [Samples.tick] Samples.fresh).
Proof.
  split.
  - apply (process_batch_passes_the_outcome Samples.recovering "poller_data"
             [] Samples.fresh). reflexivity.
  - apply (process_batch_passes_the_outcome Samples.recovering "poller_data"
             [Samples.tick] Samples.fresh). discriminate.
Defined.

Lemma dispatch_fails_on_non_dict (worlds : nat -> Postgres.world)
    (table : string) (st : Postgres.state) (payload : list value) :
  Exists (fun record => is_dict record = false) payload ->
  Postgres.dispatch_returns worlds table st payload = false.
Proof.
  intros Hbad. unfold Postgres.dispatch_returns.
  pose proof (build_records_not_a_dict payload Hbad) as Hnone.
  destruct payload as [|record data_batch]; [inversion Hbad|].
  rewrite process_batch_run.
  destruct (retrying_not_a_dict worlds table record data_batch 4 0 st Hnone)
    as [_ Hret].
  unfold Postgres.write_batch_to_postgres.
  destruct (Postgres.retrying 5 0 worlds table (record :: data_batch) st)
    as [[s1 t1] r1]. exact Hret.
Qed.

(** X15. One message that is valid JSON but not an object takes its whole
    batch with it. With [process_batch] as the dispatch callback, a flush
    whose batch holds a value that is not a dict always takes the failure
    path, whatever the state of the database: the RabbitMQ listener
    negative-acknowledges every message of the batch without requeue, the
    valid ones included (the nacks returning), and the SQS listener deletes
    nothing. *)
Theorem non_dict_message_rejects_its_batch (worlds : nat -> Postgres.world)
    (table : string) (db : Postgres.state) :
  (forall (d : Rabbit.delivery value) now st,
     (forall payload,
        Rabbit.callback_returns (Rabbit.env d) payload
        = Postgres.dispatch_returns worlds table db payload) ->
     Exists (fun record => is_dict record = false)
       (map fst (Rabbit.message_batch st)) ->
     (forall tag, Rabbit.basic_nack_returns (Rabbit.env d) tag = true) ->
     trace_of (Rabbit.flush d now st)
     = Callback (map fst (Rabbit.message_batch st))
         :: Log RabbitBatchFailed
         :: map (fun tag => BasicNack tag false)
              (map snd (Rabbit.message_batch st)))
  /\ (forall (p : Sqs.poll value) now st,
        (forall payload,
           Sqs.callback_returns (Sqs.env p) payload
           = Postgres.dispatch_returns worlds table db payload) ->
        Exists (fun record => is_dict record = false) (Sqs.message_batch st) ->
        trace_of (Sqs.flush p now st)
        = [Callback (Sqs.message_batch st); Log SqsBatchFailed]).
Proof.
  split.
  - intros d now st Hcb Hbad Hnack. rewrite rabbit_flush_run. cbv zeta.
    cbn [trace_of fst snd].
    rewrite Hcb, (dispatch_fails_on_non_dict worlds table db _ Hbad).
    rewrite attempted_all, map_map; [reflexivity|].
    apply forallb_forall. intros m _. apply Hnack.
  - intros p now st Hcb Hbad. rewrite sqs_flush_run. cbv zeta.
    cbn [trace_of fst snd].
    rewrite Hcb, (dispatch_fails_on_non_dict worlds table db _ Hbad).
    reflexivity.
Qed.

(** A dict and a number pending, the database fine: both messages are
    rejected, nothing is deleted. *)
Lemma non_dict_message_rejects_its_batch_witness :
  trace_of (Rabbit.flush Wired.delivery 10 Wired.mixed)
  = [Callback [Samples.tick; Samples.number]; Log RabbitBatchFailed;
     BasicNack 1 false; BasicNack 2 false]
  /\ trace_of (Sqs.flush Wired.sqs_poll 10 Wired.sqs_mixed)
     = [Callback [Samples.tick; Samples.number]; Log SqsBatchFailed].
Proof.
  destruct (non_dict_message_rejects_its_batch (fun _ => Samples.fine)
              "poller_data" Samples.fresh) as [Hpush Hpull].
  split.
  - apply (Hpush Wired.delivery 10 Wired.mixed).
    + intros payload. reflexivity.
    + right. left. reflexivity.
    + intros tag. reflexivity.
  - apply (Hpull Wired.sqs_poll 10 Wired.sqs_mixed).
    + intros payload. reflexivity.
    + right. left. reflexivity.
Defined.

(** * [consume_messages], the retried listeners and the entry point *)

Section RetryListenerFacts.
Context {Message : Type}.
Variable wait : nat -> Z.
Variable incarnation : nat -> list (event Message) * outcome unit.

Lemma retry_step (remaining n : nat) :
  Handler.retry wait (S remaining) n incarnation
  = match snd (incarnation n), remaining with
    | Raised, S _ =>
        (fst (incarnation n)
           ++ Sleep (wait n)
           :: fst (Handler.retry wait remaining (S n) incarnation),
         snd (Handler.retry wait remaining (S n) incarnation))
    | _, _ => incarnation n
    end.
Proof.
  cbn [Handler.retry]. destruct (incarnation n) as [t [[]| |]];
    try reflexivity.
  destruct remaining; [reflexivity|].
  destruct (Handler.retry wait (S remaining) (S n) incarnation).
  reflexivity.
Qed.

Lemma retry_first (remaining : nat) :
  snd (incarnation 0%nat) <> Raised ->
  Handler.retry wait (S remaining) 0 incarnation = incarnation 0%nat.
Proof.
  intros H. rewrite retry_step.
  destruct (snd (incarnation 0%nat)); try reflexivity. contradiction.
Qed.

(** What holds of the trace of every incarnation, and is kept across the
    sleep between two, holds of the retried run. *)
Lemma retry_trace (P : list (event Message) -> Prop) :
  (forall n, P (fst (incarnation n))) ->
  (forall t1 t2 seconds, P t1 -> P t2 -> P (t1 ++ Sleep seconds :: t2)) ->
  forall remaining n,
    P (fst (Handler.retry wait (S remaining) n incarnation)).
Proof.
  intros Hone Hsleep.
  induction remaining as [|remaining IH]; intros n; rewrite retry_step;
    destruct (snd (incarnation n)); try apply Hone.
  cbn [fst]. apply Hsleep; [apply Hone|apply IH].
Qed.

(** Counting in the retried run the calls of which an incarnation makes at
    most one, and the sleeps when the incarnations do not sleep. *)
Lemma retry_counts (f : event Message -> bool) :
  (forall seconds, f (Sleep seconds) = false) ->
  (forall n, (List.length (filter f (fst (incarnation n))) <= 1)%nat) ->
  (forall n, filter is_sleep (fst (incarnation n)) = []) ->
  forall remaining n,
    let t := fst (Handler.retry wait (S remaining) n incarnation) in
    (List.length (filter f t) <= S remaining)%nat
    /\ (List.length (filter is_sleep t) <= remaining)%nat.
Proof.
  intros Hf Hone Hquiet. cbv zeta.
  induction remaining as [|remaining IH]; intros n; rewrite retry_step;
    pose proof (Hone n) as H1; pose proof (Hquiet n) as H2;
    destruct (snd (incarnation n)); try (rewrite H2; cbn; lia).
  cbn [fst]. destruct (IH (S n)) as [IHf IHs].
  rewrite !filter_app, !length_app, H2. cbn [filter is_sleep].
  rewrite Hf. cbn [List.length]. lia.
Qed.

(** The retried run is a sequence of incarnations: all but the last
    raised, and the last one decides how the run ends. [j] counts the
    incarnations before the last. *)
Lemma retry_restarted (remaining n : nat) :
  exists j,
    (j <= remaining)%nat
    /\ Handler.retry wait (S remaining) n incarnation
       = (Handler.restarted wait (S j) n incarnation,
          snd (incarnation (n + j)%nat))
    /\ (forall i, (i < j)%nat -> snd (incarnation (n + i)%nat) = Raised)
    /\ (j = remaining \/ snd (incarnation (n + j)%nat) <> Raised).
Proof.
  revert n. induction remaining as [|remaining IH]; intros n;
    rewrite retry_step.
  - exists 0%nat. rewrite Nat.add_0_r.
    cbn [Handler.restarted]. rewrite app_nil_r.
    split; [lia|]. split; [|split; [intros i Hi; lia|left; reflexivity]].
    destruct (incarnation n) as [t []]; reflexivity.
  - destruct (snd (incarnation n)) as [[]| |] eqn:Ho.
    + exists 0%nat. rewrite Nat.add_0_r, Ho.
      cbn [Handler.restarted]. rewrite app_nil_r.
      split; [lia|]. split; [|split; [intros i Hi; lia|right; discriminate]].
      destruct (incarnation n) as [t o]. cbn in Ho |- *. rewrite Ho.
      reflexivity.
    + destruct (IH (S n)) as (j & Hj & Hrun & Hearlier & Hlast).
      exists (S j). rewrite Hrun, <- plus_n_Sm. cbn [fst snd plus] in *.
      split; [lia|]. split; [reflexivity|]. split.
      * intros [|i] Hi; [rewrite Nat.add_0_r; exact Ho|].
        rewrite <- plus_n_Sm. apply Hearlier. lia.
      * destruct Hlast as [Hlast|Hlast]; [left; lia|right; exact Hlast].
    + exists 0%nat. rewrite Nat.add_0_r, Ho.
      cbn [Handler.restarted]. rewrite app_nil_r.
      split; [lia|]. split; [|split; [intros i Hi; lia|right; discriminate]].
      destruct (incarnation n) as [t o]. cbn in Ho |- *. rewrite Ho.
      reflexivity.
Qed.
End RetryListenerFacts.

(** X17. The SQS listener is never restarted by its [@retry]: as it never
    raises, [consume_messages] on the queue type ["sqs"] (in any case of
    the letters) is the first incarnation of the listener and nothing more,
    and does not raise; no polling, decoding, callback or deletion error
    reaches [main]. *)
Theorem sqs_listener_is_never_retried {Message : Type}
    (json_loads : string -> option Message)
    (batch_size flush_timeout polling_interval : Z) (wait : nat -> Z)
    (rabbit_runs : nat -> Handler.rabbit_run Message)
    (sqs_runs : nat -> Handler.sqs_run Message) (queue_type : string) :
  Handler.lower queue_type = "sqs"%string ->
  let consumed :=
    Handler.consume_messages json_loads batch_size flush_timeout
      polling_interval wait queue_type rabbit_runs sqs_runs in
  consumed
  = Handler.sqs_incarnation json_loads batch_size flush_timeout
      polling_interval sqs_runs 0
  /\ snd consumed <> Raised
  /\ Main.main consumed <> Main.Raises.
Proof.
  intros Hq. cbv zeta. unfold Handler.consume_messages. rewrite Hq.
  cbn [String.eqb Ascii.eqb Bool.eqb].
  assert (Hnr : snd (Handler.sqs_incarnation json_loads batch_size
                       flush_timeout polling_interval sqs_runs 0) <> Raised)
    by (unfold Handler.sqs_incarnation; cbn [snd];
        apply sqs_start_never_raises).
  rewrite (retry_first wait _ 4 Hnr).
  split; [reflexivity|]. split; [exact Hnr|].
  unfold Main.main.
  destruct (snd (Handler.sqs_incarnation _ _ _ _ _ _)); try discriminate.
  contradiction.
Qed.

(** A script of polls and deletions that raise. *)
Lemma sqs_listener_is_never_retried_witness :
  Handler.consume_messages Scenario.loads 1 60 5 Wired.wait "SQS"
    Wired.unreachable Wired.sqs_troubled
  = Handler.sqs_incarnation Scenario.loads 1 60 5 Wired.sqs_troubled 0.
Proof.
  apply (sqs_listener_is_never_retried Scenario.loads 1 60 5 Wired.wait
           Wired.unreachable Wired.sqs_troubled "SQS").
  reflexivity.
Defined.

Section RabbitIncarnation.
Context {Message : Type}.
Variable json_loads : string -> option Message.
Variables batch_size flush_timeout : Z.
Variable runs : nat -> Handler.rabbit_run Message.

#[local] Abbreviation incarnation :=
  (Handler.rabbit_incarnation json_loads batch_size flush_timeout runs).

Lemma rabbit_incarnation_counts (n : nat) :
  (List.length (filter Handler.is_queue_declare (fst (incarnation n))) <= 1)%nat
  /\ filter is_sleep (fst (incarnation n)) = [].
Proof.
  unfold incarnation, Handler.rabbit_incarnation.
  destruct (Handler.established (runs n)); [|cbn; auto].
  unfold Rabbit.start_rabbitmq_listener. rewrite rabbit_listener_run.
  destruct (Rabbit.set_up _).
  - rewrite rabbit_serve_run.
    pose proof (rabbit_consume_emits json_loads batch_size flush_timeout
                  (Handler.rabbit_is_set (runs n))
                  (Handler.rabbit_script (runs n))
                  (Rabbit.initial (Handler.rabbit_t0 (runs n)))) as H.
    destruct (Rabbit.consume _ _ _ _ _ _) as [[s t] o]. cbn in H.
    assert (Hq : filter Handler.is_queue_declare t = [])
      by (apply filter_consuming; [|exact H];
          intros [] He; try reflexivity; destruct He).
    assert (Hs : filter is_sleep t = [])
      by (apply filter_consuming; [|exact H];
          intros [] He; try reflexivity; destruct He).
    destruct (Rabbit.stop_consuming_returns (Handler.rabbit_broker (runs n)));
      destruct o; cbn [fst snd trace_of app filter Handler.is_queue_declare
                         is_sleep];
      rewrite ?filter_app, ?Hq, ?Hs; cbn; auto.
  - destruct (rabbit_set_up_silent (Message := Message) batch_size
                (Handler.rabbit_broker (runs n))) as (_ & _ & Hs & Hq).
    cbv zeta in Hs, Hq. unfold trace_of. cbn [fst snd].
    rewrite Hq, Hs. auto.
Qed.

Lemma rabbit_incarnation_respects (Q : list Message -> Prop)
    (I : Rabbit.state Message -> Prop) (n : nat) :
  (forall d,
     respects I Q (Rabbit.on_message json_loads batch_size flush_timeout d)) ->
  (forall t0, I (Rabbit.initial t0)) ->
  Forall Q (dispatched (fst (incarnation n))).
Proof.
  intros Hstep Hinit. unfold incarnation, Handler.rabbit_incarnation.
  destruct (Handler.established (runs n)); [|constructor].
  cbn [fst]. unfold Rabbit.start_rabbitmq_listener.
  apply (rabbit_listener_respects json_loads batch_size flush_timeout I Q);
    auto.
Qed.
End RabbitIncarnation.

(** X18. The [@retry] of the RabbitMQ listener. A whole call of
    [consume_messages] on ["rabbitmq"] is a sequence of at least one and at
    most five incarnations of the listener, each but the last followed by
    its sleep: every incarnation but the last raised, and an incarnation
    that returns or is still consuming is the last, the call ending as it
    does. When the last incarnation raises it is the fifth, and the call
    raises. So the queue is declared at most five times and there are at
    most four sleeps. Every incarnation starts with an empty batch, so
    across the restarts every payload handed to the callback is still
    non-empty and, for a positive [batch_size], holds at most [batch_size]
    messages: what was pending when an incarnation raised is not
    dispatched by the next. *)
Theorem rabbit_listener_is_restarted_at_most_five_times {Message : Type}
    (json_loads : string -> option Message)
    (batch_size flush_timeout polling_interval : Z) (wait : nat -> Z)
    (rabbit_runs : nat -> Handler.rabbit_run Message)
    (sqs_runs : nat -> Handler.sqs_run Message) (queue_type : string) :
  Handler.lower queue_type = "rabbitmq"%string ->
  let consumed :=
    Handler.consume_messages json_loads batch_size flush_timeout
      polling_interval wait queue_type rabbit_runs sqs_runs in
  let incarnation :=
    Handler.rabbit_incarnation json_loads batch_size flush_timeout
      rabbit_runs in
  (exists j,
     (j <= 4)%nat
     /\ consumed
        = (Handler.restarted wait (S j) 0 incarnation, snd (incarnation j))
     /\ (forall i, (i < j)%nat -> snd (incarnation i) = Raised)
     /\ (j = 4%nat \/ snd (incarnation j) <> Raised))
  /\ (List.length (filter Handler.is_queue_declare (fst consumed)) <= 5)%nat
  /\ (List.length (filter is_sleep (fst consumed)) <= 4)%nat
  /\ Forall (fun payload => payload <> []) (dispatched (fst consumed))
  /\ (1 <= batch_size ->
      Forall (fun payload => Z.of_nat (List.length payload) <= batch_size)
        (dispatched (fst consumed))).
Proof.
  intros Hq. cbv zeta. unfold Handler.consume_messages. rewrite Hq.
  cbn [String.eqb Ascii.eqb Bool.eqb].
  assert (Hlift : forall Q : list Message -> Prop,
             (forall n, Forall Q (dispatched
                (fst (Handler.rabbit_incarnation json_loads batch_size
                        flush_timeout rabbit_runs n)))) ->
             Forall Q (dispatched
               (fst (Handler.retry wait 5 0
                       (Handler.rabbit_incarnation json_loads batch_size
                          flush_timeout rabbit_runs))))).
  { intros Q HQ.
    apply (retry_trace wait _ (fun t => Forall Q (dispatched t))); [exact HQ|].
    intros t1 t2 seconds H1 H2.
    change (t1 ++ Sleep seconds :: t2) with (t1 ++ [Sleep seconds] ++ t2).
    rewrite !dispatched_app. cbn. apply Forall_app. auto. }
  destruct (retry_counts wait
              (Handler.rabbit_incarnation json_loads batch_size flush_timeout
                 rabbit_runs)
              Handler.is_queue_declare (fun _ => eq_refl)
              (fun n => proj1 (rabbit_incarnation_counts json_loads batch_size
                                 flush_timeout rabbit_runs n))
              (fun n => proj2 (rabbit_incarnation_counts json_loads batch_size
                                 flush_timeout rabbit_runs n))
              4 0) as [Hd Hs].
  split; [|split; [exact Hd|split; [exact Hs|split]]].
  - apply (retry_restarted wait
             (Handler.rabbit_incarnation json_loads batch_size flush_timeout
                rabbit_runs) 4 0).
  - apply Hlift. intros n.
    apply (rabbit_incarnation_respects json_loads batch_size flush_timeout
             rabbit_runs _ (fun _ => True)); [|constructor].
    intros d. apply rabbit_on_message_nonempty.
  - intros Hpos. apply Hlift. intros n.
    apply (rabbit_incarnation_respects json_loads batch_size flush_timeout
             rabbit_runs _
             (fun st => Z.of_nat (List.length (Rabbit.message_batch st))
                        < batch_size)).
    + intros d. apply rabbit_on_message_capped.
    + intros t0. cbn. lia.
Qed.

(** The broker cannot be reached: five attempts, four sleeps, nothing
    dispatched. *)
Lemma rabbit_listener_is_restarted_at_most_five_times_witness :
  (List.length
     (filter is_sleep
        (fst (Handler.consume_messages Scenario.loads 3 60 5 Wired.wait
                "RabbitMQ" Wired.unreachable Wired.sqs_troubled))) <= 4)%nat
  /\ Forall (fun payload : list string =>
               Z.of_nat (List.length payload) <= 3)
       (dispatched
          (fst (Handler.consume_messages Scenario.loads 3 60 5 Wired.wait
                  "RabbitMQ" Wired.unreachable Wired.sqs_troubled))).
Proof.
  assert (Hq : Handler.lower "RabbitMQ" = "rabbitmq"%string) by reflexivity.
  destruct (rabbit_listener_is_restarted_at_most_five_times Scenario.loads
              3 60 5 Wired.wait Wired.unreachable Wired.sqs_troubled
              "RabbitMQ" Hq) as (_ & _ & Hs & _ & Hcap).
  split; [exact Hs|]. apply Hcap. lia.
Defined.

(** The broker is unreachable twice and then the listener runs, a delivery
    raising in it; the fourth incarnation finds [shutdown_event] set: four
    incarnations, three sleeps of 2, 2 and 4 seconds, and the call
    returns. *)
Example listener_is_restarted_until_it_returns :
  Handler.consume_messages Scenario.loads 3 60 5 Wired.wait "rabbitmq"
    Wired.recovering Wired.sqs_troubled
  = ([Sleep 2; Sleep 2;
      QueueDeclare true; BasicQos 3; BasicConsume; Log RabbitListening;
      Log RabbitParseFailed; BasicNack 7 false;
      StopConsuming; ConnectionClose;
      Sleep 4;
      QueueDeclare true; BasicQos 3; BasicConsume; Log RabbitListening;
      StopConsuming; ConnectionClose],
     Returned tt).
Proof. vm_compute. reflexivity. Qed.

Section SuperviseFacts.
#[local] Arguments Nat.ltb : simpl never.
#[local] Arguments Nat.leb : simpl never.

Lemma supervise_counts (calls : list Main.ending) :
  Forall Main.ends calls ->
  forall restart_attempts : nat,
    (restart_attempts <= 4)%nat ->
    let failures := List.length (filter Main.is_failure calls) in
    let r := Main.supervise restart_attempts calls in
    let sleeps := List.length (filter Main.is_sleep (fst r)) in
    let started := List.length (filter Main.is_main_called (fst r)) in
    Forall (fun e => Main.is_sleep e = true -> e = Main.Sleep 5) (fst r)
    /\ (if Nat.ltb (restart_attempts + failures) 5
        then snd r = Main.Running (restart_attempts + failures)
             /\ started = List.length calls
             /\ sleeps = failures
        else snd r = Main.Exited 1
             /\ (sleeps + restart_attempts = 4)%nat
             /\ (started <= List.length calls)%nat).
Proof.
  cbv zeta. induction 1 as [|c calls Hc Hcalls IH]; intros a Ha.
  - cbn. replace (Nat.ltb (a + 0) 5) with true
      by (symmetry; apply Nat.ltb_lt; lia).
    rewrite Nat.add_0_r. auto.
  - destruct Hc as [-> | ->]; cbn [Main.supervise filter Main.is_failure].
    + specialize (IH a Ha).
      destruct (Main.supervise a calls) as [t st]. cbn in IH |- *.
      destruct IH as [Hs IH]. split.
      * repeat (constructor; [discriminate|]). exact Hs.
      * revert IH.
        destruct (Nat.ltb (a + _) 5); intros (H1 & H2 & H3);
          repeat split; auto; lia.
    + cbn [List.length]. destruct (Nat.leb 5 (S a)) eqn:Hfive.
      * apply Nat.leb_le in Hfive.
        replace (Nat.ltb (a + S _) 5) with false
          by (symmetry; apply Nat.ltb_ge; lia).
        cbn. split; [repeat (constructor; [discriminate|]); constructor|].
        repeat split; lia.
      * apply Nat.leb_gt in Hfive.
        assert (Ha' : (S a <= 4)%nat) by lia.
        specialize (IH (S a) Ha').
        destruct (Main.supervise (S a) calls) as [t st]. cbn in IH |- *.
        destruct IH as [Hs IH]. split.
        -- constructor; [discriminate|]. constructor; [discriminate|].
           constructor; [reflexivity|]. exact Hs.
        -- rewrite Nat.add_succ_r. revert IH.
           destruct (Nat.ltb (S (a + _)) 5); intros (H1 & H2 & H3);
             repeat split; auto; lia.
Qed.

Lemma supervise_returns (calls : list Main.ending) (restart_attempts : nat) :
  Forall (fun c => c = Main.Returns) calls ->
  Main.supervise restart_attempts calls
  = (flat_map (fun _ => [Main.MainCalled; Main.LogRestarting]) calls,
     Main.Running restart_attempts).
Proof.
  induction 1 as [|c calls Hc Hcalls IH]; [reflexivity|].
  subst c. cbn. rewrite IH. reflexivity.
Qed.
End SuperviseFacts.

(** X19. The loop around [main] counts the failures of [main] over the
    whole life of the process: a call that returns is followed at once by
    another call, without a sleep, and does not reset the count. Over calls
    that each return or raise: with fewer than five failures the loop is
    still running, has called [main] once per ending and slept once per
    failure; at the fifth failure it exits with status 1, having slept four
    times in all. Every sleep is of 5 seconds. *)
Theorem process_exits_at_the_fifth_failure (calls : list Main.ending) :
  Forall Main.ends calls ->
  let failures := List.length (filter Main.is_failure calls) in
  let r := Main.supervise 0 calls in
  let sleeps := List.length (filter Main.is_sleep (fst r)) in
  let started := List.length (filter Main.is_main_called (fst r)) in
  Forall (fun e => Main.is_sleep e = true -> e = Main.Sleep 5) (fst r)
  /\ ((failures < 5)%nat ->
      snd r = Main.Running failures
      /\ started = List.length calls
      /\ sleeps = failures)
  /\ ((5 <= failures)%nat ->
      snd r = Main.Exited 1 /\ sleeps = 4%nat).
Proof.
  intros Hcalls. cbv zeta.
  destruct (supervise_counts calls Hcalls 0 (Nat.le_0_l 4)) as [Hs H].
  cbv zeta in H. cbn [Nat.add] in H.
  split; [exact Hs|]. split; intros Hf.
  - apply Nat.ltb_lt in Hf. rewrite Hf in H. exact H.
  - apply Nat.ltb_ge in Hf. rewrite Hf in H.
    destruct H as (H1 & H2 & _). split; [exact H1|lia].
Qed.

(** Failures with returns in between: the fifth failure ends the process,
    the calls after it are never made. *)
Lemma process_exits_at_the_fifth_failure_witness :
  snd (Main.supervise 0
         [Main.Raises; Main.Returns; Main.Raises; Main.Raises; Main.Returns;
          Main.Raises; Main.Raises; Main.Returns])
  = Main.Exited 1
  /\ List.length
       (filter Main.is_sleep
          (fst (Main.supervise 0
                  [Main.Raises; Main.Returns; Main.Raises; Main.Raises;
                   Main.Returns; Main.Raises; Main.Raises; Main.Returns])))
     = 4%nat.
Proof.
  apply (process_exits_at_the_fifth_failure
           [Main.Raises; Main.Returns; Main.Raises; Main.Raises; Main.Returns;
            Main.Raises; Main.Raises; Main.Returns]).
  - repeat constructor; (left; reflexivity) || (right; reflexivity).
  - cbn. lia.
Defined.

Section AfterShutdown.
Context {Message : Type}.
Variable json_loads : string -> option Message.
Variables batch_size flush_timeout polling_interval : Z.
Variable wait : nat -> Z.

Lemma rabbit_incarnation_after_shutdown
    (runs : nat -> Handler.rabbit_run Message) :
  Handler.established (runs 0%nat) = true ->
  Handler.rabbit_is_set (runs 0%nat) = true ->
  Rabbit.cooperative (Handler.rabbit_broker (runs 0%nat)) = true ->
  Handler.rabbit_incarnation json_loads batch_size flush_timeout runs 0
  = ([QueueDeclare true; BasicQos batch_size; BasicConsume;
      Log RabbitListening; StopConsuming; ConnectionClose],
     Returned tt).
Proof.
  intros He Hs Hbr. unfold Handler.rabbit_incarnation.
  rewrite He, Hs.
  unfold Rabbit.cooperative in Hbr.
  apply andb_prop in Hbr. destruct Hbr as [Hbr Hclose].
  apply andb_prop in Hbr. destruct Hbr as [Hup Hstop].
  unfold Rabbit.start_rabbitmq_listener.
  rewrite rabbit_listener_run, Hup, rabbit_serve_run. unfold Rabbit.consume.
  rewrite while_not_set_when_set, Hstop, Hclose. reflexivity.
Qed.

Lemma sqs_incarnation_after_shutdown (runs : nat -> Handler.sqs_run Message) :
  Handler.sqs_is_set (runs 0%nat) = true ->
  Handler.sqs_incarnation json_loads batch_size flush_timeout polling_interval
    runs 0
  = ([Log (if Handler.client_ok (runs 0%nat)
           then SqsPolling else SqsClientFailed)],
     Returned tt).
Proof.
  intros Hs. unfold Handler.sqs_incarnation, Sqs.start_sqs_listener.
  rewrite Hs. destruct (Handler.client_ok (runs 0%nat)); [|reflexivity].
  unfold bind, Sqs.logger, call, Sqs.polling.
  rewrite while_not_set_when_set. reflexivity.
Qed.
End AfterShutdown.

(** X20. A termination signal does not end the process. [shutdown_event] is
    set by the signal handlers and cleared nowhere, so once it is set every
    call of [main] finds it set: the listener (RabbitMQ once connected, the
    calls that set its channel up and close it returning, or SQS) leaves
    its loop at the first test and returns without calling the callback or
    settling anything, [main] returns, and the loop around [main] calls it
    again at once. Over any number of such calls the process is still running, its
    failure count unchanged, and it has not slept. *)
Theorem shutdown_does_not_end_the_process {Message : Type}
    (json_loads : string -> option Message)
    (batch_size flush_timeout polling_interval : Z) (wait : nat -> Z)
    (queue_type : string)
    (calls : list ((nat -> Handler.rabbit_run Message)
                   * (nat -> Handler.sqs_run Message))) :
  Handler.lower queue_type = "rabbitmq"%string
  \/ Handler.lower queue_type = "sqs"%string ->
  Forall (fun c =>
            Handler.established (fst c 0%nat) = true
            /\ Handler.rabbit_is_set (fst c 0%nat) = true
            /\ Rabbit.cooperative (Handler.rabbit_broker (fst c 0%nat)) = true
            /\ Handler.sqs_is_set (snd c 0%nat) = true) calls ->
  let consume :=
    fun c => Handler.consume_messages json_loads batch_size flush_timeout
               polling_interval wait queue_type (fst c) (snd c) in
  Forall (fun c =>
            snd (consume c) = Returned tt
            /\ dispatched (fst (consume c)) = []
            /\ settlements (fst (consume c)) = []) calls
  /\ Main.supervise 0 (map (fun c => Main.main (consume c)) calls)
     = (flat_map (fun _ => [Main.MainCalled; Main.LogRestarting]) calls,
        Main.Running 0).
Proof.
  intros Hq Hcalls. cbv zeta.
  assert (Hone : Forall (fun c =>
            snd (Handler.consume_messages json_loads batch_size flush_timeout
                   polling_interval wait queue_type (fst c) (snd c))
            = Returned tt
            /\ dispatched
                 (fst (Handler.consume_messages json_loads batch_size
                         flush_timeout polling_interval wait queue_type
                         (fst c) (snd c))) = []
            /\ settlements
                 (fst (Handler.consume_messages json_loads batch_size
                         flush_timeout polling_interval wait queue_type
                         (fst c) (snd c))) = []) calls).
  { revert Hcalls. apply Forall_impl.
    intros [rabbit sqs] (He & Hr & Hbr & Hs).
    cbn [fst snd] in *. unfold Handler.consume_messages.
    destruct Hq as [Hq|Hq]; rewrite Hq; cbn [String.eqb Ascii.eqb Bool.eqb].
    - rewrite retry_first;
        rewrite (rabbit_incarnation_after_shutdown json_loads batch_size
                   flush_timeout rabbit He Hr Hbr); cbn; auto.
      discriminate.
    - rewrite retry_first;
        rewrite (sqs_incarnation_after_shutdown json_loads batch_size
                   flush_timeout polling_interval sqs Hs); cbn; auto.
      discriminate. }
  split; [exact Hone|].
  rewrite supervise_returns.
  - rewrite flat_map_concat_map, map_map, <- flat_map_concat_map.
    reflexivity.
  - apply Forall_map. revert Hone. apply Forall_impl.
    intros c (Ho & _). unfold Main.main. rewrite Ho. reflexivity.
Qed.

(** Three calls of [main] after the signal, with deliveries waiting at the
    broker: three immediate restarts, still running. *)
Lemma shutdown_does_not_end_the_process_witness :
  Main.supervise 0
    (map (fun c => Main.main
                     (Handler.consume_messages Scenario.loads 3 60 5
                        Wired.wait "rabbitmq" (fst c) (snd c)))
       (repeat (Wired.after_shutdown, Wired.sqs_after_shutdown) 3))
  = (flat_map (fun _ => [Main.MainCalled; Main.LogRestarting])
       (repeat (Wired.after_shutdown, Wired.sqs_after_shutdown) 3),
     Main.Running 0).
Proof.
  apply (shutdown_does_not_end_the_process Scenario.loads 3 60 5 Wired.wait
           "rabbitmq"
           (repeat (Wired.after_shutdown, Wired.sqs_after_shutdown) 3)).
  - left. reflexivity.
  - repeat constructor.
Defined.
